(** * Glue job export: a shallow embedding of [main.py]

    The script lists the Glue jobs of an account, normalises each job
    record, writes a Terraform project under [terraform/] and publishes
    that tree to an S3 bucket.  The embedding keeps the script's shape:

    - Python values are the inductive [value]; a [dict] with string keys
      is an association list in insertion order;
    - statements run in the monad [M]: a state ([world]: local files,
      standard output, the calls issued to AWS) with Python exceptions;
    - everything the script cannot decide is an [environment]: what Glue
      and S3 answer, whether the operating system refuses a path, and in
      what order it lists a directory.

    The file system is a tree without symbolic links, with names that
    differ when their characters do: the file a path names is found by
    resolving its ["."] and [".."] components.  A write to a file that
    was opened succeeds.  The limits of the interpreter (its recursion
    limit, its cap on the digits of an [int] turned into text, memory)
    are not part of the model: the values are taken to be within them. *)

From Stdlib Require Import ZArith Ascii.
From Stdlib Require DecimalString.
From stdpp Require Import gmap strings list fin_maps.

(** ** Python values *)

(** A [float] is kept by its [repr] and a [datetime] by its rendering under
    ['%Y-%m-%dT%H:%M:%S']: the script observes them in no other way.
    [VObject] is any other object (a [set], [bytes], a [Decimal]): it has
    a type name, a truth value, and [json] cannot encode it.  Characters
    are the code points 0 to 255. *)
#[warnings="-register-all"]
Inductive value : Type :=
| VNone
| VBool (b : bool)
| VInt (z : Z)
| VFloat (repr : string)
| VStr (s : string)
| VDatetime (iso : string)
| VList (items : list value)
| VDict (items : list (string * value))
| VObject (type_name : string) (truth : bool).

Abbreviation dict := (list (string * value)).

(** [bool(v)] *)
Definition truthy (v : value) : bool :=
  match v with
  | VNone => false
  | VBool b => b
  | VInt z => negb (z =? 0)%Z
  | VFloat r => negb (String.eqb r "0.0" || String.eqb r "-0.0")
  | VStr s => negb (String.eqb s "")
  | VDatetime _ => true
  | VList l => match l with [] => false | _ => true end
  | VDict d => match d with [] => false | _ => true end
  | VObject _ t => t
  end.

(** [type(v).__name__] *)
Definition type_name_of (v : value) : string :=
  match v with
  | VNone => "NoneType"
  | VBool _ => "bool"
  | VInt _ => "int"
  | VFloat _ => "float"
  | VStr _ => "str"
  | VDatetime _ => "datetime.datetime"
  | VList _ => "list"
  | VDict _ => "dict"
  | VObject n _ => n
  end.

(** [d.get(k)] as an option, and [d[k] = v]: an existing key keeps its
    place, a new key goes last. *)
Fixpoint dict_get {A : Type} (d : list (string * A)) (k : string) : option A :=
  match d with
  | [] => None
  | (k', v) :: d' => if String.eqb k' k then Some v else dict_get d' k
  end.

Fixpoint dict_set {A : Type} (d : list (string * A)) (k : string) (v : A)
  : list (string * A) :=
  match d with
  | [] => [(k, v)]
  | (k', v') :: d' =>
      if String.eqb k' k then (k, v) :: d' else (k', v') :: dict_set d' k v
  end.

Definition dict_keys {A : Type} (d : list (string * A)) : list string :=
  map fst d.

(** ** Exceptions, the world and the environment *)

Inductive exn_class : Type :=
| KeyError
| AttributeError
| TypeError
| ValueError
| OSError
| EntityNotFoundException
| ClientError (code : string)   (* [e.response['Error']['Code']] *)
(* any other subclass of [Exception] *)
| OtherException (name : string)
(* a [BaseException] that is no [Exception]: [SystemExit],
   [KeyboardInterrupt], [GeneratorExit] *)
| SystemExiting (name : string).

(** An exception: its class and [str(e)]. *)
Inductive exn : Type := Exn (cls : exn_class) (msg : string).

(** The classes [except ClientError] catches, each with its
    [e.response['Error']['Code']]; Glue's [EntityNotFoundException] is one
    of them. *)
Definition client_error_code (c : exn_class) : option string :=
  match c with
  | ClientError code => Some code
  | EntityNotFoundException => Some "EntityNotFoundException"
  | _ => None
  end.

Definition exn_str (e : exn) : string := let 'Exn _ m := e in m.
Definition exn_cls (e : exn) : exn_class := let 'Exn c _ := e in c.

(** [isinstance(e, Exception)] *)
Definition is_exception (e : exn) : bool :=
  match exn_cls e with
  | SystemExiting _ => false
  | _ => true
  end.

(** A raw job record of [get_jobs]: a dict whose ['Name'] entry, when
    present, is a [str] (the job's unique key); every other entry is
    unconstrained. *)
Record job : Type := Job { Name : option string; fields : dict }.

(** The pages a listing call hands out: a response without [NextToken], a
    response with one (the next call gets [rest]), or a call that raises. *)
Inductive listing (A : Type) : Type :=
| LastPage (items : list A)
| NextPage (items : list A) (rest : listing A)
| ListingFault (e : exn).
Arguments LastPage {A} items.
Arguments NextPage {A} items rest.
Arguments ListingFault {A} e.

Inductive os_call : Type :=
| Makedirs (path : string)
| OpenW (path : string).

Inductive api_call : Type :=
| GlueGetJobs
| GlueGetTriggers
| GlueGetSecurityConfiguration (name : value)
| S3HeadObject (bucket key : string)
| S3UploadFile (local bucket key : string).

Record environment : Type := Env {
  glue_get_jobs : listing job;
  glue_get_triggers : listing value;
  (* the response of [get_security_configuration(Name=...)], or what it raises *)
  glue_get_security_configuration : value -> exn + dict;
  (* [None]: the call returns *)
  s3_head_object : string -> string -> option exn;
  s3_upload_file : string -> string -> string -> option exn;
  (* [Some e]: the operating system refuses the call with [e] *)
  os_refuses : os_call -> option exn;
  (* the place of a file in the listings of the directories: the files
     with the smaller rank come first *)
  scandir_rank : string -> nat
}.

(** Local files by path, the lines printed, and the AWS calls issued, the
    last two in the order they happened. *)
Record world : Type := World {
  files : gmap string string;
  stdout : list string;
  calls : list api_call
}.

Inductive result (A : Type) : Type :=
| Return (a : A)
| Raise (e : exn).
Arguments Return {A} a.
Arguments Raise {A} e.

Definition M (A : Type) : Type := world -> result A * world.

#[export] Instance M_ret : MRet M := fun A a w => (Return a, w).

#[export] Instance M_bind : MBind M := fun A B f m w =>
  match m w with
  | (Return a, w') => f a w'
  | (Raise e, w') => (Raise e, w')
  end.

Definition raise {A : Type} (e : exn) : M A := fun w => (Raise e, w).

(** [try: body / except Exception as e: handler e]: what is raised and
    is no [Exception] passes through the [try] *)
Definition try_except {A : Type} (body : M A) (handler : exn -> M A) : M A :=
  fun w =>
    match body w with
    | (Return a, w') => (Return a, w')
    | (Raise e, w') => if is_exception e then handler e w' else (Raise e, w')
    end.

Definition print (line : string) : M unit := fun w =>
  (Return tt, World (files w) (stdout w ++ [line]) (calls w)).

Definition call_api (c : api_call) : M unit := fun w =>
  (Return tt, World (files w) (stdout w) (calls w ++ [c])).

(** ** Strings *)

Definition nl : string := String "010"%char "".
Definition dquote : string := String "034"%char "".
Definition quoted (s : string) : string := dquote +:+ s +:+ dquote.

(** [s[n:]] *)
Fixpoint str_drop (n : nat) (s : string) : string :=
  match n, s with
  | O, _ => s
  | S n', String _ s' => str_drop n' s'
  | S _, EmptyString => EmptyString
  end.

(** [s.endswith(c)] for a one-character [c] *)
Fixpoint str_endswith_char (c : ascii) (s : string) : bool :=
  match s with
  | EmptyString => false
  | String a EmptyString => Ascii.eqb a c
  | String _ s' => str_endswith_char c s'
  end.

(** The scan of [str.replace]: [skip] counts the characters of a match
    still to be dropped. *)
Fixpoint replace_scan (old new : string) (skip : nat) (s : string) : string :=
  match s with
  | EmptyString => EmptyString
  | String c s' =>
      match skip with
      | S k => replace_scan old new k s'
      | O =>
          if String.prefix old s
          then new +:+ replace_scan old new (String.length old - 1) s'
          else String c (replace_scan old new 0 s')
      end
  end.

Fixpoint interleave (new s : string) : string :=
  match s with
  | EmptyString => new
  | String c s' => new +:+ String c (interleave new s')
  end.

(** [s.replace(old, new)]: every occurrence, found left to right without
    overlap. *)
Definition str_replace (s old new : string) : string :=
  match old with
  | EmptyString => interleave new s
  | _ => replace_scan old new 0 s
  end.

(** [s.partition(sep)] when [sep] occurs in [s] ([sep] not empty) *)
Fixpoint str_partition (sep s : string) : option (string * string) :=
  match s with
  | EmptyString => None
  | String c s' =>
      if String.prefix sep s then Some (EmptyString, str_drop (String.length sep) s)
      else match str_partition sep s' with
           | Some (a, b) => Some (String c a, b)
           | None => None
           end
  end.

(** [s.split(sep, 1)] ([sep] not empty) *)
Definition str_split1 (s sep : string) : list string :=
  match str_partition sep s with
  | Some (a, b) => [a; b]
  | None => [s]
  end.

(** [os.path.join(a, b)] *)
Definition path_join (a b : string) : string :=
  if String.prefix "/" b then b
  else if String.eqb a "" || str_endswith_char "/"%char a then a +:+ b
  else a +:+ "/" +:+ b.

(** [os.path.relpath(path, start)] for a [path] found by walking [start] *)
Definition relpath (path start : string) : string :=
  if String.prefix (start +:+ "/") path
  then str_drop (String.length start + 1) path
  else path.

(** ** Paths and files *)

(** [path.split('/')] *)
Fixpoint path_components (path : string) : list string :=
  match path with
  | EmptyString => [""]
  | String c rest =>
      if Ascii.eqb c "/" then "" :: path_components rest
      else match path_components rest with
           | first :: others => String c first :: others
           | [] => [String c ""]
           end
  end.

(** One more component of a path, after those resolved so far (the
    innermost first): an empty component and ["."] stay in place, [".."]
    leaves the innermost directory, or climbs above the working
    directory. *)
Definition enter (resolved : list string) (component : string) : list string :=
  if String.eqb component "" || String.eqb component "." then resolved
  else if String.eqb component ".."
       then match resolved with
            | [] => [".."]
            | inner :: outer =>
                if String.eqb inner ".." then ".." :: resolved else outer
            end
       else component :: resolved.

(** ['/'.join(components)] *)
Fixpoint path_of (components : list string) : string :=
  match components with
  | [] => ""
  | [c] => c
  | c :: rest => c +:+ "/" +:+ path_of rest
  end.

(** The file a relative path names, by its path from the working
    directory without ["."], [".."] or empty components: two paths name
    the same file exactly when they resolve to the same text.  Every path
    the script opens is relative. *)
Definition resolve (path : string) : string :=
  match rev (fold_left enter (path_components path) []) with
  | [] => "."
  | components => path_of components
  end.
Arguments resolve : simpl never.

(** [f.write(text)] on the file that was opened at [path] *)
Definition write (path text : string) : M unit := fun w =>
  (Return tt,
   World (<[resolve path := default "" (files w !! resolve path) +:+ text]> (files w))
         (stdout w) (calls w)).

(** [path] is the path of a file in the directory [top], or further
    down. *)
Definition below (top path : string) : bool :=
  String.prefix (top +:+ "/") path && String.eqb (resolve path) path.

(** The files in the order of their ranks; files of the same rank keep
    their order. *)
Fixpoint insert_by (rank : string -> nat) (path : string) (sorted : list string)
  : list string :=
  match sorted with
  | [] => [path]
  | q :: rest =>
      if Nat.leb (rank path) (rank q) then path :: sorted
      else q :: insert_by rank path rest
  end.

Definition sort_by (rank : string -> nat) (paths : list string) : list string :=
  foldr (insert_by rank) [] paths.

(** ** JSON encoding: [json.dump(obj, fp, indent=2, default=datetime_converter)] *)

Definition datetime_converter (obj : value) : result string :=
  match obj with
  | VDatetime iso => Return iso   (* [obj.strftime('%Y-%m-%dT%H:%M:%S')] *)
  | _ => Raise (Exn TypeError "Type not serializable")
  end.

Definition hex_digit (n : nat) : ascii :=
  match String.get n "0123456789abcdef" with
  | Some c => c
  | None => "0"%char
  end.

(** One character under [ensure_ascii]: [ESCAPE_DCT], or [\uXXXX] outside
    the printable ASCII range. *)
Definition escape_char (c : ascii) : string :=
  let n := nat_of_ascii c in
  if Nat.eqb n 92 then "\\"
  else if Nat.eqb n 34 then "\" +:+ dquote
  else if Nat.eqb n 8 then "\b"
  else if Nat.eqb n 12 then "\f"
  else if Nat.eqb n 10 then "\n"
  else if Nat.eqb n 13 then "\r"
  else if Nat.eqb n 9 then "\t"
  else if Nat.leb 32 n && Nat.leb n 126 then String c ""
  else "\u00" +:+ String (hex_digit (n / 16)) (String (hex_digit (n mod 16)) "").

Fixpoint escape_string (s : string) : string :=
  match s with
  | EmptyString => EmptyString
  | String c s' => escape_char c +:+ escape_string s'
  end.

(** [py_encode_basestring_ascii] *)
Definition encoder (s : string) : string := quoted (escape_string s).

Definition intstr (z : Z) : string :=
  DecimalString.NilZero.string_of_int (Z.to_int z).

Definition floatstr (repr : string) : string :=
  if String.eqb repr "nan" then "NaN"
  else if String.eqb repr "inf" then "Infinity"
  else if String.eqb repr "-inf" then "-Infinity"
  else repr.

Fixpoint indent_by (level : nat) : string :=
  match level with
  | O => ""
  | S n => "  " +:+ indent_by n
  end.

(** [_iterencode], on a value within the limits of the interpreter (its
    recursion limit and its cap on the digits of an [int] turned into
    text): the chunks yielded, joined, and the exception that cut the
    iteration short, if any.  The chunks before a failure have been
    yielded, so they are part of the result. *)
Fixpoint iterencode (o : value) (level : nat) : string * option exn :=
  match o with
  | VStr s => (encoder s, None)
  | VNone => ("null", None)
  | VBool true => ("true", None)
  | VBool false => ("false", None)
  | VInt z => (intstr z, None)
  | VFloat r => (floatstr r, None)
  | VList [] => ("[]", None)
  | VList lst =>
      let newline_indent := nl +:+ indent_by (S level) in
      let fix items (first : bool) (l : list value) : string * option exn :=
        match l with
        | [] => ("", None)
        | v :: l' =>
            let buf := if first then "[" +:+ newline_indent
                       else "," +:+ newline_indent in
            match iterencode v (S level) with
            | (s, None) => let '(s', e) := items false l' in (buf +:+ s +:+ s', e)
            | (s, Some e) => (buf +:+ s, Some e)
            end
        end in
      match items true lst with
      | (s, None) => (s +:+ nl +:+ indent_by level +:+ "]", None)
      | (s, Some e) => (s, Some e)
      end
  | VDict [] => ("{}", None)
  | VDict dct =>
      let newline_indent := nl +:+ indent_by (S level) in
      let fix items (first : bool) (l : list (string * value)) : string * option exn :=
        match l with
        | [] => ("", None)
        | (key, v) :: l' =>
            let buf := (if first then "" else "," +:+ newline_indent)
                       +:+ encoder key +:+ ": " in
            match iterencode v (S level) with
            | (s, None) => let '(s', e) := items false l' in (buf +:+ s +:+ s', e)
            | (s, Some e) => (buf +:+ s, Some e)
            end
        end in
      match items true dct with
      | (s, None) =>
          ("{" +:+ newline_indent +:+ s +:+ nl +:+ indent_by level +:+ "}", None)
      | (s, Some e) => ("{" +:+ newline_indent +:+ s, Some e)
      end
  | VDatetime _ | VObject _ _ =>
      match datetime_converter o with
      | Return s => (encoder s, None)
      | Raise e => ("", Some e)
      end
  end.

(** [json.dump] writes the chunks to the open file as they come. *)
Definition json_dump (obj : value) (path : string) : M unit :=
  let '(text, failure) := iterencode obj 0 in
  write path text;;
  match failure with
  | Some e => raise e
  | None => mret tt
  end.

Section Script.

Context (env : environment).

Definition makedirs (path : string) : M unit :=
  match os_refuses env (Makedirs path) with
  | Some e => raise e
  | None => mret tt
  end.

(** [open(path, 'w')]: the file that [path] names is created or truncated *)
Definition open_w (path : string) : M unit :=
  match os_refuses env (OpenW path) with
  | Some e => raise e
  | None => fun w =>
      (Return tt, World (<[resolve path := ""]> (files w)) (stdout w) (calls w))
  end.

(** ** Enumeration *)

(** The loop [while 'NextToken' in response] over a listing; [call]
    records each request. *)
Fixpoint paginate {A : Type} (call : api_call) (pages : listing A) : M (list A) :=
  match pages with
  | LastPage items => call_api call;; mret items
  | NextPage items rest =>
      call_api call;;
      more ← paginate call rest;
      mret (items ++ more)
  | ListingFault e => call_api call;; raise e
  end.

Definition get_glue_jobs : M (list job) :=
  paginate GlueGetJobs (glue_get_jobs env).

Definition get_triggers : M (list value) :=
  paginate GlueGetTriggers (glue_get_triggers env).

Definition get_security_configuration (config_name : value) : M value :=
  try_except
    (call_api (GlueGetSecurityConfiguration config_name);;
     match glue_get_security_configuration env config_name with
     | inl e => raise e
     | inr response =>
         match dict_get response "SecurityConfiguration" with
         | Some v => mret v
         | None => raise (Exn KeyError "'SecurityConfiguration'")
         end
     end)
    (* [except glue_client.exceptions.EntityNotFoundException]: whatever
       else is raised goes on *)
    (fun e =>
       match exn_cls e with
       | EntityNotFoundException => mret VNone
       | _ => raise e
       end).

(** ** Normalisation *)

(** [job['Name']] *)
Definition job_getitem_Name (job : job) : M string :=
  match Name job with
  | Some n => mret n
  | None => raise (Exn KeyError "'Name'")
  end.

(** [job.get(key)], and [job.get(key, dflt)] *)
Definition job_lookup (job : job) (key : string) : option value :=
  if String.eqb key "Name" then VStr <$> Name job
  else dict_get (fields job) key.

Definition job_get (job : job) (key : string) (dflt : value) : value :=
  default dflt (job_lookup job key).

(** [v.get(key, dflt)] on a value that may not be a dict *)
Definition value_get (v : value) (key : string) (dflt : value) : M value :=
  match v with
  | VDict d => mret (default dflt (dict_get d key))
  | _ => raise (Exn AttributeError
                  ("'" +:+ type_name_of v +:+ "' object has no attribute 'get'"))
  end.

(** The pair returned is [(job_name, job_details)], or [(None, None)].
    In the dict literal only the ["connections"] entry can raise, so it is
    evaluated ahead of the literal. *)
Definition process_job_details (job : job) : M (option string * option dict) :=
  try_except
    (job_name ← job_getitem_Name job;
     connections ←
       value_get (job_get job "Connections" (VDict [])) "Connections" (VList []);
     let job_details : dict :=
       [ ("name", job_get job "Name" (VStr ""));
         ("role_arn", job_get job "Role" (VStr ""));
         ("command", job_get job "Command" (VDict []));
         ("max_retries", job_get job "MaxRetries" (VInt 0));
         ("connections", connections);
         ("default_arguments", job_get job "DefaultArguments" (VDict []));
         ("description", job_get job "Description" (VStr ""));
         ("glue_version", job_get job "GlueVersion" (VStr ""));
         ("max_capacity", job_get job "MaxCapacity" (VInt 0));
         ("timeout", job_get job "Timeout" (VInt 2880));
         ("worker_type", job_get job "WorkerType" (VStr ""));
         ("number_of_workers", job_get job "NumberOfWorkers" (VInt 0));
         ("security_configuration", job_get job "SecurityConfiguration" (VStr "")) ] in
     let security_config_name := job_get job "SecurityConfiguration" VNone in
     job_details ←
       (if truthy security_config_name
        then sc ← get_security_configuration security_config_name;
             mret (dict_set job_details "security_configuration" sc)
        else mret job_details);
     mret (Some job_name, Some job_details))
    (fun e =>
       name ← job_getitem_Name job;
       print ("Error processing job details for " +:+ name +:+ ": " +:+ exn_str e);;
       mret (None, None)).

(** ** Emission *)

Definition main_tf : string := "terraform/main.tf".
Definition variables_tf : string := "terraform/variables.tf".
Definition outputs_tf : string := "terraform/outputs.tf".
Definition terraform_tfvars : string := "terraform/terraform.tfvars".

(** [f'terraform/files/{job_name}.tfvars.json'] *)
Definition job_file (job_name : string) : string :=
  "terraform/files/" +:+ job_name +:+ ".tfvars.json".

(** [f'  {job_name} = jsondecode(file("files/{job_name}.tfvars.json"))\n'] *)
Definition tfvars_entry (job_name : string) : string :=
  "  " +:+ job_name +:+ " = jsondecode(file("
  +:+ quoted ("files/" +:+ job_name +:+ ".tfvars.json") +:+ "))" +:+ nl.

Definition str_or_none (o : option string) : value :=
  match o with Some s => VStr s | None => VNone end.

Definition dict_or_none (o : option dict) : value :=
  match o with Some d => VDict d | None => VNone end.

(** The loop [for job in jobs] with its accumulator [glue_jobs] *)
Fixpoint for_jobs (jobs : list job) (glue_jobs : list (string * dict))
  : M (list (string * dict)) :=
  match jobs with
  | [] => mret glue_jobs
  | job :: rest =>
      '(job_name, job_details) ← process_job_details job;
      glue_jobs ←
        (if truthy (str_or_none job_name) && truthy (dict_or_none job_details)
         then match job_name, job_details with
              | Some n, Some d =>
                  let glue_jobs := dict_set glue_jobs n d in
                  open_w (job_file n);;
                  json_dump (VDict d) (job_file n);;
                  mret glue_jobs
              | _, _ => mret glue_jobs
              end
         else mret glue_jobs);
      for_jobs rest glue_jobs
  end.

(** The loop [for job_name in glue_jobs] *)
Fixpoint for_entries (job_names : list string) : M unit :=
  match job_names with
  | [] => mret tt
  | job_name :: rest =>
      write terraform_tfvars (tfvars_entry job_name);;
      for_entries rest
  end.

Definition create_terraform_files : M unit :=
  makedirs "terraform";;
  makedirs "terraform/files";;
  open_w main_tf;;
  open_w variables_tf;;
  open_w outputs_tf;;
  open_w terraform_tfvars;;
  write main_tf
    ("provider " +:+ quoted "aws" +:+ " {" +:+ nl +:+ "  region = var.aws_region"
     +:+ nl +:+ "}" +:+ nl +:+ nl);;
  write main_tf ("module " +:+ quoted "glue" +:+ " {" +:+ nl);;
  write main_tf
    ("  source = "
     +:+ quoted "git::https://github.com/cloudposse/terraform-aws-glue.git//modules/glue_job?ref=0.4.0"
     +:+ nl);;
  write main_tf ("  jobs = var.glue_jobs" +:+ nl);;
  write main_tf ("  tags = var.tags" +:+ nl);;
  write main_tf ("}" +:+ nl +:+ nl);;
  write variables_tf
    ("variable " +:+ quoted "aws_region" +:+ " {" +:+ nl +:+ "  description = "
     +:+ quoted "The AWS region to create resources in" +:+ nl
     +:+ "  type = string" +:+ nl +:+ "}" +:+ nl +:+ nl);;
  write variables_tf
    ("variable " +:+ quoted "glue_jobs" +:+ " {" +:+ nl +:+ "  description = "
     +:+ quoted "Map of Glue Jobs configurations" +:+ nl
     +:+ "  type = map(any)" +:+ nl +:+ "}" +:+ nl +:+ nl);;
  write variables_tf
    ("variable " +:+ quoted "tags" +:+ " {" +:+ nl +:+ "  description = "
     +:+ quoted "Tags to be applied to all resources" +:+ nl
     +:+ "  type = map(string)" +:+ nl +:+ "}" +:+ nl +:+ nl);;
  write terraform_tfvars ("aws_region = " +:+ quoted "us-west-2" +:+ nl +:+ nl);;
  jobs ← get_glue_jobs;
  triggers ← get_triggers;
  glue_jobs ← for_jobs jobs [];
  write terraform_tfvars ("glue_jobs = {" +:+ nl);;
  for_entries (dict_keys glue_jobs);;
  write terraform_tfvars ("}" +:+ nl +:+ nl);;
  write terraform_tfvars ("tags = {" +:+ nl);;
  write terraform_tfvars
    ("  owner-team-email = " +:+ quoted "owner@example.com" +:+ nl);;
  write terraform_tfvars
    ("  tech-team-email  = " +:+ quoted "tech@example.com" +:+ nl);;
  write terraform_tfvars ("}" +:+ nl).

(** ** Publishing *)

(** The files [os.walk(top)] finds, each by [os.path.join(root, file)]:
    every file below [top].  The walk hands them out directory by
    directory, each directory in the order of its listing, which the file
    system decides: here the environment ranks the files. *)
Definition os_walk (top : string) : M (list string) := fun w =>
  (Return (sort_by (scandir_rank env)
             (filter (fun p => below top p = true)
                (map fst (map_to_list (files w))))), w).

(** [bucket_name, prefix = bucket_uri.replace("s3://", "").split("/", 1)] *)
Definition parse_bucket_uri (bucket_uri : string) : M (string * string) :=
  match str_split1 (str_replace bucket_uri "s3://" "") "/" with
  | [bucket_name; prefix] => mret (bucket_name, prefix)
  | _ => raise (Exn ValueError "not enough values to unpack (expected 2, got 1)")
  end.

(** The loop over the files of the tree *)
Fixpoint for_files (bucket_name prefix : string) (local_paths : list string)
  : M unit :=
  match local_paths with
  | [] => mret tt
  | local_path :: rest =>
      let s3_path := relpath local_path "terraform" in
      let s3_key := path_join prefix s3_path in
      call_api (S3HeadObject bucket_name s3_key);;
      match s3_head_object env bucket_name s3_key with
      | None =>
          print ("File " +:+ s3_key +:+ " already exists in bucket "
                 +:+ bucket_name +:+ ". Skipping upload.")
      | Some e =>
          match client_error_code (exn_cls e) with
          | Some code =>
              if String.eqb code "404"
              then
                call_api (S3UploadFile local_path bucket_name s3_key);;
                match s3_upload_file env local_path bucket_name s3_key with
                | Some e' => raise e'
                | None => print ("Uploaded " +:+ s3_key +:+ " to bucket "
                                 +:+ bucket_name +:+ ".")
                end
              else print ("Failed to check existence of " +:+ s3_key +:+ ": "
                          +:+ exn_str e)
          | None => raise e
          end
      end;;
      for_files bucket_name prefix rest
  end.

Definition upload_to_s3 (bucket_uri : string) : M unit :=
  '(bucket_name, prefix) ← parse_bucket_uri bucket_uri;
  local_paths ← os_walk "terraform";
  for_files bucket_name prefix local_paths.

Definition success_message : string :=
  "Arquivos Terraform criados e enviados para o bucket S3 com sucesso!".

Definition main (bucket_uri : string) : M unit :=
  create_terraform_files;;
  upload_to_s3 bucket_uri;;
  print success_message.

End Script.

(** * Vocabulary of the statements *)

(** The dict literal of [process_job_details], given the value computed
    for its ["connections"] entry. *)
Definition job_details_literal (job : job) (connections : value) : dict :=
  [ ("name", job_get job "Name" (VStr ""));
    ("role_arn", job_get job "Role" (VStr ""));
    ("command", job_get job "Command" (VDict []));
    ("max_retries", job_get job "MaxRetries" (VInt 0));
    ("connections", connections);
    ("default_arguments", job_get job "DefaultArguments" (VDict []));
    ("description", job_get job "Description" (VStr ""));
    ("glue_version", job_get job "GlueVersion" (VStr ""));
    ("max_capacity", job_get job "MaxCapacity" (VInt 0));
    ("timeout", job_get job "Timeout" (VInt 2880));
    ("worker_type", job_get job "WorkerType" (VStr ""));
    ("number_of_workers", job_get job "NumberOfWorkers" (VInt 0));
    ("security_configuration", job_get job "SecurityConfiguration" (VStr "")) ].

(** The line printed when a job is skipped. *)
Definition skip_message (job_name : string) (e : exn) : string :=
  "Error processing job details for " +:+ job_name +:+ ": " +:+ exn_str e.

(** The world after one more line on standard output, one more call. *)
Definition printed (line : string) (w : world) : world :=
  World (files w) (stdout w ++ [line]) (calls w).

Definition called (c : api_call) (w : world) : world :=
  World (files w) (stdout w) (calls w ++ [c]).

(** The world after [open(path, 'w')] and the writes of [json.dump]. *)
Definition dumped (path text : string) (w : world) : world :=
  World (<[resolve path := text]> (files w)) (stdout w) (calls w).

(** Optional input field, output field, documented default. *)
Definition optional_defaults : list (string * string * value) :=
  [ ("Role", "role_arn", VStr "");
    ("Description", "description", VStr "");
    ("WorkerType", "worker_type", VStr "");
    ("SecurityConfiguration", "security_configuration", VStr "");
    ("Command", "command", VDict []);
    ("DefaultArguments", "default_arguments", VDict []);
    ("Connections", "connections", VList []);
    ("MaxRetries", "max_retries", VInt 0);
    ("MaxCapacity", "max_capacity", VInt 0);
    ("NumberOfWorkers", "number_of_workers", VInt 0);
    ("Timeout", "timeout", VInt 2880) ].

(** [job] is normalised under the name [n] with the details [d]; the
    pair returned does not depend on the world, so any world will do. *)
Definition normalizes (env : environment) (job : job) (n : string) (d : dict)
  : Prop :=
  fst (process_job_details env job (World ∅ [] [])) = Return (Some n, Some d).

(** The loop over [jobs] emits a file and an entry under the name [n]. *)
Definition emitted (env : environment) (jobs : list job) (n : string) : Prop :=
  n <> "" /\ exists job d, In job jobs /\ normalizes env job n d.

(** The items of a listing that is read to its last page. *)
Fixpoint listed {A : Type} (pages : listing A) : option (list A) :=
  match pages with
  | LastPage items => Some items
  | NextPage items rest => app items <$> listed rest
  | ListingFault _ => None
  end.

(** The fixed texts of the project. *)
Definition main_tf_text : string :=
  "provider " +:+ quoted "aws" +:+ " {" +:+ nl +:+ "  region = var.aws_region"
  +:+ nl +:+ "}" +:+ nl +:+ nl
  +:+ "module " +:+ quoted "glue" +:+ " {" +:+ nl
  +:+ "  source = "
  +:+ quoted "git::https://github.com/cloudposse/terraform-aws-glue.git//modules/glue_job?ref=0.4.0"
  +:+ nl
  +:+ "  jobs = var.glue_jobs" +:+ nl
  +:+ "  tags = var.tags" +:+ nl
  +:+ "}" +:+ nl +:+ nl.

Definition variables_tf_text : string :=
  "variable " +:+ quoted "aws_region" +:+ " {" +:+ nl +:+ "  description = "
  +:+ quoted "The AWS region to create resources in" +:+ nl
  +:+ "  type = string" +:+ nl +:+ "}" +:+ nl +:+ nl
  +:+ "variable " +:+ quoted "glue_jobs" +:+ " {" +:+ nl +:+ "  description = "
  +:+ quoted "Map of Glue Jobs configurations" +:+ nl
  +:+ "  type = map(any)" +:+ nl +:+ "}" +:+ nl +:+ nl
  +:+ "variable " +:+ quoted "tags" +:+ " {" +:+ nl +:+ "  description = "
  +:+ quoted "Tags to be applied to all resources" +:+ nl
  +:+ "  type = map(string)" +:+ nl +:+ "}" +:+ nl +:+ nl.

Definition region_line : string :=
  "aws_region = " +:+ quoted "us-west-2" +:+ nl +:+ nl.

Fixpoint entries_text (job_names : list string) : string :=
  match job_names with
  | [] => ""
  | n :: rest => tfvars_entry n +:+ entries_text rest
  end.

Definition tags_text : string :=
  "tags = {" +:+ nl
  +:+ "  owner-team-email = " +:+ quoted "owner@example.com" +:+ nl
  +:+ "  tech-team-email  = " +:+ quoted "tech@example.com" +:+ nl
  +:+ "}" +:+ nl.

(** The [glue_jobs] block with the tags after it, and the whole of
    [terraform.tfvars], for the job names of the block. *)
Definition glue_jobs_text (job_names : list string) : string :=
  "glue_jobs = {" +:+ nl +:+ entries_text job_names
  +:+ "}" +:+ nl +:+ nl +:+ tags_text.

Definition tfvars_text (job_names : list string) : string :=
  region_line +:+ glue_jobs_text job_names.

(** The head and the tail of [create_terraform_files], around the calls
    to Glue and the loop over the jobs. *)
Definition write_skeleton (env : environment) : M unit :=
  makedirs env "terraform";;
  makedirs env "terraform/files";;
  open_w env main_tf;;
  open_w env variables_tf;;
  open_w env outputs_tf;;
  open_w env terraform_tfvars;;
  write main_tf
    ("provider " +:+ quoted "aws" +:+ " {" +:+ nl +:+ "  region = var.aws_region"
     +:+ nl +:+ "}" +:+ nl +:+ nl);;
  write main_tf ("module " +:+ quoted "glue" +:+ " {" +:+ nl);;
  write main_tf
    ("  source = "
     +:+ quoted "git::https://github.com/cloudposse/terraform-aws-glue.git//modules/glue_job?ref=0.4.0"
     +:+ nl);;
  write main_tf ("  jobs = var.glue_jobs" +:+ nl);;
  write main_tf ("  tags = var.tags" +:+ nl);;
  write main_tf ("}" +:+ nl +:+ nl);;
  write variables_tf
    ("variable " +:+ quoted "aws_region" +:+ " {" +:+ nl +:+ "  description = "
     +:+ quoted "The AWS region to create resources in" +:+ nl
     +:+ "  type = string" +:+ nl +:+ "}" +:+ nl +:+ nl);;
  write variables_tf
    ("variable " +:+ quoted "glue_jobs" +:+ " {" +:+ nl +:+ "  description = "
     +:+ quoted "Map of Glue Jobs configurations" +:+ nl
     +:+ "  type = map(any)" +:+ nl +:+ "}" +:+ nl +:+ nl);;
  write variables_tf
    ("variable " +:+ quoted "tags" +:+ " {" +:+ nl +:+ "  description = "
     +:+ quoted "Tags to be applied to all resources" +:+ nl
     +:+ "  type = map(string)" +:+ nl +:+ "}" +:+ nl +:+ nl);;
  write terraform_tfvars ("aws_region = " +:+ quoted "us-west-2" +:+ nl +:+ nl).

Definition write_glue_jobs (job_names : list string) : M unit :=
  write terraform_tfvars ("glue_jobs = {" +:+ nl);;
  for_entries job_names;;
  write terraform_tfvars ("}" +:+ nl +:+ nl);;
  write terraform_tfvars ("tags = {" +:+ nl);;
  write terraform_tfvars
    ("  owner-team-email = " +:+ quoted "owner@example.com" +:+ nl);;
  write terraform_tfvars
    ("  tech-team-email  = " +:+ quoted "tech@example.com" +:+ nl);;
  write terraform_tfvars ("}" +:+ nl).

(** What follows the skeleton: the calls to Glue, the loop, the tail. *)
Definition emit_jobs (env : environment) : M unit :=
  jobs ← get_glue_jobs env;
  triggers ← get_triggers env;
  glue_jobs ← for_jobs env jobs [];
  write_glue_jobs (dict_keys glue_jobs).

(** The paths the emitter writes besides the job files. *)
Definition top_files : list string :=
  [main_tf; variables_tf; outputs_tf; terraform_tfvars].

(** Two worlds hold the same file at every path that satisfies [P]. *)
Definition agree (P : string -> Prop) (w1 w2 : world) : Prop :=
  forall p, P p -> files w1 !! p = files w2 !! p.

(** [m] reads the world only through the files under [P], and keeps two
    worlds that agree there in agreement. *)
Definition respects {A : Type} (P : string -> Prop) (m : M A) : Prop :=
  forall w1 w2, agree P w1 w2 ->
    fst (m w1) = fst (m w2) /\ agree P (snd (m w1)) (snd (m w2)).

(** Paths below the output directory; a world with nothing there. *)
Definition under_terraform (p : string) : Prop :=
  String.prefix "terraform/" p = true.

(** Paths below the directory of the job files. *)
Definition under_files (p : string) : Prop :=
  String.prefix "terraform/files/" p = true.

Definition fresh_directory (w : world) : Prop :=
  forall p, under_terraform p -> files w !! p = None.

(** The character [c] occurs in [s]. *)
Fixpoint contains_char (c : ascii) (s : string) : bool :=
  match s with
  | EmptyString => false
  | String a s' => Ascii.eqb a c || contains_char c s'
  end.

(** The argument once every ["s3://"] is removed. *)
Definition without_scheme (bucket_uri : string) : string :=
  str_replace bucket_uri "s3://" "".

Definition unpack_error : exn :=
  Exn ValueError "not enough values to unpack (expected 2, got 1)".

(** What [datetime_converter] raises. *)
Definition type_error : exn := Exn TypeError "Type not serializable".

(** The lines [upload_to_s3] prints. *)
Definition skipping_message (s3_key bucket_name : string) : string :=
  "File " +:+ s3_key +:+ " already exists in bucket " +:+ bucket_name
  +:+ ". Skipping upload.".

Definition uploaded_message (s3_key bucket_name : string) : string :=
  "Uploaded " +:+ s3_key +:+ " to bucket " +:+ bucket_name +:+ ".".

Definition check_failed_message (s3_key : string) (e : exn) : string :=
  "Failed to check existence of " +:+ s3_key +:+ ": " +:+ exn_str e.

(** The key under which a local file is published. *)
Definition s3_key_of (prefix local_path : string) : string :=
  path_join prefix (relpath local_path "terraform").

(** [m] changes no file outside [paths], prints nothing, calls nothing. *)
Definition only_writes {A : Type} (paths : list string) (m : M A) : Prop :=
  forall w r w1, m w = (r, w1) ->
    (forall p, ~ In p paths -> files w1 !! p = files w !! p) /\
    stdout w1 = stdout w /\ calls w1 = calls w.

(** A view of the files as a function, to follow writes symbolically:
    [tracks view w] when [view] tells the content of every path in [w];
    [writes m f] when a run of [m] that returns turns a view into [f view]. *)
Definition view : Type := string -> option string.

Definition tracks (v : view) (w : world) : Prop :=
  forall p, files w !! p = v p.

Definition view_set (path : string) (content : string) (v : view) : view :=
  fun q => if String.eqb path q then Some content else v q.

Definition view_write (path text : string) (v : view) : view :=
  view_set path (default "" (v path) +:+ text) v.

Definition writes {A : Type} (m : M A) (f : view -> view) : Prop :=
  forall v w a w1, tracks v w -> m w = (Return a, w1) -> tracks (f v) w1.

(** ** Sample inputs *)

Definition fresh : world := World ∅ [] [].

(** A file system that lists the files of a directory ahead of those of
    its subdirectories. *)
Definition top_down (path : string) : nat := length (path_components path).

(** An account that answers every lookup with not-found, a bucket with no
    objects, an operating system that refuses nothing. *)
Definition quiet (jobs : list job) : environment :=
  Env (LastPage jobs) (LastPage [])
      (fun _ => inl (Exn EntityNotFoundException "Entity not found"))
      (fun _ _ => Some (Exn (ClientError "404") "Not Found"))
      (fun _ _ _ => None)
      (fun _ => None)
      top_down.

(** A job record with a name and nothing else. *)
Definition bare_job (n : string) : job := Job (Some n) [].

(** A job that names a security configuration the account does not have. *)
Definition dangling_job : job :=
  Job (Some "etl") [("Role", VStr "arn:role"); ("SecurityConfiguration", VStr "gone")].

(** A job record without a ['Name'] entry, among four sound ones. *)
Definition nameless_job : job := Job None [("Role", VStr "arn:role")].

Definition five_jobs_one_nameless : environment :=
  quiet [bare_job "a"; bare_job "b"; nameless_job; bare_job "d"; bare_job "e"].

(** A named job whose ['Connections'] entry is a list, among four sound
    ones. *)
Definition faulty_job : job := Job (Some "c") [("Connections", VList [])].

Definition five_jobs_one_faulty : environment :=
  quiet [bare_job "a"; bare_job "b"; faulty_job; bare_job "d"; bare_job "e"].

(** A job with a [set] among its default arguments, ahead of a sound one. *)
Definition unserializable_job : job :=
  Job (Some "bad") [("DefaultArguments", VDict [("--opt", VObject "set" true)])].

Definition unserializable_first : environment :=
  quiet [unserializable_job; bare_job "good"].

(** An output directory that still holds the file of a job of an earlier
    run. *)
Definition stale : world :=
  World (<[job_file "old" := "{}"]> ∅) [] [].

(** A job with the empty name ahead of a sound one. *)
Definition empty_name_first : environment :=
  quiet [bare_job ""; bare_job "a"].

(** Two jobs whose names lead to the same file. *)
Definition two_names_one_file : environment :=
  quiet [bare_job "b"; bare_job "../files/b"].

(** A bucket that refuses the upload of [terraform/main.tf]; a bucket
    that cannot be reached for the check of [prefix/main.tf]; a bucket
    whose checks are denied. *)
Definition upload_refused : environment :=
  Env (LastPage []) (LastPage [])
      (fun _ => inl (Exn EntityNotFoundException "Entity not found"))
      (fun _ _ => Some (Exn (ClientError "404") "Not Found"))
      (fun local _ _ =>
         if String.eqb local "terraform/main.tf"
         then Some (Exn (OtherException "S3UploadFailedError") "Access Denied")
         else None)
      (fun _ => None)
      top_down.

Definition bucket_unreachable : environment :=
  Env (LastPage []) (LastPage [])
      (fun _ => inl (Exn EntityNotFoundException "Entity not found"))
      (fun _ key =>
         if String.eqb key "prefix/main.tf"
         then Some (Exn (OtherException "EndpointConnectionError")
                      "Could not connect to the endpoint URL")
         else Some (Exn (ClientError "404") "Not Found"))
      (fun _ _ _ => None)
      (fun _ => None)
      top_down.

Definition checks_denied : environment :=
  Env (LastPage []) (LastPage [])
      (fun _ => inl (Exn EntityNotFoundException "Entity not found"))
      (fun _ _ => Some (Exn (ClientError "403") "Forbidden"))
      (fun _ _ _ => None)
      (fun _ => None)
      top_down.

(** A bucket that already holds every key. *)
Definition already_published : environment :=
  Env (LastPage []) (LastPage [])
      (fun _ => inl (Exn EntityNotFoundException "Entity not found"))
      (fun _ _ => None)
      (fun _ _ _ => None)
      (fun _ => None)
      top_down.

(** A world that has seen an earlier run print a line. *)
Definition used : world := World ∅ ["an earlier line"] [].

(** ** More vocabulary: the normalised record *)

(** The keys of a normalised record, in the order of the dict literal. *)
Definition details_keys : list string :=
  [ "name"; "role_arn"; "command"; "max_retries"; "connections";
    "default_arguments"; "description"; "glue_version"; "max_capacity";
    "timeout"; "worker_type"; "number_of_workers"; "security_configuration" ].

(** Input field and output field of the entries copied by [job.get]. *)
Definition copied_fields : list (string * string) :=
  [ ("Role", "role_arn"); ("Command", "command"); ("MaxRetries", "max_retries");
    ("DefaultArguments", "default_arguments"); ("Description", "description");
    ("GlueVersion", "glue_version"); ("MaxCapacity", "max_capacity");
    ("Timeout", "timeout"); ("WorkerType", "worker_type");
    ("NumberOfWorkers", "number_of_workers") ].

(** A job that names a security configuration the caller may not read. *)
Definition guarded_job : job :=
  Job (Some "etl") [("SecurityConfiguration", VStr "secret")].

Definition access_denied : exn :=
  Exn (ClientError "AccessDeniedException") "not authorized".

Definition lookups_denied : environment :=
  Env (LastPage [guarded_job; bare_job "next"]) (LastPage [])
      (fun _ => inl access_denied)
      (fun _ _ => Some (Exn (ClientError "404") "Not Found"))
      (fun _ _ _ => None)
      (fun _ => None)
      top_down.

(** A job with every copied field of another type than Glue gives it. *)
Definition odd_job : job :=
  Job (Some "odd")
      [ ("Timeout", VStr "soon"); ("Role", VInt 7);
        ("Connections", VDict [("Connections", VStr "not a list")]);
        ("SecurityConfiguration", VInt 0) ].

(** ** More vocabulary: listings, JSON text, keys *)

(** The requests a listing costs, the exception that ends it early, and
    the items of its pages in order. *)
Fixpoint page_count {A : Type} (pages : listing A) : nat :=
  match pages with
  | LastPage _ => 1
  | NextPage _ rest => S (page_count rest)
  | ListingFault _ => 1
  end.

Fixpoint listing_fault {A : Type} (pages : listing A) : option exn :=
  match pages with
  | LastPage _ => None
  | NextPage _ rest => listing_fault rest
  | ListingFault e => Some e
  end.

Fixpoint all_items {A : Type} (pages : listing A) : list A :=
  match pages with
  | LastPage items => items
  | NextPage items rest => items ++ all_items rest
  | ListingFault _ => []
  end.

(** No object foreign to JSON anywhere in the value; datetimes pass. *)
Fixpoint json_serializable (v : value) : bool :=
  match v with
  | VObject _ _ => false
  | VList l => forallb json_serializable l
  | VDict d => forallb (fun kv => json_serializable (snd kv)) d
  | _ => true
  end.

(** ** More vocabulary: what a run touches *)

(** [m] changes only files whose path satisfies [F], prints only lines
    that satisfy [L], and issues only calls that satisfy [C], whatever its
    outcome. *)
Definition footprint {A : Type} (F : string -> Prop) (L : string -> Prop)
    (C : api_call -> Prop) (m : M A) : Prop :=
  forall w r w1, m w = (r, w1) ->
    (forall p, ~ F p -> files w1 !! p = files w !! p) /\
    (exists lines, stdout w1 = stdout w ++ lines /\ Forall L lines) /\
    (exists cs, calls w1 = calls w ++ cs /\ Forall C cs).

Definition is_glue_call (c : api_call) : Prop :=
  match c with
  | GlueGetJobs | GlueGetTriggers | GlueGetSecurityConfiguration _ => True
  | _ => False
  end.

(** A path without ["/"]: the name of a file in its directory. *)
Definition plain (name : string) : Prop := contains_char "/" name = false.

(** The files the emitter may write for a listing of jobs: its four
    top-level files, and for each job with a name the file that
    [terraform/files/<name>.tfvars.json] names. *)
Definition emitter_file (jobs : list job) (p : string) : Prop :=
  In p top_files \/
  exists job n, In job jobs /\ Name job = Some n /\ p = resolve (job_file n).

Definition is_skip_line (line : string) : Prop :=
  exists n e, line = skip_message n e.

(** The HEAD check of [bucket]/[key] said not-found. *)
Definition check_says_404 (env : environment) (bucket key : string) : Prop :=
  exists e, s3_head_object env bucket key = Some e /\
            client_error_code (exn_cls e) = Some "404".

(** The calls of the publisher for [bucket]: checks, and uploads of keys
    whose check said not-found. *)
Definition is_publish_call (env : environment) (bucket : string) (c : api_call)
  : Prop :=
  match c with
  | S3HeadObject b _ => b = bucket
  | S3UploadFile _ b key => b = bucket /\ check_says_404 env bucket key
  | _ => False
  end.

(** One file passes the loop of the publisher: its check returns or
    raises a [ClientError], and its upload, if any, returns. *)
Definition goes_through (env : environment) (bucket prefix local : string) : bool :=
  let key := s3_key_of prefix local in
  match s3_head_object env bucket key with
  | None => true
  | Some e =>
      match client_error_code (exn_cls e) with
      | Some code =>
          if String.eqb code "404"
          then match s3_upload_file env local bucket key with
               | None => true
               | Some _ => false
               end
          else true
      | None => false
      end
  end.

(** The calls and the line of a file that goes through. *)
Definition publish_calls (env : environment) (bucket prefix local : string)
  : list api_call :=
  let key := s3_key_of prefix local in
  S3HeadObject bucket key ::
  match s3_head_object env bucket key with
  | None => []
  | Some e =>
      match client_error_code (exn_cls e) with
      | Some code =>
          if String.eqb code "404" then [S3UploadFile local bucket key] else []
      | None => []
      end
  end.

Definition publish_line (env : environment) (bucket prefix local : string)
  : string :=
  let key := s3_key_of prefix local in
  match s3_head_object env bucket key with
  | None => skipping_message key bucket
  | Some e =>
      match client_error_code (exn_cls e) with
      | Some code =>
          if String.eqb code "404" then uploaded_message key bucket
          else check_failed_message key e
      | None => ""
      end
  end.

(** A bucket that holds [prefix/main.tf] already and nothing else. *)
Definition half_published : environment :=
  Env (LastPage []) (LastPage [])
      (fun _ => inl (Exn EntityNotFoundException "Entity not found"))
      (fun _ key =>
         if String.eqb key "prefix/main.tf" then None
         else Some (Exn (ClientError "404") "Not Found"))
      (fun _ _ _ => None)
      (fun _ => None)
      top_down.

(** ** More vocabulary: the entries of a run *)

(** The name under which the loop emits a job, if it does: the job is
    normalised and its name is not empty. *)
Definition emitted_name (env : environment) (job : job) : option string :=
  match fst (process_job_details env job (World ∅ [] [])) with
  | Return (Some n, Some _) => if String.eqb n "" then None else Some n
  | _ => None
  end.

(** The keys of a dict after [d[n] = ...]. *)
Definition keys_add (names : list string) (n : string) : list string :=
  if existsb (String.eqb n) names then names else names ++ [n].

(** The names emitted for a listing, each once, in the order in which
    they first occur. *)
Definition names_in_order (env : environment) (jobs : list job) : list string :=
  fold_left (fun names job =>
               match emitted_name env job with
               | Some n => keys_add names n
               | None => names
               end) jobs [].

(** The files the loop writes for a listing, in the order it writes
    them. *)
Definition written (env : environment) (jobs : list job) : list string :=
  flat_map (fun job => match emitted_name env job with
                       | Some n => [resolve (job_file n)]
                       | None => []
                       end) jobs.

(** The same account with another listing of triggers. *)
Definition with_triggers (env : environment) (t : listing value) : environment :=
  Env (glue_get_jobs env) t (glue_get_security_configuration env)
      (s3_head_object env) (s3_upload_file env) (os_refuses env)
      (scandir_rank env).

(** Two jobs of the same name around another one. *)
Definition repeated_name : environment :=
  quiet [ Job (Some "a") [("Description", VStr "first")]; bare_job "b";
          Job (Some "a") [("Description", VStr "second")] ].

(** An account whose triggers cannot be listed. *)
Definition triggers_throttled : environment :=
  Env (LastPage [bare_job "a"])
      (NextPage [VStr "t1"] (ListingFault (Exn (ClientError "ThrottlingException")
                                             "Rate exceeded")))
      (fun _ => inl (Exn EntityNotFoundException "Entity not found"))
      (fun _ _ => Some (Exn (ClientError "404") "Not Found"))
      (fun _ _ _ => None)
      (fun _ => None)
      top_down.

(** The world [w] with the calls [cs] made before its own. *)
Definition rebase (cs : list api_call) (w : world) : world :=
  World (files w) (stdout w) (cs ++ calls w).

(** [m] never reads the calls made so far. *)
Definition calls_framed {A : Type} (m : M A) : Prop :=
  forall cs w, m (rebase cs w) = (fst (m w), rebase cs (snd (m w))).

(** ** More vocabulary: a run that completes *)

(** [m] returns, in any world, only when [b] holds. *)
Definition returns_only_when {A : Type} (m : M A) (b : bool) : Prop :=
  forall w a w1, m w = (Return a, w1) -> b = true.

(** The operating system lets the call through. *)
Definition allowed (env : environment) (c : os_call) : bool :=
  match os_refuses env c with
  | None => true
  | Some _ => false
  end.

(** The calls to the operating system ahead of the first request to Glue. *)
Definition skeleton_calls : list os_call :=
  [ Makedirs "terraform"; Makedirs "terraform/files"; OpenW main_tf;
    OpenW variables_tf; OpenW outputs_tf; OpenW terraform_tfvars ].

(** The files [os.walk('terraform')] finds in a world. *)
Definition walked (env : environment) (w : world) : list string :=
  sort_by (scandir_rank env)
    (filter (fun p => below "terraform" p = true)
       (map fst (map_to_list (files w)))).

(** * Properties *)

(** ** Running the monad *)

Lemma bind_run {A B : Type} (m : M A) (f : A -> M B) (w : world) :
  (m ≫= f) w =
  match m w with
  | (Return a, w') => f a w'
  | (Raise e, w') => (Raise e, w')
  end.
Proof. reflexivity. Qed.

Lemma bind_return {A B : Type} (m : M A) (f : A -> M B) w a w' :
  m w = (Return a, w') -> (m ≫= f) w = f a w'.
Proof. intros H. rewrite bind_run, H. reflexivity. Qed.

Lemma bind_raise {A B : Type} (m : M A) (f : A -> M B) w e w' :
  m w = (Raise e, w') -> (m ≫= f) w = (Raise e, w').
Proof. intros H. rewrite bind_run, H. reflexivity. Qed.

Lemma bind_inv {A B : Type} (m : M A) (f : A -> M B) w b w' :
  (m ≫= f) w = (Return b, w') ->
  exists a w1, m w = (Return a, w1) /\ f a w1 = (Return b, w').
Proof.
  rewrite bind_run. destruct (m w) as [[a|e] w1]; intros H.
  - exists a, w1. split; [reflexivity | exact H].
  - discriminate H.
Qed.

Ltac run :=
  unfold mbind, M_bind, mret, M_ret, raise, try_except, print, call_api,
    write in *;
  cbn beta iota delta [files stdout calls fst snd] in *.

(** ** Normalisation, step by step *)

Lemma get_security_configuration_run env sc w :
  get_security_configuration env sc w =
  let w1 := called (GlueGetSecurityConfiguration sc) w in
  match glue_get_security_configuration env sc with
  | inl e =>
      match exn_cls e with
      | EntityNotFoundException => (Return VNone, w1)
      | _ => (Raise e, w1)
      end
  | inr response =>
      match dict_get response "SecurityConfiguration" with
      | Some v => (Return v, w1)
      | None => (Raise (Exn KeyError "'SecurityConfiguration'"), w1)
      end
  end.
Proof.
  unfold get_security_configuration. run.
  destruct (glue_get_security_configuration env sc) as [e|response]; simpl.
  - destruct e as [[] m]; reflexivity.
  - destruct (dict_get response "SecurityConfiguration"); reflexivity.
Qed.

Lemma process_job_details_run env job w :
  process_job_details env job w =
  match Name job with
  | None => (Raise (Exn KeyError "'Name'"), w)
  | Some n =>
      match job_get job "Connections" (VDict []) with
      | VDict c =>
          let details :=
            job_details_literal job (default (VList []) (dict_get c "Connections")) in
          let sc := job_get job "SecurityConfiguration" VNone in
          if truthy sc
          then match get_security_configuration env sc w with
               | (Return v, w1) =>
                   (Return (Some n, Some (dict_set details "security_configuration" v)),
                    w1)
               | (Raise e, w1) =>
                   if is_exception e
                   then (Return (None, None), printed (skip_message n e) w1)
                   else (Raise e, w1)
               end
          else (Return (Some n, Some details), w)
      | v =>
          (Return (None, None),
           printed (skip_message n
                      (Exn AttributeError
                         ("'" +:+ type_name_of v +:+ "' object has no attribute 'get'")))
                   w)
      end
  end.
Proof.
  unfold process_job_details, job_getitem_Name.
  destruct (Name job) as [n|]; run; [|reflexivity].
  unfold value_get.
  destruct (job_get job "Connections" (VDict [])) as [| | | | | | |c|]; run;
    try reflexivity.
  destruct (truthy (job_get job "SecurityConfiguration" VNone)); [|reflexivity].
  destruct (get_security_configuration env _ w) as [[v|e] w1]; [reflexivity|].
  destruct (is_exception e); reflexivity.
Qed.

Lemma process_job_details_files env job w :
  files (snd (process_job_details env job w)) = files w.
Proof.
  rewrite process_job_details_run.
  destruct (Name job); [|reflexivity].
  destruct (job_get job "Connections" (VDict [])); try reflexivity.
  simpl. destruct (truthy _); [|reflexivity].
  rewrite get_security_configuration_run. simpl.
  destruct (glue_get_security_configuration env _) as [e|r].
  - destruct e as [[] m]; reflexivity.
  - destruct (dict_get r "SecurityConfiguration"); reflexivity.
Qed.

(** The pair returned does not depend on the world. *)
Lemma process_job_details_pure env job w1 w2 :
  fst (process_job_details env job w1) = fst (process_job_details env job w2).
Proof.
  rewrite !process_job_details_run.
  destruct (Name job); [|reflexivity].
  destruct (job_get job "Connections" (VDict [])); try reflexivity.
  simpl. destruct (truthy _); [|reflexivity].
  rewrite !get_security_configuration_run. simpl.
  destruct (glue_get_security_configuration env _) as [e|r].
  - destruct e as [[] m]; reflexivity.
  - destruct (dict_get r "SecurityConfiguration"); reflexivity.
Qed.

Lemma dict_get_set_eq {A : Type} (d : list (string * A)) k v :
  dict_get (dict_set d k v) k = Some v.
Proof.
  induction d as [|[k' v'] d IH]; simpl.
  - rewrite String.eqb_refl. reflexivity.
  - destruct (String.eqb k' k) eqn:E; simpl.
    + rewrite String.eqb_refl. reflexivity.
    + rewrite E. exact IH.
Qed.

Lemma dict_get_set_ne {A : Type} (d : list (string * A)) k k' v :
  k <> k' -> dict_get (dict_set d k v) k' = dict_get d k'.
Proof.
  intros Hne. induction d as [|[k0 v0] d IH]; simpl.
  - destruct (String.eqb k k') eqn:E; [|reflexivity].
    apply String.eqb_eq in E. contradiction.
  - destruct (String.eqb k0 k) eqn:E; simpl.
    + apply String.eqb_eq in E. subst k0.
      destruct (String.eqb k k') eqn:E'; [|reflexivity].
      apply String.eqb_eq in E'. contradiction.
    + rewrite IH. reflexivity.
Qed.

(** What a successful normalisation returns. *)
Lemma process_job_details_success env job w n d w' :
  process_job_details env job w = (Return (Some n, Some d), w') ->
  Name job = Some n /\
  exists c,
    job_get job "Connections" (VDict []) = VDict c /\
    let details :=
      job_details_literal job (default (VList []) (dict_get c "Connections")) in
    let sc := job_get job "SecurityConfiguration" VNone in
    (truthy sc = false /\ d = details /\ w' = w) \/
    (truthy sc = true /\
     exists v, get_security_configuration env sc w = (Return v, w') /\
               d = dict_set details "security_configuration" v).
Proof.
  rewrite process_job_details_run.
  destruct (Name job) as [n0|]; [|discriminate].
  destruct (job_get job "Connections" (VDict [])) as [| | | | | | |c|];
    try discriminate.
  simpl. destruct (truthy _) eqn:Ht.
  - destruct (get_security_configuration env _ w) as [[v|e] w1] eqn:Hg;
      [|destruct (is_exception e); discriminate].
    intros [= -> <- <-]. split; [reflexivity|]. exists c. split; [reflexivity|].
    right. split; [reflexivity|]. exists v. split; reflexivity.
  - intros [= -> <- <-]. split; [reflexivity|]. exists c. split; [reflexivity|].
    left. repeat split.
Qed.

(** ** C5: defaults of the absent optional fields *)

(** C5. Whenever [process_job_details] normalises a job record, each
    optional field absent from the record holds its documented default in
    the output: the empty string for role, description, worker type and
    security-configuration name, the empty mapping for command and default
    arguments, the empty sequence for connections, zero for retries,
    capacity and worker count, and 2880 for the timeout. *)
Theorem absent_fields_get_defaults env job w n d w' :
  process_job_details env job w = (Return (Some n, Some d), w') ->
  forall K k dflt,
    In (K, k, dflt) optional_defaults ->
    job_lookup job K = None ->
    dict_get d k = Some dflt.
Proof.
  intros H K k dflt HIn HK.
  apply process_job_details_success in H as (_ & c & Hc & Hd).
  assert (Hlit : dict_get
            (job_details_literal job (default (VList []) (dict_get c "Connections")))
            k = Some dflt).
  { unfold optional_defaults in HIn. simpl in HIn.
    repeat (destruct HIn as [[= <- <- <-]|HIn];
            [ unfold job_details_literal, job_get in *; rewrite ?HK in *; simpl;
              try reflexivity |]); try contradiction.
    injection Hc as <-. reflexivity. }
  cbv zeta in Hd. destruct Hd as [(_ & -> & _) | (Ht & v & _ & ->)]; [exact Hlit|].
  destruct (String.eqb_spec "security_configuration" k) as [<-|Hne].
  - (* the field can only be the security configuration, which is absent *)
    unfold optional_defaults in HIn. simpl in HIn.
    repeat (destruct HIn as [E|HIn]; [try discriminate E |]);
      try contradiction.
    injection E as <- <-. unfold job_get in Ht. rewrite HK in Ht. discriminate Ht.
  - rewrite dict_get_set_ne by exact Hne. exact Hlit.
Qed.

(** ** C4: a security configuration that does not resolve *)

Lemma app_one_neq {A : Type} (l : list A) (x : A) : l <> l ++ [x].
Proof.
  intros H. apply (f_equal length) in H. rewrite length_app in H. simpl in H. lia.
Qed.

(** C4. Whenever [process_job_details] issues the lookup of the job's
    security-configuration name [sc]: if the lookup reports not-found, the
    job is normalised and its [security_configuration] field is present and
    holds [None] (no missing key, no error); if the lookup resolves, the
    field holds the resolved [SecurityConfiguration] object in place of the
    name. *)
Theorem unresolved_security_configuration_is_null env job w r w' sc :
  process_job_details env job w = (r, w') ->
  calls w' = calls w ++ [GlueGetSecurityConfiguration sc] ->
  job_lookup job "SecurityConfiguration" = Some sc /\
  (forall e,
      glue_get_security_configuration env sc = inl e ->
      exn_cls e = EntityNotFoundException ->
      exists n d, r = Return (Some n, Some d) /\
                  dict_get d "security_configuration" = Some VNone) /\
  (forall response cfg,
      glue_get_security_configuration env sc = inr response ->
      dict_get response "SecurityConfiguration" = Some cfg ->
      exists n d, r = Return (Some n, Some d) /\
                  dict_get d "security_configuration" = Some cfg).
Proof.
  rewrite process_job_details_run.
  destruct (Name job) as [n|].
  2:{ intros [= <- <-] Hc. destruct (app_one_neq _ _ Hc). }
  destruct (job_get job "Connections" (VDict [])) as [| | | | | | |c|];
    try (intros [= <- <-] Hc; simpl in Hc; destruct (app_one_neq _ _ Hc)).
  cbv zeta. destruct (truthy _) eqn:Ht.
  2:{ intros [= <- <-] Hc. destruct (app_one_neq _ _ Hc). }
  rewrite get_security_configuration_run. cbv zeta.
  set (sc0 := job_get job "SecurityConfiguration" VNone) in *.
  assert (Hlook : sc0 = sc -> job_lookup job "SecurityConfiguration" = Some sc).
  { intros <-. unfold sc0, job_get in *.
    destruct (job_lookup job "SecurityConfiguration"); [reflexivity|].
    discriminate Ht. }
  destruct (glue_get_security_configuration env sc0) as [e|response] eqn:Hg.
  - destruct (exn_cls e) eqn:He;
      try match goal with
          | |- context [is_exception e] => destruct (is_exception e)
          end;
      intros [= <- <-] Hc;
      cbn [calls printed called] in Hc; apply app_inv_head in Hc;
      injection Hc as Heq; split; try (apply Hlook; exact Heq);
      rewrite <- Heq, Hg; (split; [|intros ? ? [=]]);
      intros e' [= <-] He'; try congruence.
    exists n, (dict_set (job_details_literal job
                           (default (VList []) (dict_get c "Connections")))
                 "security_configuration" VNone).
    split; [reflexivity | apply dict_get_set_eq].
  - destruct (dict_get response "SecurityConfiguration") as [v|] eqn:Hv;
      intros [= <- <-] Hc;
      cbn [calls printed called] in Hc; apply app_inv_head in Hc;
      injection Hc as Heq; split; try (apply Hlook; exact Heq);
      rewrite <- Heq, Hg; (split; [intros ? [=]|]);
      intros response' cfg [= <-] Hcfg; try congruence.
    exists n, (dict_set (job_details_literal job
                           (default (VList []) (dict_get c "Connections")))
                 "security_configuration" v).
    split; [reflexivity|]. rewrite dict_get_set_eq. congruence.
Qed.

(** ** The emission loop, one job at a time *)

Lemma process_job_details_shape env job w r w1 :
  process_job_details env job w = (Return r, w1) ->
  r = (None, None) \/
  exists n d, r = (Some n, Some d) /\ Name job = Some n /\ truthy (VDict d) = true.
Proof.
  rewrite process_job_details_run.
  destruct (Name job) as [n|]; [|discriminate].
  destruct (job_get job "Connections" (VDict [])) as [| | | | | | |c|];
    try (intros [= <- <-]; left; reflexivity).
  cbv zeta. destruct (truthy _).
  - destruct (get_security_configuration env _ w) as [[v|e] w2].
    + intros [= <- <-]. right. eexists _, _. repeat split.
    + destruct (is_exception e); intros [= <- <-]. left. reflexivity.
  - intros [= <- <-]. right. eexists _, _. repeat split.
Qed.

(** A job with a name makes [process_job_details] raise only what is no
    [Exception]. *)
Lemma process_job_details_named env job w n r w1 :
  Name job = Some n ->
  process_job_details env job w = (r, w1) ->
  forall e, r = Raise e -> is_exception e = false.
Proof.
  intros HN. rewrite process_job_details_run, HN.
  destruct (job_get job "Connections" (VDict [])); try (intros [= <- <-] e [=]).
  cbv zeta. destruct (truthy _); [|intros [= <- <-] e [=]].
  destruct (get_security_configuration env _ w) as [[v|e] w2];
    [intros [= <- <-] e [=]|].
  destruct (is_exception e) eqn:He; intros [= <- <-] e' [= <-]. exact He.
Qed.

Lemma for_jobs_cons env job rest glue_jobs w :
  for_jobs env (job :: rest) glue_jobs w =
  match process_job_details env job w with
  | (Raise e, w1) => (Raise e, w1)
  | (Return (Some n, Some d), w1) =>
      if negb (String.eqb n "")
      then match os_refuses env (OpenW (job_file n)) with
           | Some e => (Raise e, w1)
           | None =>
               let w2 := dumped (job_file n) (fst (iterencode (VDict d) 0)) w1 in
               match snd (iterencode (VDict d) 0) with
               | Some e => (Raise e, w2)
               | None => for_jobs env rest (dict_set glue_jobs n d) w2
               end
           end
      else for_jobs env rest glue_jobs w1
  | (Return _, w1) => for_jobs env rest glue_jobs w1
  end.
Proof.
  cbn [for_jobs]. rewrite bind_run.
  destruct (process_job_details env job w) as [[[on od]|e] w1] eqn:Hp;
    [|reflexivity].
  destruct (process_job_details_shape _ _ _ _ _ Hp) as [[= -> ->]|(n & d & [= -> ->] & _ & Hd)].
  { reflexivity. }
  cbn [str_or_none dict_or_none]. rewrite Hd, andb_true_r.
  change (truthy (VStr n)) with (negb (String.eqb n "")).
  destruct (negb (String.eqb n "")); [|reflexivity].
  unfold open_w, json_dump.
  destruct (os_refuses env (OpenW (job_file n))) as [e|]; [reflexivity|].
  destruct (iterencode (VDict d) 0) as [text failure].
  unfold dumped; run. rewrite lookup_insert_eq, insert_insert_eq. simpl.
  destruct failure; reflexivity.
Qed.

(** ** Paths of the emitted files *)

Lemma str_app_nil_l t : "" +:+ t = t.
Proof. reflexivity. Qed.

Lemma str_app_cons c s t : String c s +:+ t = String c (s +:+ t).
Proof. reflexivity. Qed.

Lemma str_length_app s t :
  String.length (s +:+ t) = String.length s + String.length t.
Proof.
  induction s as [|c s IH]; [reflexivity|].
  rewrite str_app_cons. simpl. rewrite IH. reflexivity.
Qed.

Lemma str_app_inj_r s1 s2 t : s1 +:+ t = s2 +:+ t -> s1 = s2.
Proof.
  revert s2. induction s1 as [|c s1 IH]; intros [|c' s2] H.
  - reflexivity.
  - apply (f_equal String.length) in H.
    rewrite !str_length_app in H. simpl in H. lia.
  - apply (f_equal String.length) in H.
    rewrite !str_length_app in H. simpl in H. lia.
  - rewrite !str_app_cons in H. injection H as -> H. f_equal. apply IH. exact H.
Qed.

Lemma str_app_assoc s t u : (s +:+ t) +:+ u = s +:+ t +:+ u.
Proof.
  induction s as [|c s IH]; [reflexivity|].
  rewrite !str_app_cons. f_equal. exact IH.
Qed.

Lemma str_app_nil_r s : s +:+ "" = s.
Proof.
  induction s as [|c s IH]; [reflexivity|].
  rewrite str_app_cons. f_equal. exact IH.
Qed.

Lemma contains_char_app c a b :
  contains_char c (a +:+ b) = contains_char c a || contains_char c b.
Proof.
  induction a as [|x a IH]; [reflexivity|].
  rewrite str_app_cons. cbn [contains_char]. rewrite IH, orb_assoc. reflexivity.
Qed.

Lemma job_file_inj n n' : job_file n = job_file n' -> n = n'.
Proof.
  unfold job_file. intros H. apply String.app_inj in H.
  apply str_app_inj_r in H. exact H.
Qed.

Lemma path_components_plain s : plain s -> path_components s = [s].
Proof.
  unfold plain. induction s as [|c s IH]; [reflexivity|].
  cbn [contains_char path_components]. intros H.
  apply orb_false_iff in H as [Hc Hs]. rewrite Hc, (IH Hs). reflexivity.
Qed.

Lemma path_components_dir d x :
  plain d -> path_components (d +:+ "/" +:+ x) = d :: path_components x.
Proof.
  unfold plain. induction d as [|c d IH]; [reflexivity|].
  rewrite str_app_cons. cbn [contains_char path_components]. intros H.
  apply orb_false_iff in H as [Hc Hd]. rewrite Hc, (IH Hd). reflexivity.
Qed.

(** The last component of a path that ends with a plain suffix ends with
    that suffix. *)
Lemma path_components_suffix s t :
  plain t -> exists init c, path_components (s +:+ t) = init ++ [c +:+ t].
Proof.
  intros Ht. induction s as [|a s (init & c & IH)].
  - exists [], "". rewrite str_app_nil_l. apply path_components_plain, Ht.
  - rewrite str_app_cons. cbn [path_components]. rewrite IH.
    destruct (Ascii.eqb a "/").
    + exists ("" :: init), c. reflexivity.
    + destruct init as [|x init].
      * exists [], (String a c). reflexivity.
      * exists (String a x :: init), c. reflexivity.
Qed.

Lemma str_endswith_app c s t :
  t <> "" -> str_endswith_char c (s +:+ t) = str_endswith_char c t.
Proof.
  intros Ht. induction s as [|a s IH]; [reflexivity|].
  rewrite str_app_cons. cbn [str_endswith_char].
  destruct (s +:+ t) as [|b u] eqn:E; [|exact IH].
  destruct s; [|discriminate E]. contradiction.
Qed.

(** A component that ends with ["n"] is neither empty, nor ["."], nor
    [".."]: it is entered. *)
Lemma enter_name resolved x :
  str_endswith_char "n" x = true -> enter resolved x = x :: resolved.
Proof.
  intros Hx. unfold enter.
  destruct (String.eqb_spec x "") as [->|_]; [discriminate Hx|].
  destruct (String.eqb_spec x ".") as [->|_]; [discriminate Hx|].
  destruct (String.eqb_spec x "..") as [->|_]; [discriminate Hx|].
  reflexivity.
Qed.

Lemma path_of_snoc l x :
  path_of (l ++ [x]) = match l with [] => x | _ => path_of l +:+ "/" +:+ x end.
Proof.
  induction l as [|c l IH]; [reflexivity|].
  destruct l as [|c' l]; [reflexivity|].
  change (path_of ((c :: c' :: l) ++ [x]))
    with (c +:+ "/" +:+ path_of ((c' :: l) ++ [x])).
  rewrite IH. change (path_of (c :: c' :: l)) with (c +:+ "/" +:+ path_of (c' :: l)).
  rewrite !str_app_assoc. reflexivity.
Qed.

(** Wherever the name of a job leads, the name of its file ends with
    [".tfvars.json"]. *)
Lemma resolve_job_file_ends n :
  str_endswith_char "n" (resolve (job_file n)) = true.
Proof.
  unfold job_file, resolve.
  rewrite <- (str_app_assoc "terraform/files/" n ".tfvars.json").
  destruct (path_components_suffix ("terraform/files/" +:+ n) ".tfvars.json")
    as (init & c & ->); [reflexivity|].
  assert (Hx : str_endswith_char "n" (c +:+ ".tfvars.json") = true).
  { rewrite str_endswith_app by discriminate. reflexivity. }
  rewrite fold_left_app. cbn [fold_left]. rewrite (enter_name _ _ Hx).
  cbn [rev]. set (l := rev (fold_left enter init [])).
  assert (Hp : str_endswith_char "n" (path_of (l ++ [c +:+ ".tfvars.json"])) = true).
  { rewrite path_of_snoc. destruct l; [exact Hx|].
    rewrite <- str_app_assoc, <- (str_app_assoc _ c), str_endswith_app by discriminate.
    reflexivity. }
  destruct (l ++ [c +:+ ".tfvars.json"]) eqn:E; [|exact Hp].
  destruct l; discriminate E.
Qed.

Lemma resolve_main_tf : resolve main_tf = main_tf.
Proof. vm_compute. reflexivity. Qed.

Lemma resolve_variables_tf : resolve variables_tf = variables_tf.
Proof. vm_compute. reflexivity. Qed.

Lemma resolve_outputs_tf : resolve outputs_tf = outputs_tf.
Proof. vm_compute. reflexivity. Qed.

Lemma resolve_terraform_tfvars : resolve terraform_tfvars = terraform_tfvars.
Proof. vm_compute. reflexivity. Qed.

Lemma resolve_top p : In p top_files -> resolve p = p.
Proof.
  unfold top_files. cbn [In].
  intros [<-|[<-|[<-|[<-|[]]]]];
    auto using resolve_main_tf, resolve_variables_tf, resolve_outputs_tf,
      resolve_terraform_tfvars.
Qed.

(** No name of a job leads to one of the four top-level files. *)
Lemma resolve_job_file_not_top n : ~ In (resolve (job_file n)) top_files.
Proof.
  pose proof (resolve_job_file_ends n) as H. unfold top_files. cbn [In].
  intros [E|[E|[E|[E|[]]]]]; rewrite <- E in H; discriminate H.
Qed.

(** The file of a job with a plain name lies in [terraform/files/] under
    that name. *)
Lemma resolve_job_file_plain n : plain n -> resolve (job_file n) = job_file n.
Proof.
  intros Hn. unfold resolve.
  assert (Hx : plain (n +:+ ".tfvars.json")).
  { unfold plain in *. rewrite contains_char_app, Hn. reflexivity. }
  change (job_file n)
    with ("terraform" +:+ "/" +:+ "files" +:+ "/" +:+ n +:+ ".tfvars.json").
  rewrite !path_components_dir by reflexivity.
  rewrite (path_components_plain _ Hx).
  change (fold_left enter ["terraform"; "files"; n +:+ ".tfvars.json"] [])
    with (enter ["files"; "terraform"] (n +:+ ".tfvars.json")).
  rewrite enter_name; [reflexivity|].
  rewrite str_endswith_app by discriminate. reflexivity.
Qed.

Lemma resolve_job_file_inj n n' :
  plain n -> plain n' -> resolve (job_file n) = resolve (job_file n') -> n = n'.
Proof.
  intros Hn Hn'. rewrite !resolve_job_file_plain by assumption. apply job_file_inj.
Qed.

(** ** Invariants of the emission loop *)

Lemma normalizes_at env job w n d w1 :
  process_job_details env job w = (Return (Some n, Some d), w1) ->
  normalizes env job n d.
Proof.
  intros H. unfold normalizes.
  rewrite (process_job_details_pure env job _ w), H. reflexivity.
Qed.

Lemma normalizes_run env job w n d :
  normalizes env job n d ->
  fst (process_job_details env job w) = Return (Some n, Some d).
Proof.
  intros H. rewrite (process_job_details_pure env job w (World ∅ [] [])).
  exact H.
Qed.

Lemma dict_keys_set {A : Type} (d : list (string * A)) k v k' :
  In k' (dict_keys (dict_set d k v)) <-> k' = k \/ In k' (dict_keys d).
Proof.
  unfold dict_keys. induction d as [|[k0 v0] d IH]; simpl.
  - intuition.
  - destruct (String.eqb_spec k0 k) as [->|Hne]; simpl; [intuition|].
    rewrite IH. intuition.
Qed.

(** Only the files of the jobs with a name are touched, whatever the
    outcome. *)
Lemma for_jobs_frame env jobs : forall glue_jobs w r w',
  for_jobs env jobs glue_jobs w = (r, w') ->
  forall p, (forall job n, In job jobs -> Name job = Some n -> n <> "" ->
                           p <> resolve (job_file n)) ->
  files w' !! p = files w !! p.
Proof.
  induction jobs as [|job rest IH]; intros g w r w' H p Hp.
  - injection H as _ <-. reflexivity.
  - rewrite for_jobs_cons in H.
    pose proof (process_job_details_files env job w) as Hf.
    assert (Hrest : forall j n, In j rest -> Name j = Some n -> n <> "" ->
                                p <> resolve (job_file n)).
    { intros j n Hj. apply Hp. right. exact Hj. }
    destruct (process_job_details env job w) as [[x|e] w1] eqn:Hpj;
      cbn [snd] in Hf; rewrite <- Hf.
    2:{ injection H as _ <-. reflexivity. }
    destruct (process_job_details_shape _ _ _ _ _ Hpj)
      as [->|(n & d & -> & HN & _)]; [apply (IH _ _ _ _ H p Hrest)|].
    destruct (String.eqb_spec n "") as [->|Hn]; cbn [negb] in H;
      [apply (IH _ _ _ _ H p Hrest)|].
    destruct (os_refuses env (OpenW (job_file n)));
      [injection H as _ <-; reflexivity|].
    assert (Hd : files (dumped (job_file n) (fst (iterencode (VDict d) 0)) w1) !! p
                 = files w1 !! p).
    { cbn [files dumped]. apply lookup_insert_ne. intros Heq.
      exact (Hp job n (or_introl eq_refl) HN Hn (eq_sym Heq)). }
    cbv zeta in H. destruct (snd (iterencode (VDict d) 0)).
    + injection H as _ <-. exact Hd.
    + rewrite (IH _ _ _ _ H p Hrest). exact Hd.
Qed.

(** The loop never touches the four top-level files. *)
Lemma for_jobs_keeps_top env jobs glue_jobs w r w' p :
  for_jobs env jobs glue_jobs w = (r, w') ->
  In p top_files -> files w' !! p = files w !! p.
Proof.
  intros H Hp. apply (for_jobs_frame _ _ _ _ _ _ H).
  intros job n _ _ _ ->. exact (resolve_job_file_not_top n Hp).
Qed.

(** A loop that completes: the keys of [glue_jobs] grow by exactly the
    names emitted, and the files on disk by exactly the files those names
    lead to. *)
Lemma for_jobs_return env jobs : forall glue_jobs w glue_jobs' w',
  for_jobs env jobs glue_jobs w = (Return glue_jobs', w') ->
  (forall n, In n (dict_keys glue_jobs') <->
             In n (dict_keys glue_jobs) \/ emitted env jobs n) /\
  (forall p, is_Some (files w' !! p) <->
             is_Some (files w !! p)
             \/ exists n, emitted env jobs n /\ p = resolve (job_file n)).
Proof.
  induction jobs as [|job rest IH]; intros g w g' w' H.
  - injection H as <- <-. split; intros n; (split; [auto|]).
    + intros [?|(_ & j & d & [] & _)]; auto.
    + intros [?|(? & (_ & j & d & [] & _) & _)]; auto.
  - rewrite for_jobs_cons in H.
    pose proof (process_job_details_files env job w) as Hf.
    assert (Hskip : (forall n d, normalizes env job n d -> n = "") ->
                    forall n, emitted env (job :: rest) n <-> emitted env rest n).
    { intros Hno n. unfold emitted. split.
      - intros (Hn & j & d & [<-|Hj] & Hnorm); [destruct (Hn (Hno _ _ Hnorm))|].
        split; [exact Hn|]. exists j, d. auto.
      - intros (Hn & j & d & Hj & Hnorm). split; [exact Hn|].
        exists j, d. split; [right; exact Hj | exact Hnorm]. }
    destruct (process_job_details env job w) as [[r|e] w1] eqn:Hp;
      [|discriminate H].
    simpl in Hf.
    assert (Hnone : r = (None, None) \/ (exists d, r = (Some "", Some d)) ->
                    for_jobs env rest g w1 = (Return g', w') ->
                    (forall n, In n (dict_keys g') <->
                               In n (dict_keys g) \/ emitted env (job :: rest) n) /\
                    (forall p, is_Some (files w' !! p) <->
                               is_Some (files w !! p)
                               \/ exists n, emitted env (job :: rest) n
                                            /\ p = resolve (job_file n))).
    { intros Hr H'. destruct (IH _ _ _ _ H') as [IH1 IH2].
      assert (Hno : forall n d, normalizes env job n d -> n = "").
      { intros n d Hnorm. apply (normalizes_run env job w) in Hnorm.
        rewrite Hp in Hnorm. simpl in Hnorm. injection Hnorm as ->.
        destruct Hr as [[=]|(d' & [= <- _])]. reflexivity. }
      split; [intros n; rewrite (Hskip Hno n); apply IH1|].
      intros p. rewrite IH2, Hf. split; (intros [Hq|(n & Hn & Hq)]; [left; exact Hq|]);
        right; exists n; (split; [apply (Hskip Hno n); exact Hn | exact Hq]). }
    destruct (process_job_details_shape _ _ _ _ _ Hp)
      as [->|(n0 & d0 & -> & _ & _)]; [apply Hnone; auto|].
    destruct (String.eqb_spec n0 "") as [->|Hn0]; cbn [negb] in H;
      [apply Hnone; eauto|].
    destruct (os_refuses env (OpenW (job_file n0))); [discriminate H|].
    cbv zeta in H. destruct (snd (iterencode (VDict d0) 0)); [discriminate H|].
    destruct (IH _ _ _ _ H) as [IH1 IH2].
    assert (Hem : forall n, emitted env (job :: rest) n <->
                            n = n0 \/ emitted env rest n).
    { intros n. unfold emitted. split.
      - intros (Hn & j & d & [<-|Hj] & Hnorm).
        + left. apply (normalizes_run env job w) in Hnorm.
          rewrite Hp in Hnorm. simpl in Hnorm. congruence.
        + right. split; [exact Hn|]. exists j, d. auto.
      - intros [->|(Hn & j & d & Hj & Hnorm)].
        + split; [exact Hn0|]. exists job, d0.
          split; [left; reflexivity | exact (normalizes_at _ _ _ _ _ _ Hp)].
        + split; [exact Hn|]. exists j, d. split; [right; exact Hj | exact Hnorm]. }
    split.
    + intros n. rewrite Hem, IH1, dict_keys_set. tauto.
    + intros p. rewrite IH2. cbn [files dumped].
      rewrite lookup_insert_is_Some', Hf. split.
      * intros [[Hq|Hq]|(n & Hn & Hq)].
        -- right. exists n0. split; [apply Hem; left; reflexivity | auto].
        -- left. exact Hq.
        -- right. exists n. split; [apply Hem; right; exact Hn | exact Hq].
      * intros [Hq|(n & Hn & Hq)]; [left; right; exact Hq|].
        apply Hem in Hn as [->|Hn]; [left; left; auto|].
        right. exists n. auto.
Qed.

(** ** The emitter in three phases *)

Lemma write_write path s t w :
  (write path s;; write path t) w = write path (s +:+ t) w.
Proof.
  run. rewrite lookup_insert_eq, insert_insert_eq. cbn [default from_option id].
  rewrite str_app_assoc. reflexivity.
Qed.

Lemma for_entries_run job_names w :
  for_entries job_names w =
  match job_names with
  | [] => (Return tt, w)
  | _ => write terraform_tfvars (entries_text job_names) w
  end.
Proof.
  revert w. induction job_names as [|n rest IH]; intros w; [reflexivity|].
  cbn [for_entries entries_text]. rewrite bind_run. cbn [write].
  rewrite IH. destruct rest as [|n' rest].
  - cbn [entries_text]. rewrite str_app_nil_r. reflexivity.
  - run. rewrite lookup_insert_eq, insert_insert_eq. cbn [default from_option id].
    rewrite !str_app_assoc. reflexivity.
Qed.

Lemma create_terraform_files_phases env w :
  create_terraform_files env w = (write_skeleton env;; emit_jobs env) w.
Proof.
  unfold create_terraform_files, write_skeleton, emit_jobs, write_glue_jobs.
  unfold mbind, M_bind.
  repeat match goal with
         | |- context [match ?m ?x with (_, _) => _ end] =>
             is_var x; destruct (m x) as [[[]|?] ?]; [|reflexivity]
         end.
  reflexivity.
Qed.

Lemma write_glue_jobs_run job_names w :
  write_glue_jobs job_names w =
  write terraform_tfvars (glue_jobs_text job_names) w.
Proof.
  unfold write_glue_jobs, glue_jobs_text, tags_text.
  rewrite bind_run. cbn [write]. rewrite bind_run, for_entries_run.
  destruct job_names as [|n rest].
  - run. rewrite !lookup_insert_eq, !insert_insert_eq. cbn [default from_option id].
    rewrite !str_app_assoc. reflexivity.
  - run. rewrite !lookup_insert_eq, !insert_insert_eq. cbn [default from_option id].
    rewrite !str_app_assoc. reflexivity.
Qed.

(** What the tail of the emitter leaves in [terraform.tfvars]. *)
Lemma write_glue_jobs_files job_names w w' :
  write_glue_jobs job_names w = (Return tt, w') ->
  files w' !! terraform_tfvars
  = Some (default "" (files w !! terraform_tfvars) +:+ glue_jobs_text job_names) /\
  forall p, p <> terraform_tfvars -> files w' !! p = files w !! p.
Proof.
  rewrite write_glue_jobs_run. unfold write. rewrite resolve_terraform_tfvars.
  intros [= <-]. cbn [files]. split.
  - apply lookup_insert_eq.
  - intros p Hp. apply lookup_insert_ne. congruence.
Qed.

Lemma only_writes_bind {A B : Type} paths (m : M A) (f : A -> M B) :
  only_writes paths m -> (forall a, only_writes paths (f a)) ->
  only_writes paths (m ≫= f).
Proof.
  intros Hm Hf w r w1. rewrite bind_run.
  destruct (m w) as [[a|e] w'] eqn:E; destruct (Hm _ _ _ E) as (Hp & Hs & Hc).
  - intros H. destruct (Hf a _ _ _ H) as (Hp' & Hs' & Hc').
    repeat split; try congruence. intros p Hn. rewrite Hp', Hp; auto.
  - intros [= <- <-]. repeat split; assumption.
Qed.

Lemma only_writes_write paths path text :
  In path paths -> resolve path = path -> only_writes paths (write path text).
Proof.
  intros Hin Hres w r w1 [= <- <-]. repeat split. intros p Hn.
  cbn [files]. rewrite Hres. apply lookup_insert_ne. intros <-. exact (Hn Hin).
Qed.

Lemma only_writes_open_w env paths path :
  In path paths -> resolve path = path -> only_writes paths (open_w env path).
Proof.
  intros Hin Hres w r w1. unfold open_w.
  destruct (os_refuses env (OpenW path)); intros [= <- <-]; repeat split.
  intros p Hn. cbn [files]. rewrite Hres. apply lookup_insert_ne.
  intros <-. exact (Hn Hin).
Qed.

Lemma only_writes_makedirs env paths path : only_writes paths (makedirs env path).
Proof.
  intros w r w1. unfold makedirs.
  destruct (os_refuses env (Makedirs path)); intros [= <- <-]; repeat split.
Qed.

Lemma write_skeleton_frame env : only_writes top_files (write_skeleton env).
Proof.
  assert (Hin : forall p, In p top_files -> In p top_files /\ resolve p = p).
  { intros p Hp. split; [exact Hp | exact (resolve_top p Hp)]. }
  unfold write_skeleton.
  repeat (apply only_writes_bind; [|intros _]);
    first [ apply only_writes_makedirs
          | apply only_writes_open_w; apply Hin; unfold top_files; cbn [In]; tauto
          | apply only_writes_write; apply Hin; unfold top_files; cbn [In]; tauto ].
Qed.

Lemma writes_bind {A B : Type} (m : M A) (k : A -> M B) f g :
  writes m f -> (forall a, writes (k a) g) -> writes (m ≫= k) (fun v => g (f v)).
Proof.
  intros Hm Hk v w b w1 Hv H.
  apply bind_inv in H as (a & w' & Hm' & Hk').
  exact (Hk a _ _ _ _ (Hm _ _ _ _ Hv Hm') Hk').
Qed.

Lemma writes_write path text :
  writes (write path text) (view_write (resolve path) text).
Proof.
  intros v w a w1 Hv [= _ <-] p. cbn [files]. unfold view_write, view_set.
  destruct (String.eqb_spec (resolve path) p) as [<-|Hne].
  - rewrite lookup_insert_eq, (Hv (resolve path)). reflexivity.
  - rewrite lookup_insert_ne by exact Hne. apply Hv.
Qed.

Lemma writes_open_w env path :
  writes (open_w env path) (view_set (resolve path) "").
Proof.
  intros v w a w1 Hv. unfold open_w.
  destruct (os_refuses env (OpenW path)); intros [= _ <-] p.
  cbn [files]. unfold view_set.
  destruct (String.eqb_spec (resolve path) p) as [<-|Hne].
  - apply lookup_insert_eq.
  - rewrite lookup_insert_ne by exact Hne. apply Hv.
Qed.

Lemma writes_makedirs env path : writes (makedirs env path) (fun v => v).
Proof.
  intros v w a w1 Hv. unfold makedirs.
  destruct (os_refuses env (Makedirs path)); intros [= _ <-]. exact Hv.
Qed.

Lemma write_skeleton_return env w w1 :
  write_skeleton env w = (Return tt, w1) ->
  files w1 !! main_tf = Some main_tf_text /\
  files w1 !! variables_tf = Some variables_tf_text /\
  files w1 !! outputs_tf = Some "" /\
  files w1 !! terraform_tfvars = Some region_line.
Proof.
  assert (Hw : exists f, writes (write_skeleton env) f /\
                 forall v, f v main_tf = Some main_tf_text /\
                           f v variables_tf = Some variables_tf_text /\
                           f v outputs_tf = Some "" /\
                           f v terraform_tfvars = Some region_line).
  { eexists. split.
    - unfold write_skeleton.
      repeat (eapply writes_bind; [|intros _]);
        first [ apply writes_makedirs | apply writes_open_w | apply writes_write ].
    - intros v.
      rewrite resolve_main_tf, resolve_variables_tf, resolve_outputs_tf,
        resolve_terraform_tfvars.
      repeat split. }
  destruct Hw as (f & Hf & Hv). intros H.
  pose proof (Hf (fun p => files w !! p) w tt w1 (fun p => eq_refl) H) as Ht.
  rewrite !Ht. apply Hv.
Qed.

Lemma paginate_frame {A : Type} call (pages : listing A) : forall w r w1,
  paginate call pages w = (r, w1) ->
  files w1 = files w /\ stdout w1 = stdout w /\
  (forall items, r = Return items -> listed pages = Some items).
Proof.
  induction pages as [items|items rest IH|e]; intros w r w1 H.
  - injection H as <- <-. repeat split. intros ? [= <-]. reflexivity.
  - cbn [paginate] in H. rewrite bind_run in H. cbn [call_api] in H.
    rewrite bind_run in H.
    destruct (paginate call rest _) as [[more|e] w2] eqn:Hrest;
      destruct (IH _ _ _ Hrest) as (Hf & Hs & Hl); injection H as <- <-;
      repeat split; try assumption.
    + intros ? [= <-]. cbn [listed]. rewrite (Hl more eq_refl). reflexivity.
    + intros ? [=].
  - injection H as <- <-. repeat split. intros ? [=].
Qed.

(** A run of the emitter that completes. *)
Lemma create_terraform_files_return env w w' :
  create_terraform_files env w = (Return tt, w') ->
  files w' !! main_tf = Some main_tf_text /\
  files w' !! variables_tf = Some variables_tf_text /\
  files w' !! outputs_tf = Some "" /\
  exists jobs job_names,
    listed (glue_get_jobs env) = Some jobs /\
    files w' !! terraform_tfvars = Some (tfvars_text job_names) /\
    (forall n, In n job_names <-> emitted env jobs n) /\
    (forall p, ~ In p top_files ->
       (is_Some (files w' !! p) <->
        is_Some (files w !! p)
        \/ exists n, In n job_names /\ p = resolve (job_file n))).
Proof.
  intros H. rewrite create_terraform_files_phases in H.
  apply bind_inv in H as ([] & w1 & Hsk & H).
  destruct (write_skeleton_return _ _ _ Hsk) as (Hmain & Hvar & Hout & Htf).
  destruct (write_skeleton_frame _ _ _ _ Hsk) as (Hfr & _ & _).
  unfold emit_jobs in H.
  apply bind_inv in H as (jobs & w2 & Hjobs & H).
  apply bind_inv in H as (triggers & w3 & Htr & H).
  apply bind_inv in H as (glue_jobs & w4 & Hloop & H).
  destruct (paginate_frame _ _ _ _ _ Hjobs) as (Hf2 & _ & Hl).
  destruct (paginate_frame _ _ _ _ _ Htr) as (Hf3 & _ & _).
  destruct (for_jobs_return _ _ _ _ _ _ Hloop) as [Hkeys Hfiles].
  destruct (write_glue_jobs_files _ _ _ H) as (Htail & Hother).
  assert (Hkeep : forall p, In p top_files -> files w4 !! p = files w1 !! p).
  { intros p Hp. rewrite (for_jobs_keeps_top _ _ _ _ _ _ _ Hloop Hp), Hf3, Hf2.
    reflexivity. }
  unfold top_files in Hkeep. cbn [In] in Hkeep.
  rewrite !Hother by discriminate. rewrite !Hkeep by tauto.
  split; [exact Hmain|]. split; [exact Hvar|]. split; [exact Hout|].
  exists jobs, (dict_keys glue_jobs).
  split; [apply Hl; reflexivity|]. split; [|split].
  - rewrite Htail, Hkeep, Htf by tauto. reflexivity.
  - intros n. rewrite Hkeys. simpl. tauto.
  - intros p Hp. rewrite Hother.
    2:{ intros ->. apply Hp. unfold top_files. cbn [In]. tauto. }
    rewrite Hfiles, Hf3, Hf2, (Hfr p Hp).
    split; (intros [Hq|(n & Hn & Hq)]; [left; exact Hq|]); right; exists n;
      (split; [|exact Hq]).
    + apply (Hkeys n). right. exact Hn.
    + apply (Hkeys n) in Hn as [[]|Hn]. exact Hn.
Qed.

(** ** C6: the names in [terraform.tfvars] and the files under [terraform/files/] *)

Lemma listed_all_items {A : Type} (pages : listing A) items :
  listed pages = Some items -> all_items pages = items.
Proof.
  revert items. induction pages as [l|l rest IH|e]; intros items; cbn [listed all_items].
  - intros [= <-]. reflexivity.
  - destruct (listed rest) as [more|]; [|discriminate].
    intros [= <-]. rewrite (IH more eq_refl). reflexivity.
  - discriminate.
Qed.

Lemma normalizes_name env job n d : normalizes env job n d -> Name job = Some n.
Proof.
  unfold normalizes. intros H.
  destruct (process_job_details env job (World ∅ [] [])) as [r w1] eqn:Hp.
  cbn [fst] in H. subst r.
  exact (proj1 (process_job_details_success _ _ _ _ _ _ Hp)).
Qed.

Lemma prefix_app s t : String.prefix s (s +:+ t) = true.
Proof.
  induction s as [|c s IH]; [destruct t; reflexivity|].
  rewrite str_app_cons.
  change (String.prefix (String c s) (String c (s +:+ t)))
    with (if ascii_dec c c then String.prefix s (s +:+ t) else false).
  destruct (ascii_dec c c); [exact IH | contradiction].
Qed.

(** C6, amended. For every run of the emitter that completes, started
    with no file under [terraform/files/], for a listing in which no name
    of a job holds a ["/"]: [terraform.tfvars] holds the [glue_jobs]
    block of a list of names; the files under [terraform/files/] are
    exactly the files [n.tfvars.json] of the names [n] of that block, one
    for each name; and the names of the block are exactly the names of
    the listed jobs that are normalised under a name that is not empty.
    (A name with a ["/"] may lead to the file of another name, or out of
    [terraform/files/].) *)
Theorem emitted_names_agree env w w' :
  (forall p, under_files p -> files w !! p = None) ->
  (forall job n, In job (all_items (glue_get_jobs env)) -> Name job = Some n ->
                 plain n) ->
  create_terraform_files env w = (Return tt, w') ->
  exists jobs job_names,
    listed (glue_get_jobs env) = Some jobs /\
    files w' !! terraform_tfvars = Some (tfvars_text job_names) /\
    (forall p, under_files p ->
       (is_Some (files w' !! p) <-> exists n, In n job_names /\ p = job_file n)) /\
    (forall n, plain n -> (In n job_names <-> is_Some (files w' !! job_file n))) /\
    (forall n, In n job_names <-> emitted env jobs n).
Proof.
  intros Hfresh Hnames H.
  destruct (create_terraform_files_return env w w' H)
    as (_ & _ & _ & jobs & names & Hl & Htf & Hem & Hfiles).
  exists jobs, names. split; [exact Hl|]. split; [exact Htf|].
  assert (Hplain : forall n, In n names -> plain n).
  { intros n Hn. apply Hem in Hn as (_ & job & d & Hj & Hnorm).
    apply (Hnames job n); [|exact (normalizes_name _ _ _ _ Hnorm)].
    rewrite (listed_all_items _ _ Hl). exact Hj. }
  assert (Hpaths : forall p, under_files p ->
                     (is_Some (files w' !! p) <->
                      exists n, In n names /\ p = job_file n)).
  { intros p Hp. rewrite Hfiles, (Hfresh p Hp).
    2:{ unfold top_files. cbn [In].
        intros [<-|[<-|[<-|[<-|[]]]]]; vm_compute in Hp; discriminate Hp. }
    split.
    - intros [Hq|(n & Hn & ->)]; [destruct (is_Some_None Hq)|].
      exists n. split; [exact Hn|]. exact (resolve_job_file_plain n (Hplain n Hn)).
    - intros (n & Hn & ->). right. exists n. split; [exact Hn|].
      symmetry. exact (resolve_job_file_plain n (Hplain n Hn)). }
  split; [exact Hpaths|]. split; [|exact Hem].
  intros n Hn. rewrite Hpaths by apply (prefix_app "terraform/files/"). split.
  - intros Hin. exists n. auto.
  - intros (n' & Hn' & Heq). apply job_file_inj in Heq. subst n'. exact Hn'.
Qed.

(** ** C9: a job whose name is the empty string *)

(** C9. A job record whose [Name] is the empty string is excluded from
    the output even when it is normalised: whatever
    [process_job_details] returns for it, the iteration of the loop
    changes no file and hands [glue_jobs] on as it was, so the job gets
    no JSON file and no tfvars entry (the iteration ends the loop only
    when the lookup of the security configuration raises what is no
    [Exception]); and over a whole loop the empty name is never among the
    keys added. *)
Theorem empty_name_is_excluded env job rest glue_jobs w :
  Name job = Some "" ->
  (exists r w1,
      process_job_details env job w = (r, w1) /\
      files w1 = files w /\
      (forall e, r = Raise e -> is_exception e = false) /\
      for_jobs env (job :: rest) glue_jobs w
      = match r with
        | Return _ => for_jobs env rest glue_jobs w1
        | Raise e => (Raise e, w1)
        end) /\
  (forall w' glue_jobs',
      for_jobs env (job :: rest) glue_jobs w = (Return glue_jobs', w') ->
      In "" (dict_keys glue_jobs') -> In "" (dict_keys glue_jobs)).
Proof.
  intros HN. split.
  - destruct (process_job_details env job w) as [r w1] eqn:Hp.
    exists r, w1. split; [reflexivity|]. split; [|split].
    + pose proof (process_job_details_files env job w) as Hf.
      rewrite Hp in Hf. exact Hf.
    + exact (process_job_details_named _ _ _ _ _ _ HN Hp).
    + rewrite for_jobs_cons, Hp. destruct r as [x|e]; [|reflexivity].
      destruct (process_job_details_shape _ _ _ _ _ Hp)
        as [->|(n & d & -> & HN' & _)]; [reflexivity|].
      rewrite HN in HN'. injection HN' as <-. reflexivity.
  - intros w' g' H Hin.
    destruct (for_jobs_return _ _ _ _ _ _ H) as [Hkeys _].
    apply Hkeys in Hin as [Hin|(Hne & _)]; [exact Hin | congruence].
Qed.

(** ** C8: emission is a function of the account *)

Section Respects.

Context (P : string -> Prop).

Lemma respects_ret {A : Type} (a : A) : respects P (mret a).
Proof. intros w1 w2 H. split; [reflexivity | exact H]. Qed.

Lemma respects_raise {A : Type} (e : exn) : respects P (@raise A e).
Proof. intros w1 w2 H. split; [reflexivity | exact H]. Qed.

Lemma respects_bind {A B : Type} (m : M A) (f : A -> M B) :
  respects P m -> (forall a, respects P (f a)) -> respects P (m ≫= f).
Proof.
  intros Hm Hf w1 w2 H. rewrite !bind_run.
  destruct (Hm w1 w2 H) as [Hr Hw].
  destruct (m w1) as [[a1|e1] w1'], (m w2) as [[a2|e2] w2'];
    simpl in Hr, Hw; try discriminate Hr; injection Hr as <-.
  - apply Hf. exact Hw.
  - split; [reflexivity | exact Hw].
Qed.

Lemma respects_try {A : Type} (m : M A) (h : exn -> M A) :
  respects P m -> (forall e, respects P (h e)) -> respects P (try_except m h).
Proof.
  intros Hm Hh w1 w2 H. unfold try_except.
  destruct (Hm w1 w2 H) as [Hr Hw].
  destruct (m w1) as [[a1|e1] w1'], (m w2) as [[a2|e2] w2'];
    simpl in Hr, Hw; try discriminate Hr; injection Hr as <-.
  - split; [reflexivity | exact Hw].
  - destruct (is_exception e1); [apply Hh; exact Hw|].
    split; [reflexivity | exact Hw].
Qed.

Lemma respects_print line : respects P (print line).
Proof. intros w1 w2 H. split; [reflexivity | exact H]. Qed.

Lemma respects_call_api c : respects P (call_api c).
Proof. intros w1 w2 H. split; [reflexivity | exact H]. Qed.

Lemma respects_write path text : respects P (write path text).
Proof.
  intros w1 w2 H. split; [reflexivity|]. intros p Hp. cbn [write snd files].
  destruct (decide (resolve path = p)) as [<-|Hne].
  - rewrite !lookup_insert_eq, (H _ Hp). reflexivity.
  - rewrite !lookup_insert_ne by exact Hne. apply H. exact Hp.
Qed.

Lemma respects_open_w env path : respects P (open_w env path).
Proof.
  unfold open_w. destruct (os_refuses env (OpenW path)); [apply respects_raise|].
  intros w1 w2 H. split; [reflexivity|]. intros p Hp. cbn [snd files].
  destruct (decide (resolve path = p)) as [<-|Hne].
  - rewrite !lookup_insert_eq. reflexivity.
  - rewrite !lookup_insert_ne by exact Hne. apply H. exact Hp.
Qed.

Lemma respects_makedirs env path : respects P (makedirs env path).
Proof.
  unfold makedirs.
  destruct (os_refuses env (Makedirs path)); [apply respects_raise | apply respects_ret].
Qed.

Lemma respects_paginate {A : Type} call (pages : listing A) :
  respects P (paginate call pages).
Proof.
  induction pages as [items|items rest IH|e]; cbn [paginate];
    repeat (apply respects_bind; [|intros ?]);
    auto using respects_call_api, respects_ret, respects_raise.
Qed.

Lemma respects_get_security_configuration env sc :
  respects P (get_security_configuration env sc).
Proof.
  unfold get_security_configuration. apply respects_try.
  - apply respects_bind; [apply respects_call_api | intros _].
    destruct (glue_get_security_configuration env sc) as [e|r];
      [apply respects_raise|].
    destruct (dict_get r "SecurityConfiguration");
      [apply respects_ret | apply respects_raise].
  - intros e. destruct (exn_cls e); auto using respects_ret, respects_raise.
Qed.

Lemma respects_job_getitem_Name job : respects P (job_getitem_Name job).
Proof.
  unfold job_getitem_Name.
  destruct (Name job); [apply respects_ret | apply respects_raise].
Qed.

Lemma respects_process_job_details env job :
  respects P (process_job_details env job).
Proof.
  unfold process_job_details. apply respects_try.
  - apply respects_bind; [apply respects_job_getitem_Name | intros n].
    apply respects_bind.
    + unfold value_get. destruct (job_get job "Connections" (VDict []));
        auto using respects_ret, respects_raise.
    + intros c. apply respects_bind; [|intros ?; apply respects_ret].
      destruct (truthy _); [|apply respects_ret].
      apply respects_bind;
        [apply respects_get_security_configuration | intros ?; apply respects_ret].
  - intros e. apply respects_bind; [apply respects_job_getitem_Name | intros n].
    apply respects_bind; [apply respects_print | intros ?; apply respects_ret].
Qed.

Lemma respects_json_dump obj path : respects P (json_dump obj path).
Proof.
  unfold json_dump. destruct (iterencode obj 0) as [text [e|]];
    (apply respects_bind; [apply respects_write | intros _]);
    [apply respects_raise | apply respects_ret].
Qed.

Lemma respects_for_jobs env jobs : forall glue_jobs,
  respects P (for_jobs env jobs glue_jobs).
Proof.
  induction jobs as [|job rest IH]; intros g; cbn [for_jobs];
    [apply respects_ret|].
  apply respects_bind; [apply respects_process_job_details | intros [on od]].
  apply respects_bind; [|intros g'; apply IH].
  destruct (truthy (str_or_none on) && truthy (dict_or_none od));
    [|apply respects_ret].
  destruct on as [n|], od as [d|]; try apply respects_ret.
  apply respects_bind; [apply respects_open_w | intros _].
  apply respects_bind; [apply respects_json_dump | intros _; apply respects_ret].
Qed.

Lemma respects_for_entries job_names : respects P (for_entries job_names).
Proof.
  induction job_names as [|n rest IH]; cbn [for_entries]; [apply respects_ret|].
  apply respects_bind; [apply respects_write | intros _; exact IH].
Qed.

Lemma respects_create_terraform_files env :
  respects P (create_terraform_files env).
Proof.
  unfold create_terraform_files, get_glue_jobs, get_triggers.
  repeat (apply respects_bind; [|intros ?]);
    auto using respects_makedirs, respects_open_w, respects_write,
      respects_paginate, respects_for_jobs, respects_for_entries.
Qed.

End Respects.

(** C8. Two emissions for the same account, each into a fresh directory,
    end the same way and leave byte-for-byte the same file at every path
    under [terraform/]; and when the emission completes, [main.tf] (with
    its module source pin) and [variables.tf] are fixed texts,
    [outputs.tf] is empty, and [terraform.tfvars] is the fixed region
    line, the [glue_jobs] block of the emitted names in their order, and
    the fixed placeholder tags. *)
Theorem emission_is_deterministic env w1 w2 :
  fresh_directory w1 ->
  fresh_directory w2 ->
  fst (create_terraform_files env w1) = fst (create_terraform_files env w2) /\
  (forall p, under_terraform p ->
     files (snd (create_terraform_files env w1)) !! p
     = files (snd (create_terraform_files env w2)) !! p) /\
  (fst (create_terraform_files env w1) = Return tt ->
   exists job_names,
     forall w, w = snd (create_terraform_files env w1)
               \/ w = snd (create_terraform_files env w2) ->
       files w !! main_tf = Some main_tf_text /\
       files w !! variables_tf = Some variables_tf_text /\
       files w !! outputs_tf = Some "" /\
       files w !! terraform_tfvars = Some (tfvars_text job_names)).
Proof.
  intros H1 H2.
  assert (Hag : agree under_terraform w1 w2).
  { intros p Hp. rewrite (H1 p Hp), (H2 p Hp). reflexivity. }
  destruct (respects_create_terraform_files under_terraform env w1 w2 Hag)
    as [Hr Hw].
  split; [exact Hr|]. split; [exact Hw|].
  intros Hret.
  destruct (create_terraform_files env w1) as [r1 w1'] eqn:E1.
  destruct (create_terraform_files env w2) as [r2 w2'] eqn:E2.
  cbn [fst snd] in Hr, Hw, Hret |- *. rewrite Hret in Hr. symmetry in Hr.
  rewrite Hret in E1. rewrite Hr in E2. clear Hr Hret r1 r2.
  destruct (create_terraform_files_return env w1 w1' E1)
    as (Hm & Hv & Ho & _ & names & _ & Ht & _).
  exists names. intros w [->| ->].
  - repeat split; assumption.
  - rewrite <- !Hw by reflexivity. repeat split; assumption.
Qed.

(** ** C10 and C3: the bucket URI *)

Lemma prefix_nil s : String.prefix "" s = true.
Proof. destruct s; reflexivity. Qed.

Lemma prefix_cons a s1 b s2 :
  String.prefix (String a s1) (String b s2)
  = if Ascii.eqb a b then String.prefix s1 s2 else false.
Proof.
  change (String.prefix (String a s1) (String b s2))
    with (if ascii_dec a b then String.prefix s1 s2 else false).
  destruct (ascii_dec a b) as [->|Hne].
  - rewrite Ascii.eqb_refl. reflexivity.
  - destruct (Ascii.eqb_spec a b); [contradiction | reflexivity].
Qed.

Lemma replace_scan_skip old new k s :
  replace_scan old new k s = replace_scan old new 0 (str_drop k s).
Proof.
  revert s. induction k as [|k IH]; intros s; [reflexivity|].
  destruct s as [|c s]; [reflexivity|]. cbn [replace_scan str_drop]. apply IH.
Qed.

Lemma without_scheme_match rest :
  without_scheme ("s3://" +:+ rest) = without_scheme rest.
Proof.
  unfold without_scheme, str_replace.
  rewrite !str_app_cons, str_app_nil_l. cbn [replace_scan].
  rewrite !prefix_cons, prefix_nil. cbn [Ascii.eqb Bool.eqb String.length Nat.sub].
  rewrite str_app_nil_l, replace_scan_skip. reflexivity.
Qed.

Lemma without_scheme_keep c s :
  String.prefix "s3://" (String c s) = false ->
  without_scheme (String c s) = String c (without_scheme s).
Proof.
  unfold without_scheme, str_replace. intros H. cbn [replace_scan].
  rewrite H. reflexivity.
Qed.

Lemma str_partition_slash s :
  match str_partition "/" s with
  | Some (a, b) => s = a +:+ "/" +:+ b /\ contains_char "/" a = false
  | None => contains_char "/" s = false
  end.
Proof.
  induction s as [|c s IH]; [reflexivity|].
  cbn [str_partition contains_char]. rewrite prefix_cons, prefix_nil.
  rewrite Ascii.eqb_sym.
  destruct (Ascii.eqb_spec c "/") as [->|Hne].
  - split; reflexivity.
  - destruct (str_partition "/" s) as [[a b]|].
    + destruct IH as [-> Ha]. split; [reflexivity|].
      cbn [contains_char]. destruct (Ascii.eqb_spec c "/"); [contradiction|].
      exact Ha.
    + exact IH.
Qed.

Lemma parse_bucket_uri_run bucket_uri w :
  parse_bucket_uri bucket_uri w =
  match str_partition "/" (without_scheme bucket_uri) with
  | Some (bucket_name, prefix) => (Return (bucket_name, prefix), w)
  | None => (Raise unpack_error, w)
  end.
Proof.
  unfold parse_bucket_uri, str_split1, without_scheme.
  destruct (str_partition "/" _) as [[a b]|]; reflexivity.
Qed.

(** C10. Parsing the bucket URI removes ["s3://"] wherever the scan from
    the left meets it, not only at the start (a match is dropped and the
    scan resumes after it; any other character is kept), then splits at
    the first ["/"]: every argument with a ["/"] left after the removal is
    accepted, the text before that first ["/"] is the bucket name and the
    rest is the key prefix, and [upload_to_s3] publishes under them. *)
Theorem bucket_uri_parsing env bucket_uri :
  (forall rest, without_scheme ("s3://" +:+ rest) = without_scheme rest) /\
  (forall c s, String.prefix "s3://" (String c s) = false ->
               without_scheme (String c s) = String c (without_scheme s)) /\
  (contains_char "/" (without_scheme bucket_uri) = true ->
   exists bucket_name prefix,
     without_scheme bucket_uri = bucket_name +:+ "/" +:+ prefix /\
     contains_char "/" bucket_name = false /\
     (forall w, parse_bucket_uri bucket_uri w = (Return (bucket_name, prefix), w)) /\
     (forall w, upload_to_s3 env bucket_uri w
                = (local_paths ← os_walk env "terraform";
                   for_files env bucket_name prefix local_paths) w)).
Proof.
  split; [exact without_scheme_match|]. split; [exact without_scheme_keep|].
  intros Hsl.
  pose proof (str_partition_slash (without_scheme bucket_uri)) as Hp.
  destruct (str_partition "/" (without_scheme bucket_uri)) as [[a b]|] eqn:E.
  - destruct Hp as [Heq Ha]. exists a, b. repeat split; try assumption.
    + intros w. rewrite parse_bucket_uri_run, E. reflexivity.
    + intros w. unfold upload_to_s3. rewrite bind_run, parse_bucket_uri_run, E.
      reflexivity.
  - rewrite Hp in Hsl. discriminate Hsl.
Qed.

(** C3, amended. A bucket URI with no ["/"] left once every ["s3://"] is
    removed makes [upload_to_s3] raise a [ValueError] before it walks the
    tree or calls S3, leaving the world as it found it; but [main] runs
    [create_terraform_files] first, so by then the calls to Glue have
    been made and the local files written: [main] fails in the world the
    emitter left, or with the emitter's own exception. *)
Theorem malformed_uri_fails_after_emission env bucket_uri w :
  contains_char "/" (without_scheme bucket_uri) = false ->
  upload_to_s3 env bucket_uri w = (Raise unpack_error, w) /\
  (forall w1, create_terraform_files env w = (Return tt, w1) ->
              main env bucket_uri w = (Raise unpack_error, w1)) /\
  (forall e w1, create_terraform_files env w = (Raise e, w1) ->
                main env bucket_uri w = (Raise e, w1)).
Proof.
  intros Hno.
  assert (Hup : forall w0, upload_to_s3 env bucket_uri w0 = (Raise unpack_error, w0)).
  { intros w0. unfold upload_to_s3. rewrite bind_run, parse_bucket_uri_run.
    pose proof (str_partition_slash (without_scheme bucket_uri)) as Hp.
    destruct (str_partition "/" (without_scheme bucket_uri)) as [[a b]|];
      [|reflexivity].
    destruct Hp as [Heq _]. rewrite Heq, contains_char_app in Hno.
    rewrite str_app_cons in Hno. cbn in Hno. rewrite orb_true_r in Hno.
    discriminate Hno. }
  split; [apply Hup|]. split.
  - intros w1 Hc. unfold main. rewrite bind_run, Hc, bind_run, Hup. reflexivity.
  - intros e w1 Hc. unfold main. rewrite bind_run, Hc. reflexivity.
Qed.

(** ** C2: a value [json.dump] cannot encode *)

Lemma value_nested_ind (P : value -> Prop) :
  P VNone -> (forall b, P (VBool b)) -> (forall z, P (VInt z)) ->
  (forall r, P (VFloat r)) -> (forall s, P (VStr s)) ->
  (forall iso, P (VDatetime iso)) ->
  (forall l, Forall P l -> P (VList l)) ->
  (forall d, Forall (fun kv => P (snd kv)) d -> P (VDict d)) ->
  (forall n t, P (VObject n t)) ->
  forall v, P v.
Proof.
  intros HN HB HI HF HS HD HL HDi HO.
  fix IH 1.
  intros [|b|z|r|s|iso|l|d|n t];
    [exact HN | apply HB | apply HI | apply HF | apply HS | apply HD | | | apply HO].
  - apply HL. induction l as [|x l IHl]; constructor; [apply IH | exact IHl].
  - apply HDi. induction d as [|[k x] d IHd]; constructor; [apply IH | exact IHd].
Qed.

(** The only exception the encoder lets out is the one of
    [datetime_converter]. *)
Lemma iterencode_failure o : forall level e,
  snd (iterencode o level) = Some e -> e = type_error.
Proof.
  induction o as [| | | | | |l IHl|d IHd|] using value_nested_ind;
    intros level e; try (destruct b); try discriminate.
  - destruct l as [|x l]; [discriminate|]. cbn [iterencode].
    match goal with |- context [?f false l] => set (items := f) end.
    assert (Hitems : forall first l',
               Forall (fun v => forall level e,
                           snd (iterencode v level) = Some e -> e = type_error) l' ->
               forall e, snd (items first l') = Some e -> e = type_error).
    { intros first l' Hl'. revert first.
      induction Hl' as [|y l' Hy _ IH]; intros first e'; [discriminate|].
      unfold items. cbn [fst snd]. fold items.
      destruct (iterencode y (S level)) as [s [ey|]] eqn:Ey.
      - intros [= <-]. apply (Hy (S level)). rewrite Ey. reflexivity.
      - destruct (items false l') as [s' e''] eqn:E'. cbn [snd].
        intros ->. apply (IH false). rewrite E'. reflexivity. }
    inversion IHl as [|? ? Hx Hl]; subst.
    destruct (iterencode x (S level)) as [s [ex|]] eqn:Ex.
    + intros [= <-]. apply (Hx (S level)). rewrite Ex. reflexivity.
    + destruct (items false l) as [s' [e'|]] eqn:E'; [|discriminate].
      intros [= <-]. apply (Hitems false l Hl). rewrite E'. reflexivity.
  - destruct d as [|[k x] d]; [discriminate|]. cbn [iterencode].
    match goal with |- context [?f false d] => set (items := f) end.
    assert (Hitems : forall first d',
               Forall (fun kv => forall level e,
                           snd (iterencode (snd kv) level) = Some e ->
                           e = type_error) d' ->
               forall e, snd (items first d') = Some e -> e = type_error).
    { intros first d' Hd'. revert first.
      induction Hd' as [|[k' y] d' Hy _ IH]; intros first e'; [discriminate|].
      unfold items. cbn [fst snd]. fold items.
      destruct (iterencode y (S level)) as [s [ey|]] eqn:Ey.
      - intros [= <-]. apply (Hy (S level)). cbn [snd]. rewrite Ey. reflexivity.
      - destruct (items false d') as [s' e''] eqn:E'. cbn [snd].
        intros ->. apply (IH false). rewrite E'. reflexivity. }
    inversion IHd as [|? ? Hx Hd]; subst. cbn [snd] in Hx.
    destruct (iterencode x (S level)) as [s [ex|]] eqn:Ex.
    + intros [= <-]. apply (Hx (S level)). rewrite Ex. reflexivity.
    + destruct (items false d) as [s' [e'|]] eqn:E'; [|discriminate].
      intros [= <-]. apply (Hitems false d Hd). rewrite E'. reflexivity.
  - intros [= <-]. reflexivity.
Qed.

Lemma for_jobs_app env before : forall rest glue_jobs w,
  for_jobs env (before ++ rest) glue_jobs w =
  match for_jobs env before glue_jobs w with
  | (Return glue_jobs', w') => for_jobs env rest glue_jobs' w'
  | (Raise e, w') => (Raise e, w')
  end.
Proof.
  induction before as [|job before IH]; intros rest g w; [reflexivity|].
  rewrite <- app_comm_cons, !for_jobs_cons.
  destruct (process_job_details env job w) as [[[[n|] [d|]]|e] w1];
    try apply IH; try reflexivity.
  destruct (negb (String.eqb n "")); [|apply IH].
  destruct (os_refuses env (OpenW (job_file n))); [reflexivity|].
  cbv zeta. destruct (snd (iterencode (VDict d) 0)); [reflexivity | apply IH].
Qed.

(** C2, amended. When the details of a normalised job hold a value that
    [json.dump] cannot encode, the [TypeError] of [datetime_converter] is
    not caught: the dump runs in the loop of [create_terraform_files],
    outside the [try] of [process_job_details].  The loop stops with that
    exception, whatever jobs remain, leaving the job's file with what was
    encoded before the failure. *)
Theorem serialization_error_aborts
    env before job rest glue_jobs0 glue_jobs w0 w n d w1 e :
  for_jobs env before glue_jobs0 w0 = (Return glue_jobs, w) ->
  process_job_details env job w = (Return (Some n, Some d), w1) ->
  n <> "" ->
  os_refuses env (OpenW (job_file n)) = None ->
  snd (iterencode (VDict d) 0) = Some e ->
  e = type_error /\
  for_jobs env (before ++ job :: rest) glue_jobs0 w0
  = (Raise type_error, dumped (job_file n) (fst (iterencode (VDict d) 0)) w1).
Proof.
  intros Hbefore Hp Hn Hopen Hfail.
  pose proof (iterencode_failure _ _ _ Hfail) as ->.
  split; [reflexivity|].
  rewrite for_jobs_app, Hbefore, for_jobs_cons, Hp.
  destruct (String.eqb_spec n "") as [->|_]; [contradiction|].
  cbn [negb]. rewrite Hopen. cbv zeta. rewrite Hfail. reflexivity.
Qed.

(** ** C7: publishing, one file at a time *)

(** C7, amended. For the file at the head of the loop: when the HEAD
    check finds the key, nothing is uploaded, the skip is printed and the
    loop goes on; when the check raises a [ClientError] with code 404, the
    file is uploaded, which is printed, and the loop goes on; when it
    raises a [ClientError] with another code, the failure is printed for
    that file and the loop goes on.  A check failure that is not a
    [ClientError], and a failure of the upload itself, are not caught:
    the loop stops there and the remaining files are not processed. *)
Theorem publish_one_file env bucket_name prefix local_path rest w :
  let s3_key := s3_key_of prefix local_path in
  let checked := called (S3HeadObject bucket_name s3_key) w in
  let sent := called (S3UploadFile local_path bucket_name s3_key) checked in
  (s3_head_object env bucket_name s3_key = None ->
   for_files env bucket_name prefix (local_path :: rest) w
   = for_files env bucket_name prefix rest
       (printed (skipping_message s3_key bucket_name) checked)) /\
  (forall e,
      s3_head_object env bucket_name s3_key = Some e ->
      client_error_code (exn_cls e) = Some "404" ->
      (s3_upload_file env local_path bucket_name s3_key = None ->
       for_files env bucket_name prefix (local_path :: rest) w
       = for_files env bucket_name prefix rest
           (printed (uploaded_message s3_key bucket_name) sent)) /\
      (forall e',
          s3_upload_file env local_path bucket_name s3_key = Some e' ->
          for_files env bucket_name prefix (local_path :: rest) w
          = (Raise e', sent))) /\
  (forall e code,
      s3_head_object env bucket_name s3_key = Some e ->
      client_error_code (exn_cls e) = Some code ->
      code <> "404" ->
      for_files env bucket_name prefix (local_path :: rest) w
      = for_files env bucket_name prefix rest
          (printed (check_failed_message s3_key e) checked)) /\
  (forall e,
      s3_head_object env bucket_name s3_key = Some e ->
      client_error_code (exn_cls e) = None ->
      for_files env bucket_name prefix (local_path :: rest) w
      = (Raise e, checked)).
Proof.
  cbv zeta. unfold s3_key_of. cbn [for_files].
  split; [|split; [|split]].
  - intros Hh. rewrite Hh. reflexivity.
  - intros e Hh Hc. split.
    + intros Hu. rewrite Hh, Hc, Hu. reflexivity.
    + intros e' Hu. rewrite Hh, Hc, Hu. reflexivity.
  - intros e code Hh Hc Hne. rewrite Hh, Hc.
    destruct (String.eqb_spec code "404"); [contradiction | reflexivity].
  - intros e Hh Hc. rewrite Hh, Hc. reflexivity.
Qed.

(** ** C1: a job that fails to normalise *)

(** With a name, a job makes [process_job_details] raise no
    [Exception]: a failure of the extraction is printed under the job's
    name and the job is skipped. *)
Lemma named_job_failure_is_skipped env job w n r w1 :
  Name job = Some n ->
  process_job_details env job w = (r, w1) ->
  (exists d, r = Return (Some n, Some d)) \/
  (exists e, r = Return (None, None) /\
             stdout w1 = stdout w ++ [skip_message n e]) \/
  (exists e, r = Raise e /\ is_exception e = false).
Proof.
  intros HN. rewrite process_job_details_run, HN.
  destruct (job_get job "Connections" (VDict [])) as [| | | | | | |c|];
    try (intros [= <- <-]; right; left; eexists; split; reflexivity).
  cbv zeta. destruct (truthy _).
  - destruct (get_security_configuration env _ w) as [[v|e] w2] eqn:Hg;
      [intros [= <- <-]; left; eexists; reflexivity|].
    destruct (is_exception e) eqn:He; intros [= <- <-];
      [|right; right; exists e; auto].
    right. left. exists e. split; [reflexivity|].
    rewrite get_security_configuration_run in Hg. cbv zeta in Hg.
    assert (Hs : stdout w2 = stdout w).
    { destruct (glue_get_security_configuration env _) as [e0|resp].
      - destruct (exn_cls e0); injection Hg as _ <-; reflexivity.
      - destruct (dict_get resp "SecurityConfiguration");
          injection Hg as _ <-; reflexivity. }
    cbn [stdout printed]. rewrite Hs. reflexivity.
  - intros [= <- <-]. left. eexists. reflexivity.
Qed.

(** Without a name, the handler itself raises. *)
Lemma nameless_job_raises env job w :
  Name job = None ->
  process_job_details env job w = (Raise (Exn KeyError "'Name'"), w).
Proof. intros HN. rewrite process_job_details_run, HN. reflexivity. Qed.

(** One named job that fails among five: four JSON files, the skip is
    printed under the job's name, and the run reaches its last line. *)
Example one_faulty_job_among_five :
  let run := main five_jobs_one_faulty "s3://bucket/prefix" fresh in
  fst run = Return tt /\
  head (stdout (snd run))
  = Some (skip_message "c"
            (Exn AttributeError "'list' object has no attribute 'get'")) /\
  last (stdout (snd run)) = Some success_message /\
  files (snd run) !! terraform_tfvars = Some (tfvars_text ["a"; "b"; "d"; "e"]) /\
  files (snd run) !! job_file "c" = None /\
  length (filter (fun p => String.prefix "terraform/files/" p = true)
            (map fst (map_to_list (files (snd run))))) = 4.
Proof. vm_compute. repeat split. Qed.

(** C1. At the failing input, a listing of five jobs whose third record
    has no ['Name'] entry: the [KeyError] of the extraction is caught by
    [process_job_details], but the handler evaluates [job['Name']] again
    to print the skip and raises the same [KeyError]; nothing is printed,
    the run stops with that exception after the files of the first two
    jobs, the last two jobs are never processed and the success message
    is never reached. *)
Theorem nameless_job_aborts_the_run :
  let run := main five_jobs_one_nameless "s3://bucket/prefix" fresh in
  process_job_details five_jobs_one_nameless nameless_job fresh
  = (Raise (Exn KeyError "'Name'"), fresh) /\
  fst run = Raise (Exn KeyError "'Name'") /\
  stdout (snd run) = [] /\
  is_Some (files (snd run) !! job_file "a") /\
  is_Some (files (snd run) !! job_file "b") /\
  files (snd run) !! job_file "d" = None /\
  files (snd run) !! job_file "e" = None.
Proof.
  vm_compute. repeat split; try (eexists; reflexivity).
Qed.

(** ** Counterexamples to the claims as stated *)

(** C2, as stated, fails: a job with a [set] among its default arguments
    is listed ahead of a sound job; the run stops with the [TypeError],
    no skip is printed, and the sound job is never emitted. *)
Lemma serialization_error_is_not_skipped :
  let run := main unserializable_first "s3://bucket/prefix" fresh in
  fst run = Raise type_error /\
  stdout (snd run) = [] /\
  files (snd run) !! job_file "good" = None.
Proof. vm_compute. repeat split. Qed.

(** C3, as stated, fails twice: a URI without the leading ["s3://"] is
    accepted and the run completes; a URI without ["/"] fails only once
    Glue has been called and the local files have been written. *)
Lemma malformed_uri_is_not_rejected_first :
  let env := quiet [bare_job "etl"] in
  (let run := main env "bucket/prefix" fresh in
   fst run = Return tt /\ last (stdout (snd run)) = Some success_message) /\
  (let run := main env "s3://bucket" fresh in
   fst run = Raise unpack_error /\
   calls (snd run) = [GlueGetJobs; GlueGetTriggers] /\
   files (snd run) !! main_tf = Some main_tf_text /\
   is_Some (files (snd run) !! job_file "etl")).
Proof. vm_compute. repeat split. eexists. reflexivity. Qed.

(** C6, as stated, fails three times: in a directory that still holds
    the file of an earlier job, that file has no entry in
    [terraform.tfvars]; a job with the empty name is normalised but gets
    neither an entry nor a file; and two names that lead to the same file
    get two entries and one file between them. *)
Lemma stale_file_and_empty_name_break_the_equalities :
  (let run := create_terraform_files (quiet [bare_job "a"]) stale in
   fst run = Return tt /\
   files (snd run) !! terraform_tfvars = Some (tfvars_text ["a"]) /\
   is_Some (files (snd run) !! job_file "old") /\
   ~ In "old" ["a"]) /\
  (let run := create_terraform_files empty_name_first fresh in
   fst run = Return tt /\
   normalizes empty_name_first (bare_job "") ""
     (job_details_literal (bare_job "") (VList [])) /\
   files (snd run) !! terraform_tfvars = Some (tfvars_text ["a"]) /\
   files (snd run) !! job_file "" = None) /\
  (let run := create_terraform_files two_names_one_file fresh in
   fst run = Return tt /\
   files (snd run) !! terraform_tfvars = Some (tfvars_text ["b"; "../files/b"]) /\
   resolve (job_file "../files/b") = job_file "b" /\
   filter (fun p => String.prefix "terraform/files/" p = true)
     (map fst (map_to_list (files (snd run)))) = [job_file "b"]).
Proof.
  split; [|split].
  - vm_compute. repeat split; [eexists; reflexivity|].
    intros [H|[]]. discriminate H.
  - vm_compute. repeat split.
  - vm_compute. repeat split.
Qed.

(** C7, as stated, fails: when the upload of the first file fails, or
    when its check fails with an exception that is not a [ClientError],
    the loop stops and the second file is neither checked nor uploaded. *)
Lemma one_file_failure_aborts_the_rest :
  let local_paths := [main_tf; variables_tf] in
  (let run := for_files upload_refused "bucket" "prefix" local_paths fresh in
   fst run = Raise (Exn (OtherException "S3UploadFailedError") "Access Denied") /\
   calls (snd run) = [S3HeadObject "bucket" "prefix/main.tf";
                      S3UploadFile main_tf "bucket" "prefix/main.tf"]) /\
  (let run := for_files bucket_unreachable "bucket" "prefix" local_paths fresh in
   fst run = Raise (Exn (OtherException "EndpointConnectionError")
                      "Could not connect to the endpoint URL") /\
   calls (snd run) = [S3HeadObject "bucket" "prefix/main.tf"]).
Proof. vm_compute. repeat split. Qed.

(** ** The theorems at concrete inputs *)

Lemma absent_fields_get_defaults_witness :
  process_job_details (quiet []) (bare_job "etl") fresh
  = (Return (Some "etl", Some (job_details_literal (bare_job "etl") (VList []))),
     fresh) /\
  In ("Timeout", "timeout", VInt 2880) optional_defaults /\
  job_lookup (bare_job "etl") "Timeout" = None /\
  dict_get (job_details_literal (bare_job "etl") (VList [])) "timeout"
  = Some (VInt 2880).
Proof.
  assert (HIn : In ("Timeout", "timeout", VInt 2880) optional_defaults).
  { do 10 right. left. reflexivity. }
  split; [reflexivity|]. split; [exact HIn|]. split; [reflexivity|].
  exact (absent_fields_get_defaults (quiet []) (bare_job "etl") fresh "etl" _ fresh
           eq_refl "Timeout" "timeout" (VInt 2880) HIn eq_refl).
Defined.

Lemma unresolved_security_configuration_is_null_witness :
  let run := process_job_details (quiet []) dangling_job fresh in
  calls (snd run) = calls fresh ++ [GlueGetSecurityConfiguration (VStr "gone")] /\
  exists n d, fst run = Return (Some n, Some d) /\
              dict_get d "security_configuration" = Some VNone.
Proof.
  split; [reflexivity|].
  destruct (unresolved_security_configuration_is_null
              (quiet []) dangling_job fresh _ _ (VStr "gone") eq_refl eq_refl)
    as (_ & Hnull & _).
  exact (Hnull (Exn EntityNotFoundException "Entity not found") eq_refl eq_refl).
Defined.

Lemma emitted_names_agree_witness :
  let env := quiet [bare_job "a"; bare_job ""; faulty_job] in
  let w' := snd (create_terraform_files env fresh) in
  (forall p, under_files p -> files fresh !! p = None) /\
  (forall job n, In job (all_items (glue_get_jobs env)) -> Name job = Some n ->
                 plain n) /\
  create_terraform_files env fresh = (Return tt, w') /\
  exists jobs job_names,
    listed (glue_get_jobs env) = Some jobs /\
    files w' !! terraform_tfvars = Some (tfvars_text job_names) /\
    (forall p, under_files p ->
       (is_Some (files w' !! p) <-> exists n, In n job_names /\ p = job_file n)) /\
    (forall n, plain n -> (In n job_names <-> is_Some (files w' !! job_file n))) /\
    (forall n, In n job_names <-> emitted env jobs n).
Proof.
  cbv zeta.
  assert (Hfresh : forall p, under_files p -> files fresh !! p = None).
  { intros p _. reflexivity. }
  assert (Hnames : forall job n,
             In job (all_items (glue_get_jobs
                                  (quiet [bare_job "a"; bare_job ""; faulty_job]))) ->
             Name job = Some n -> plain n).
  { intros job n [<-|[<-|[<-|[]]]] [= <-]; reflexivity. }
  assert (Hrun : create_terraform_files (quiet [bare_job "a"; bare_job ""; faulty_job])
                   fresh
                 = (Return tt,
                    snd (create_terraform_files
                           (quiet [bare_job "a"; bare_job ""; faulty_job]) fresh))).
  { vm_compute. reflexivity. }
  split; [exact Hfresh|]. split; [exact Hnames|]. split; [exact Hrun|].
  exact (emitted_names_agree _ fresh _ Hfresh Hnames Hrun).
Defined.

Lemma empty_name_is_excluded_witness :
  let env := quiet [] in
  Name (bare_job "") = Some "" /\
  (exists r w1,
      process_job_details env (bare_job "") fresh = (r, w1) /\
      files w1 = files fresh /\
      (forall e, r = Raise e -> is_exception e = false) /\
      for_jobs env [bare_job ""; bare_job "a"] [] fresh
      = match r with
        | Return _ => for_jobs env [bare_job "a"] [] w1
        | Raise e => (Raise e, w1)
        end).
Proof.
  split; [reflexivity|].
  exact (proj1 (empty_name_is_excluded (quiet []) (bare_job "") [bare_job "a"] []
                  fresh eq_refl)).
Defined.

Lemma emission_is_deterministic_witness :
  let env := quiet [bare_job "a"; bare_job "b"] in
  fresh_directory fresh /\ fresh_directory used /\
  fst (create_terraform_files env fresh) = fst (create_terraform_files env used) /\
  forall p, under_terraform p ->
    files (snd (create_terraform_files env fresh)) !! p
    = files (snd (create_terraform_files env used)) !! p.
Proof.
  cbv zeta.
  assert (H1 : fresh_directory fresh). { intros p _. reflexivity. }
  assert (H2 : fresh_directory used). { intros p _. reflexivity. }
  split; [exact H1|]. split; [exact H2|].
  destruct (emission_is_deterministic (quiet [bare_job "a"; bare_job "b"])
              fresh used H1 H2) as (Hr & Hf & _).
  split; [exact Hr | exact Hf].
Defined.

Lemma bucket_uri_parsing_witness :
  contains_char "/" (without_scheme "s3://my-s3://bucket/glue/prod") = true /\
  exists bucket_name prefix,
    without_scheme "s3://my-s3://bucket/glue/prod" = bucket_name +:+ "/" +:+ prefix /\
    contains_char "/" bucket_name = false /\
    parse_bucket_uri "s3://my-s3://bucket/glue/prod" fresh
    = (Return (bucket_name, prefix), fresh).
Proof.
  split; [reflexivity|].
  destruct (bucket_uri_parsing (quiet []) "s3://my-s3://bucket/glue/prod")
    as (_ & _ & Hparse).
  destruct (Hparse eq_refl) as (b & p & Heq & Hb & Hp & _).
  exists b, p. split; [exact Heq|]. split; [exact Hb | exact (Hp fresh)].
Defined.

Lemma malformed_uri_fails_after_emission_witness :
  contains_char "/" (without_scheme "s3://bucket") = false /\
  upload_to_s3 (quiet []) "s3://bucket" fresh = (Raise unpack_error, fresh).
Proof.
  split; [reflexivity|].
  exact (proj1 (malformed_uri_fails_after_emission (quiet []) "s3://bucket" fresh
                  eq_refl)).
Defined.

Lemma serialization_error_aborts_witness :
  let env := unserializable_first in
  let d := job_details_literal unserializable_job (VList []) in
  for_jobs env [] [] fresh = (Return [], fresh) /\
  process_job_details env unserializable_job fresh
  = (Return (Some "bad", Some d), fresh) /\
  "bad" <> "" /\
  os_refuses env (OpenW (job_file "bad")) = None /\
  snd (iterencode (VDict d) 0) = Some type_error /\
  for_jobs env ([] ++ unserializable_job :: [bare_job "good"]) [] fresh
  = (Raise type_error, dumped (job_file "bad") (fst (iterencode (VDict d) 0)) fresh).
Proof.
  cbv zeta.
  assert (Hne : "bad" <> "") by discriminate.
  assert (Hfail : snd (iterencode
                         (VDict (job_details_literal unserializable_job (VList []))) 0)
                  = Some type_error).
  { vm_compute. reflexivity. }
  split; [reflexivity|]. split; [reflexivity|]. split; [exact Hne|].
  split; [reflexivity|]. split; [exact Hfail|].
  exact (proj2 (serialization_error_aborts unserializable_first []
                  unserializable_job [bare_job "good"] [] [] fresh fresh "bad" _
                  fresh type_error eq_refl eq_refl Hne eq_refl Hfail)).
Defined.

Lemma publish_one_file_witness :
  s3_head_object already_published "bucket" (s3_key_of "prefix" main_tf) = None /\
  for_files already_published "bucket" "prefix" [main_tf; variables_tf] fresh
  = for_files already_published "bucket" "prefix" [variables_tf]
      (printed (skipping_message (s3_key_of "prefix" main_tf) "bucket")
         (called (S3HeadObject "bucket" (s3_key_of "prefix" main_tf)) fresh)).
Proof.
  split; [reflexivity|].
  exact (proj1 (publish_one_file already_published "bucket" "prefix" main_tf
                  [variables_tf] fresh) eq_refl).
Defined.

(** * Further properties of the code *)

(** ** The normalised record *)

(** X1. Every normalised record has the same thirteen keys in the same order,
    whichever branch the security configuration took, and its ["name"] is
    the job name returned with it. *)
Theorem normalized_record_schema env job w n d w' :
  process_job_details env job w = (Return (Some n, Some d), w') ->
  dict_keys d = details_keys /\ dict_get d "name" = Some (VStr n).
Proof.
  intros H. apply process_job_details_success in H as (HN & c & _ & Hd).
  cbv zeta in Hd.
  assert (Hname : job_get job "Name" (VStr "") = VStr n).
  { unfold job_get, job_lookup. rewrite HN. reflexivity. }
  destruct Hd as [(_ & -> & _) | (_ & v & _ & ->)];
    (split; [reflexivity|]);
    change (Some (job_get job "Name" (VStr "")) = Some (VStr n));
    rewrite Hname; reflexivity.
Qed.

Lemma normalized_record_schema_witness :
  process_job_details (quiet []) dangling_job fresh
  = (Return (Some "etl",
             Some (dict_set (job_details_literal dangling_job (VList []))
                     "security_configuration" VNone)),
     called (GlueGetSecurityConfiguration (VStr "gone")) fresh) /\
  dict_keys (dict_set (job_details_literal dangling_job (VList []))
               "security_configuration" VNone) = details_keys.
Proof.
  split; [reflexivity|].
  exact (proj1 (normalized_record_schema (quiet []) dangling_job fresh "etl" _ _
                  eq_refl)).
Defined.

(** X2. A field that is present is copied as it is, whatever its type: the
    ten plain fields, the inner list of ['Connections'], and a
    security-configuration name that is falsy (for which no lookup is
    made). *)
Theorem present_fields_are_copied env job w n d w' :
  process_job_details env job w = (Return (Some n, Some d), w') ->
  (forall K k v, In (K, k) copied_fields ->
                 job_lookup job K = Some v -> dict_get d k = Some v) /\
  (forall c, job_lookup job "Connections" = Some (VDict c) ->
             dict_get d "connections"
             = Some (default (VList []) (dict_get c "Connections"))) /\
  (forall v, job_lookup job "SecurityConfiguration" = Some v ->
             truthy v = false ->
             dict_get d "security_configuration" = Some v /\ calls w' = calls w).
Proof.
  intros H. apply process_job_details_success in H as (_ & c & Hc & Hd).
  cbv zeta in Hd.
  set (lit := job_details_literal job (default (VList []) (dict_get c "Connections")))
    in *.
  assert (Hcopy : forall K k v, In (K, k) copied_fields ->
                    job_lookup job K = Some v -> dict_get lit k = Some v).
  { intros K k v HIn HK. unfold copied_fields in HIn. cbn [In] in HIn.
    repeat (destruct HIn as [E|HIn];
            [injection E as <- <-; subst lit;
             unfold job_details_literal, job_get; rewrite HK; reflexivity|]).
    destruct HIn. }
  assert (Hconn : forall c', job_lookup job "Connections" = Some (VDict c') ->
                    dict_get lit "connections"
                    = Some (default (VList []) (dict_get c' "Connections"))).
  { intros c' Hc'. unfold job_get in Hc. rewrite Hc' in Hc. injection Hc as ->.
    reflexivity. }
  destruct Hd as [(Ht & -> & ->) | (Ht & v0 & _ & ->)].
  - split; [exact Hcopy|]. split; [exact Hconn|].
    intros v Hv _. split; [|reflexivity].
    subst lit. unfold job_details_literal, job_get. rewrite Hv. reflexivity.
  - split; [|split].
    + intros K k v HIn HK. rewrite dict_get_set_ne; [exact (Hcopy K k v HIn HK)|].
      unfold copied_fields in HIn. cbn [In] in HIn.
      repeat (destruct HIn as [E|HIn]; [injection E as _ <-; discriminate|]).
      destruct HIn.
    + intros c' Hc'. rewrite dict_get_set_ne by discriminate. exact (Hconn c' Hc').
    + intros v Hv Hf. unfold job_get in Ht. rewrite Hv in Ht.
      change (truthy v = true) in Ht. congruence.
Qed.

Lemma present_fields_are_copied_witness :
  let d := job_details_literal odd_job (VStr "not a list") in
  process_job_details (quiet []) odd_job fresh = (Return (Some "odd", Some d), fresh) /\
  dict_get d "timeout" = Some (VStr "soon") /\
  dict_get d "connections" = Some (VStr "not a list") /\
  dict_get d "security_configuration" = Some (VInt 0).
Proof.
  cbv zeta.
  destruct (present_fields_are_copied (quiet []) odd_job fresh "odd" _ fresh eq_refl)
    as (Hcopy & Hconn & Hsc).
  split; [reflexivity|]. split; [|split].
  - apply (Hcopy "Timeout" "timeout" (VStr "soon")); [|reflexivity].
    do 7 right. left. reflexivity.
  - exact (Hconn [("Connections", VStr "not a list")] eq_refl).
  - exact (proj1 (Hsc (VInt 0) eq_refl eq_refl)).
Defined.

(** X3. What one normalisation does to the world: it writes no file; it
    makes no call, or the single lookup of a truthy security-configuration
    name; it prints nothing, or the one line of a skip. *)
Theorem process_job_details_footprint env job w r w' :
  process_job_details env job w = (r, w') ->
  files w' = files w /\
  (calls w' = calls w \/
   exists sc, job_lookup job "SecurityConfiguration" = Some sc /\
              truthy sc = true /\
              calls w' = calls w ++ [GlueGetSecurityConfiguration sc]) /\
  (stdout w' = stdout w \/
   exists n e, Name job = Some n /\ r = Return (None, None) /\
               stdout w' = stdout w ++ [skip_message n e]).
Proof.
  intros H.
  split.
  { pose proof (process_job_details_files env job w) as Hf. rewrite H in Hf.
    exact Hf. }
  rewrite process_job_details_run in H.
  destruct (Name job) as [n|]; [|injection H as <- <-; auto].
  destruct (job_get job "Connections" (VDict [])) as [| | | | | | |c|];
    try (injection H as <- <-; split; [left; reflexivity|];
         right; eexists _, _; repeat split).
  cbv zeta in H. destruct (truthy _) eqn:Ht; [|injection H as <- <-; auto].
  assert (Hsc : job_lookup job "SecurityConfiguration"
                = Some (job_get job "SecurityConfiguration" VNone)).
  { unfold job_get in *. destruct (job_lookup job "SecurityConfiguration");
      [reflexivity | discriminate Ht]. }
  rewrite get_security_configuration_run in H. cbv zeta in H.
  assert (Hcases : forall (r0 : result value),
             match r0 with
             | Return v =>
                 (Return (Some n, Some (dict_set
                    (job_details_literal job
                       (default (VList []) (dict_get c "Connections")))
                    "security_configuration" v)),
                  called (GlueGetSecurityConfiguration
                            (job_get job "SecurityConfiguration" VNone)) w)
             | Raise e =>
                 if is_exception e
                 then (Return (None, None),
                       printed (skip_message n e)
                         (called (GlueGetSecurityConfiguration
                                    (job_get job "SecurityConfiguration" VNone)) w))
                 else (Raise e,
                       called (GlueGetSecurityConfiguration
                                 (job_get job "SecurityConfiguration" VNone)) w)
             end = (r, w') ->
             (calls w' = calls w \/
              exists sc, job_lookup job "SecurityConfiguration" = Some sc /\
                         truthy sc = true /\
                         calls w' = calls w ++ [GlueGetSecurityConfiguration sc]) /\
             (stdout w' = stdout w \/
              exists n0 e, Some n = Some n0 /\ r = Return (None, None) /\
                           stdout w' = stdout w ++ [skip_message n0 e])).
  { intros [v|e]; [|destruct (is_exception e)]; intros [= <- <-];
      (split; [right; eexists; repeat split; eassumption|]).
    - left. reflexivity.
    - right. exists n, e. repeat split.
    - left. reflexivity. }
  destruct (glue_get_security_configuration env _) as [e|resp].
  - destruct (exn_cls e);
      first [exact (Hcases (Raise e) H) | exact (Hcases (Return VNone) H)].
  - destruct (dict_get resp "SecurityConfiguration") as [v|];
      first [ exact (Hcases (Return v) H)
            | exact (Hcases (Raise (Exn KeyError "'SecurityConfiguration'")) H) ].
Qed.

Lemma process_job_details_footprint_witness :
  let run := process_job_details (quiet []) dangling_job fresh in
  files (snd run) = files fresh /\
  calls (snd run) = calls fresh ++ [GlueGetSecurityConfiguration (VStr "gone")].
Proof.
  cbv zeta.
  destruct (process_job_details_footprint (quiet []) dangling_job fresh _ _ eq_refl)
    as (Hf & _ & _).
  split; [exact Hf | reflexivity].
Defined.

(** X4. A fault of the security-configuration lookup other than not-found
    (access denied, throttling, a response without the object) does not
    abort the run when it is an [Exception]: it is caught with the job,
    printed under the job's name, and the job is skipped.  What is no
    [Exception] (an interrupt from the keyboard) is not caught and ends
    the loop. *)
Theorem lookup_fault_skips_the_job env job w n c sc e :
  Name job = Some n ->
  job_get job "Connections" (VDict []) = VDict c ->
  job_lookup job "SecurityConfiguration" = Some sc ->
  truthy sc = true ->
  glue_get_security_configuration env sc = inl e ->
  exn_cls e <> EntityNotFoundException ->
  let looked_up := called (GlueGetSecurityConfiguration sc) w in
  (is_exception e = true ->
   process_job_details env job w
   = (Return (None, None), printed (skip_message n e) looked_up) /\
   forall rest glue_jobs,
     for_jobs env (job :: rest) glue_jobs w
     = for_jobs env rest glue_jobs (printed (skip_message n e) looked_up)) /\
  (is_exception e = false ->
   process_job_details env job w = (Raise e, looked_up) /\
   forall rest glue_jobs,
     for_jobs env (job :: rest) glue_jobs w = (Raise e, looked_up)).
Proof.
  intros HN Hc Hsc Ht Hg He. cbv zeta.
  assert (Hp : process_job_details env job w
               = if is_exception e
                 then (Return (None, None),
                       printed (skip_message n e)
                         (called (GlueGetSecurityConfiguration sc) w))
                 else (Raise e, called (GlueGetSecurityConfiguration sc) w)).
  { rewrite process_job_details_run, HN, Hc. cbv zeta.
    unfold job_get. rewrite Hsc.
    change (default VNone (Some sc)) with sc. rewrite Ht.
    rewrite get_security_configuration_run. cbv zeta. rewrite Hg.
    destruct (exn_cls e); try reflexivity. contradiction. }
  split; intros Hex; rewrite Hex in Hp; (split; [exact Hp|]);
    intros rest g; rewrite for_jobs_cons, Hp; reflexivity.
Qed.

Lemma lookup_fault_skips_the_job_witness :
  Name guarded_job = Some "etl" /\
  glue_get_security_configuration lookups_denied (VStr "secret") = inl access_denied /\
  exn_cls access_denied <> EntityNotFoundException /\
  is_exception access_denied = true /\
  process_job_details lookups_denied guarded_job fresh
  = (Return (None, None),
     printed (skip_message "etl" access_denied)
       (called (GlueGetSecurityConfiguration (VStr "secret")) fresh)).
Proof.
  assert (Hne : exn_cls access_denied <> EntityNotFoundException) by discriminate.
  split; [reflexivity|]. split; [reflexivity|]. split; [exact Hne|].
  split; [reflexivity|].
  exact (proj1 (proj1 (lookup_fault_skips_the_job lookups_denied guarded_job fresh
                         "etl" [] (VStr "secret") access_denied eq_refl eq_refl
                         eq_refl eq_refl eq_refl Hne) eq_refl)).
Defined.

(** ** Pagination *)

Lemma paginate_run {A : Type} call (pages : listing A) : forall w,
  paginate call pages w =
  (match listing_fault pages with
   | Some e => Raise e
   | None => Return (all_items pages)
   end,
   World (files w) (stdout w) (calls w ++ repeat call (page_count pages))).
Proof.
  induction pages as [items|items rest IH|e]; intros w; try reflexivity.
  cbn [paginate page_count listing_fault all_items].
  rewrite bind_run. cbn [call_api]. rewrite bind_run, IH.
  cbn [files stdout calls repeat]. rewrite <- app_assoc.
  destruct (listing_fault rest); reflexivity.
Qed.

(** X5. Both listings read every page: one request per page and nothing else
    done to the world; the result is the items of all pages in page
    order, or the exception of the page that failed, with the items read
    so far dropped. *)
Theorem listings_read_every_page env w :
  get_glue_jobs env w =
  (match listing_fault (glue_get_jobs env) with
   | Some e => Raise e
   | None => Return (all_items (glue_get_jobs env))
   end,
   World (files w) (stdout w)
     (calls w ++ repeat GlueGetJobs (page_count (glue_get_jobs env)))) /\
  get_triggers env w =
  (match listing_fault (glue_get_triggers env) with
   | Some e => Raise e
   | None => Return (all_items (glue_get_triggers env))
   end,
   World (files w) (stdout w)
     (calls w ++ repeat GlueGetTriggers (page_count (glue_get_triggers env)))).
Proof. split; apply paginate_run. Qed.

(** ** The JSON text *)

Lemma iterencode_outcome o : forall level,
  snd (iterencode o level)
  = if json_serializable o then None else Some type_error.
Proof.
  induction o as [| | | | | |l IHl|d IHd|] using value_nested_ind;
    intros level; try (destruct b); try reflexivity.
  - destruct l as [|x l]; [reflexivity|]. cbn [iterencode json_serializable].
    match goal with |- context [?f false l] => set (items := f) end.
    assert (Hitems : forall first l',
               Forall (fun v => forall level,
                           snd (iterencode v level)
                           = if json_serializable v then None else Some type_error) l' ->
               snd (items first l')
               = if forallb json_serializable l' then None else Some type_error).
    { intros first l' Hl'. revert first.
      induction Hl' as [|y l' Hy _ IH]; intros first; [reflexivity|].
      unfold items. cbn [fst snd forallb]. fold items.
      specialize (Hy (S level)).
      destruct (iterencode y (S level)) as [s ey]. cbn [snd] in Hy. subst ey.
      destruct (json_serializable y); [|reflexivity].
      specialize (IH false). destruct (items false l') as [s' e'].
      cbn [snd andb] in *. exact IH. }
    inversion IHl as [|? ? Hx Hl]; subst.
    specialize (Hx (S level)). specialize (Hitems false l Hl).
    destruct (iterencode x (S level)) as [s ex]. cbn [snd] in Hx. subst ex.
    cbn [forallb].
    destruct (json_serializable x); [|reflexivity].
    destruct (items false l) as [s' e']. cbn [snd andb] in *. subst e'.
    destruct (forallb json_serializable l); reflexivity.
  - destruct d as [|[k x] d]; [reflexivity|]. cbn [iterencode json_serializable].
    match goal with |- context [?f false d] => set (items := f) end.
    assert (Hitems : forall first d',
               Forall (fun kv => forall level,
                           snd (iterencode (snd kv) level)
                           = if json_serializable (snd kv) then None
                             else Some type_error) d' ->
               snd (items first d')
               = if forallb (fun kv => json_serializable (snd kv)) d' then None
                 else Some type_error).
    { intros first d' Hd'. revert first.
      induction Hd' as [|[k' y] d' Hy _ IH]; intros first; [reflexivity|].
      unfold items. cbn [fst snd forallb]. fold items.
      specialize (Hy (S level)). cbn [snd] in Hy.
      destruct (iterencode y (S level)) as [s ey]. cbn [snd] in Hy. subst ey.
      destruct (json_serializable y); [|reflexivity].
      specialize (IH false). destruct (items false d') as [s' e'].
      cbn [snd andb] in *. exact IH. }
    inversion IHd as [|? ? Hx Hd]; subst.
    specialize (Hx (S level)). specialize (Hitems false d Hd). cbn [snd] in Hx.
    destruct (iterencode x (S level)) as [s ex]. cbn [snd] in Hx. subst ex.
    cbn [forallb snd].
    destruct (json_serializable x); [|reflexivity].
    destruct (items false d) as [s' e']. cbn [snd andb] in *. subst e'.
    destruct (forallb (fun kv => json_serializable (snd kv)) d); reflexivity.
Qed.

(** X6. A value that holds, at any depth of its lists and dicts, an object
    that is neither JSON nor a datetime cannot be dumped:
    [datetime_converter] converts datetimes and nothing else, so the
    encoder raises, whatever the level of indentation it has reached. *)
Theorem foreign_object_fails_the_dump o level :
  json_serializable o = false ->
  exists e, snd (iterencode o level) = Some e.
Proof.
  intros H. rewrite iterencode_outcome, H. exists type_error. reflexivity.
Qed.

Lemma foreign_object_fails_the_dump_witness :
  let d := job_details_literal unserializable_job (VList []) in
  json_serializable (VDict d) = false /\
  exists e, snd (iterencode (VDict d) 0) = Some e.
Proof.
  cbv zeta.
  assert (H : json_serializable
                (VDict (job_details_literal unserializable_job (VList []))) = false).
  { reflexivity. }
  split; [exact H|].
  exact (foreign_object_fails_the_dump _ 0 H).
Defined.

(** ** The key of a published file *)

(** X7. A file found at [terraform/<rel>] is published under [<rel>] joined
    to the prefix with exactly one ["/"]: none is added after an empty
    prefix or a prefix that ends with one. *)
Theorem s3_key_layout prefix rel :
  String.prefix "/" rel = false ->
  s3_key_of prefix ("terraform/" +:+ rel)
  = if String.eqb prefix "" || str_endswith_char "/"%char prefix
    then prefix +:+ rel
    else prefix +:+ "/" +:+ rel.
Proof.
  intros Hrel. unfold s3_key_of, relpath.
  change (String.prefix ("terraform" +:+ "/") ("terraform/" +:+ rel))
    with (String.prefix "" rel).
  rewrite prefix_nil.
  change (str_drop (String.length "terraform" + 1) ("terraform/" +:+ rel)) with rel.
  unfold path_join. rewrite Hrel. reflexivity.
Qed.

Lemma s3_key_layout_witness :
  String.prefix "/" "files/etl.tfvars.json" = false /\
  s3_key_of "glue/prod" (job_file "etl") = "glue/prod/files/etl.tfvars.json" /\
  s3_key_of "" (job_file "etl") = "files/etl.tfvars.json".
Proof.
  split; [reflexivity|]. split.
  - exact (s3_key_layout "glue/prod" "files/etl.tfvars.json" eq_refl).
  - exact (s3_key_layout "" "files/etl.tfvars.json" eq_refl).
Defined.

(** ** What each part of the run touches *)

Section Footprint.

Context (F L : string -> Prop) (C : api_call -> Prop).

Lemma footprint_ret {A : Type} (a : A) : footprint F L C (mret a).
Proof.
  intros w r w1 [= <- <-]. split; [reflexivity|].
  split; exists []; rewrite app_nil_r; auto.
Qed.

Lemma footprint_raise {A : Type} (e : exn) : footprint F L C (@raise A e).
Proof.
  intros w r w1 [= <- <-]. split; [reflexivity|].
  split; exists []; rewrite app_nil_r; auto.
Qed.

Lemma footprint_seq {A B : Type} (w w1 w2 : world) :
  ((forall p, ~ F p -> files w1 !! p = files w !! p) /\
   (exists lines, stdout w1 = stdout w ++ lines /\ Forall L lines) /\
   (exists cs, calls w1 = calls w ++ cs /\ Forall C cs)) ->
  ((forall p, ~ F p -> files w2 !! p = files w1 !! p) /\
   (exists lines, stdout w2 = stdout w1 ++ lines /\ Forall L lines) /\
   (exists cs, calls w2 = calls w1 ++ cs /\ Forall C cs)) ->
  (forall p, ~ F p -> files w2 !! p = files w !! p) /\
  (exists lines, stdout w2 = stdout w ++ lines /\ Forall L lines) /\
  (exists cs, calls w2 = calls w ++ cs /\ Forall C cs).
Proof.
  intros (Hf1 & (l1 & Hs1 & Hl1) & (c1 & Hc1 & HC1))
         (Hf2 & (l2 & Hs2 & Hl2) & (c2 & Hc2 & HC2)).
  split; [intros p Hp; rewrite Hf2, Hf1; auto|]. split.
  - exists (l1 ++ l2). rewrite Hs2, Hs1, app_assoc. split; [reflexivity|].
    apply Forall_app. auto.
  - exists (c1 ++ c2). rewrite Hc2, Hc1, app_assoc. split; [reflexivity|].
    apply Forall_app. auto.
Qed.

(** The continuation is only asked about the values [m] can return. *)
Lemma footprint_bind_ret {A B : Type} (m : M A) (f : A -> M B) :
  footprint F L C m ->
  (forall a w w1, m w = (Return a, w1) -> footprint F L C (f a)) ->
  footprint F L C (m ≫= f).
Proof.
  intros Hm Hf w r w2. rewrite bind_run.
  destruct (m w) as [[a|e] w1] eqn:E; pose proof (Hm _ _ _ E) as H1.
  - intros H. exact (footprint_seq (A:=A) (B:=B) _ _ _ H1 (Hf a _ _ E _ _ _ H)).
  - intros [= <- <-]. exact H1.
Qed.

Lemma footprint_bind {A B : Type} (m : M A) (f : A -> M B) :
  footprint F L C m -> (forall a, footprint F L C (f a)) ->
  footprint F L C (m ≫= f).
Proof. intros Hm Hf. apply footprint_bind_ret; auto. Qed.

Lemma footprint_try {A : Type} (m : M A) (h : exn -> M A) :
  footprint F L C m -> (forall e, footprint F L C (h e)) ->
  footprint F L C (try_except m h).
Proof.
  intros Hm Hh w r w2. unfold try_except.
  destruct (m w) as [[a|e] w1] eqn:E; pose proof (Hm _ _ _ E) as H1.
  - intros [= <- <-]. exact H1.
  - destruct (is_exception e); [|intros [= <- <-]; exact H1].
    intros H. exact (footprint_seq (A:=A) (B:=A) _ _ _ H1 (Hh e _ _ _ H)).
Qed.

Lemma footprint_print line : L line -> footprint F L C (print line).
Proof.
  intros HL w r w1 [= <- <-]. split; [reflexivity|]. split.
  - exists [line]. split; [reflexivity | auto].
  - exists []. cbn [calls]. rewrite app_nil_r. auto.
Qed.

Lemma footprint_call_api c : C c -> footprint F L C (call_api c).
Proof.
  intros HC w r w1 [= <- <-]. split; [reflexivity|]. split.
  - exists []. cbn [stdout]. rewrite app_nil_r. auto.
  - exists [c]. split; [reflexivity | auto].
Qed.

Lemma footprint_write path text :
  F (resolve path) -> footprint F L C (write path text).
Proof.
  intros HF w r w1 [= <- <-]. split.
  - intros p Hp. cbn [files]. apply lookup_insert_ne. intros <-. exact (Hp HF).
  - split; exists []; cbn [stdout calls]; rewrite app_nil_r; auto.
Qed.

Lemma footprint_open_w env path :
  F (resolve path) -> footprint F L C (open_w env path).
Proof.
  intros HF. unfold open_w.
  destruct (os_refuses env (OpenW path)); [apply footprint_raise|].
  intros w r w1 [= <- <-]. split.
  - intros p Hp. cbn [files]. apply lookup_insert_ne. intros <-. exact (Hp HF).
  - split; exists []; cbn [stdout calls]; rewrite app_nil_r; auto.
Qed.

Lemma footprint_makedirs env path : footprint F L C (makedirs env path).
Proof.
  unfold makedirs.
  destruct (os_refuses env (Makedirs path));
    [apply footprint_raise | apply footprint_ret].
Qed.

Lemma footprint_paginate {A : Type} call (pages : listing A) :
  C call -> footprint F L C (paginate call pages).
Proof.
  intros HC. induction pages as [items|items rest IH|e]; cbn [paginate];
    repeat (apply footprint_bind; [|intros ?]);
    auto using footprint_call_api, footprint_ret, footprint_raise.
Qed.

Lemma footprint_process_job_details env job :
  (forall sc, C (GlueGetSecurityConfiguration sc)) ->
  (forall n e, L (skip_message n e)) ->
  footprint F L C (process_job_details env job).
Proof.
  intros HC HL. unfold process_job_details, job_getitem_Name.
  apply footprint_try.
  - apply footprint_bind;
      [destruct (Name job); [apply footprint_ret | apply footprint_raise] | intros n].
    apply footprint_bind.
    + unfold value_get. destruct (job_get job "Connections" (VDict []));
        auto using footprint_ret, footprint_raise.
    + intros c. apply footprint_bind; [|intros ?; apply footprint_ret].
      destruct (truthy _); [|apply footprint_ret].
      apply footprint_bind; [|intros ?; apply footprint_ret].
      unfold get_security_configuration. apply footprint_try.
      * apply footprint_bind; [apply footprint_call_api, HC | intros _].
        destruct (glue_get_security_configuration env _) as [e|resp];
          [apply footprint_raise|].
        destruct (dict_get resp "SecurityConfiguration");
          [apply footprint_ret | apply footprint_raise].
      * intros e. destruct (exn_cls e); auto using footprint_ret, footprint_raise.
  - intros e. apply footprint_bind;
      [destruct (Name job); [apply footprint_ret | apply footprint_raise] | intros n].
    apply footprint_bind; [apply footprint_print, HL | intros ?; apply footprint_ret].
Qed.

Lemma footprint_for_jobs env jobs :
  (forall job n, In job jobs -> Name job = Some n -> F (resolve (job_file n))) ->
  (forall sc, C (GlueGetSecurityConfiguration sc)) ->
  (forall n e, L (skip_message n e)) ->
  forall glue_jobs, footprint F L C (for_jobs env jobs glue_jobs).
Proof.
  intros HF HC HL.
  induction jobs as [|job rest IH]; intros g; cbn [for_jobs];
    [apply footprint_ret|].
  apply footprint_bind_ret; [apply footprint_process_job_details; assumption|].
  intros [on od] w w1 Hp.
  apply footprint_bind;
    [|intros g'; apply IH; intros j n Hj; apply HF; right; exact Hj].
  destruct (truthy (str_or_none on) && truthy (dict_or_none od));
    [|apply footprint_ret].
  destruct on as [n|], od as [d|]; try apply footprint_ret.
  assert (HFn : F (resolve (job_file n))).
  { apply (HF job n); [left; reflexivity|].
    exact (proj1 (process_job_details_success _ _ _ _ _ _ Hp)). }
  apply footprint_bind; [apply footprint_open_w, HFn | intros _].
  apply footprint_bind; [|intros _; apply footprint_ret].
  unfold json_dump. destruct (iterencode (VDict d) 0) as [text [e|]];
    (apply footprint_bind; [apply footprint_write, HFn | intros _]);
    [apply footprint_raise | apply footprint_ret].
Qed.

Lemma footprint_for_entries job_names :
  F terraform_tfvars -> footprint F L C (for_entries job_names).
Proof.
  intros HF. induction job_names as [|n rest IH]; cbn [for_entries];
    [apply footprint_ret|].
  apply footprint_bind; [|intros _; exact IH].
  apply footprint_write. rewrite resolve_terraform_tfvars. exact HF.
Qed.

Lemma footprint_create_terraform_files env :
  (forall p, In p top_files -> F p) ->
  (forall job n, In job (all_items (glue_get_jobs env)) -> Name job = Some n ->
                 F (resolve (job_file n))) ->
  (forall c, is_glue_call c -> C c) ->
  (forall n e, L (skip_message n e)) ->
  footprint F L C (create_terraform_files env).
Proof.
  intros Htop Hjob HC HL.
  assert (Hres : forall p, In p top_files -> F (resolve p)).
  { intros p Hp. rewrite (resolve_top p Hp). exact (Htop p Hp). }
  assert (Hm : F (resolve main_tf)) by (apply Hres; simpl; tauto).
  assert (Hv : F (resolve variables_tf)) by (apply Hres; simpl; tauto).
  assert (Ho : F (resolve outputs_tf)) by (apply Hres; simpl; tauto).
  assert (Ht : F (resolve terraform_tfvars)) by (apply Hres; simpl; tauto).
  assert (Ht' : F terraform_tfvars) by (apply Htop; simpl; tauto).
  assert (Hph : footprint F L C (write_skeleton env;; emit_jobs env)).
  { apply footprint_bind.
    - unfold write_skeleton.
      repeat (apply footprint_bind; [|intros ?]);
        first [ apply footprint_makedirs
              | apply footprint_open_w; assumption
              | apply footprint_write; assumption ].
    - intros _. unfold emit_jobs, get_glue_jobs, get_triggers.
      apply footprint_bind_ret; [apply footprint_paginate, HC; exact I|].
      intros jobs w w1 Hjobs. rewrite paginate_run in Hjobs.
      assert (Hall : jobs = all_items (glue_get_jobs env)).
      { destruct (listing_fault (glue_get_jobs env)); [discriminate Hjobs|].
        injection Hjobs as <- _. reflexivity. }
      subst jobs.
      apply footprint_bind; [apply footprint_paginate, HC; exact I | intros _].
      apply footprint_bind;
        [apply footprint_for_jobs;
         [exact Hjob | intros sc; apply HC; exact I | exact HL]|].
      intros g. unfold write_glue_jobs.
      repeat (apply footprint_bind; [|intros ?]);
        first [ apply footprint_write; assumption
              | apply footprint_for_entries; assumption ]. }
  intros w r w1 H. rewrite create_terraform_files_phases in H.
  exact (Hph _ _ _ H).
Qed.

Lemma footprint_for_files env bucket prefix local_paths :
  (forall c, is_publish_call env bucket c -> C c) ->
  (forall key, L (skipping_message key bucket)) ->
  (forall key, L (uploaded_message key bucket)) ->
  (forall key e, L (check_failed_message key e)) ->
  footprint F L C (for_files env bucket prefix local_paths).
Proof.
  intros HC Hs Hu Hc.
  induction local_paths as [|local rest IH]; cbn [for_files];
    [apply footprint_ret|].
  apply footprint_bind; [apply footprint_call_api, HC; reflexivity | intros _].
  apply footprint_bind; [|intros _; exact IH].
  destruct (s3_head_object env bucket _) as [e|] eqn:Hh;
    [|apply footprint_print, Hs].
  destruct (client_error_code (exn_cls e)) as [code|] eqn:Hcode;
    [|apply footprint_raise].
  destruct (String.eqb_spec code "404") as [->|_]; [|apply footprint_print, Hc].
  apply footprint_bind.
  - apply footprint_call_api, HC. split; [reflexivity|]. exists e. auto.
  - intros _. destruct (s3_upload_file env local bucket _);
      [apply footprint_raise | apply footprint_print, Hu].
Qed.

Lemma footprint_os_walk env top : footprint F L C (os_walk env top).
Proof.
  intros w r w1 [= <- <-]. split; [reflexivity|].
  split; exists []; rewrite app_nil_r; auto.
Qed.

Lemma footprint_upload_to_s3 env bucket_uri :
  (forall bucket prefix c,
      str_partition "/" (without_scheme bucket_uri) = Some (bucket, prefix) ->
      is_publish_call env bucket c -> C c) ->
  (forall key bucket, L (skipping_message key bucket)) ->
  (forall key bucket, L (uploaded_message key bucket)) ->
  (forall key e, L (check_failed_message key e)) ->
  footprint F L C (upload_to_s3 env bucket_uri).
Proof.
  intros HC Hs Hu Hc. unfold upload_to_s3.
  apply footprint_bind_ret.
  - intros w r w1 H. rewrite parse_bucket_uri_run in H.
    destruct (str_partition _ _) as [[a b]|].
    + exact (footprint_ret (a, b) _ _ _ H).
    + exact (@footprint_raise (string * string) unpack_error _ _ _ H).
  - intros [bucket prefix] w w1 Hparse. rewrite parse_bucket_uri_run in Hparse.
    destruct (str_partition "/" (without_scheme bucket_uri)) as [[a b]|] eqn:E;
      [|discriminate Hparse].
    injection Hparse as <- <- _.
    apply footprint_bind; [apply footprint_os_walk | intros paths].
    apply footprint_for_files;
      [intros c; apply (HC a b c eq_refl) | intros k; apply Hs
      | intros k; apply Hu | exact Hc].
Qed.

End Footprint.

(** X8. The emitter, whatever its outcome, changes no file but its four
    top-level files and the files of the listed jobs that have a name,
    prints nothing but the lines of skipped jobs, and calls nothing but
    Glue: S3 is not contacted.  The file of a job is the one that
    [terraform/files/<name>.tfvars.json] names: it lies in
    [terraform/files/] when the name holds no ["/"], so a listing with no
    such name leaves every file outside [terraform/] as it was. *)
Theorem emitter_footprint env w r w' :
  create_terraform_files env w = (r, w') ->
  let jobs := all_items (glue_get_jobs env) in
  (forall p, ~ emitter_file jobs p -> files w' !! p = files w !! p) /\
  ((forall job n, In job jobs -> Name job = Some n -> plain n) ->
   forall p, ~ under_terraform p -> files w' !! p = files w !! p) /\
  (exists lines, stdout w' = stdout w ++ lines /\ Forall is_skip_line lines) /\
  (exists cs, calls w' = calls w ++ cs /\ Forall is_glue_call cs).
Proof.
  intros H. cbv zeta.
  assert (Hfp : footprint (emitter_file (all_items (glue_get_jobs env)))
                  is_skip_line is_glue_call (create_terraform_files env)).
  { apply footprint_create_terraform_files.
    - intros p Hp. left. exact Hp.
    - intros job n Hj HN. right. exists job, n. auto.
    - auto.
    - intros n e. exists n, e. reflexivity. }
  destruct (Hfp _ _ _ H) as (Hfiles & Hlines & Hcalls).
  split; [exact Hfiles|]. split; [|split; assumption].
  intros Hplain p Hp. apply Hfiles.
  intros [Hin|(job & n & Hj & HN & ->)]; apply Hp; unfold under_terraform.
  - unfold top_files in Hin. cbn [In] in Hin.
    destruct Hin as [<-|[<-|[<-|[<-|[]]]]]; apply (prefix_app "terraform/").
  - rewrite (resolve_job_file_plain n (Hplain job n Hj HN)).
    apply (prefix_app "terraform/").
Qed.

Lemma emitter_footprint_witness :
  let run := create_terraform_files two_names_one_file stale in
  ~ emitter_file (all_items (glue_get_jobs two_names_one_file)) (job_file "old") /\
  files (snd run) !! job_file "old" = files stale !! job_file "old" /\
  exists cs, calls (snd run) = calls stale ++ cs /\ Forall is_glue_call cs.
Proof.
  cbv zeta.
  assert (Hn : ~ emitter_file (all_items (glue_get_jobs two_names_one_file))
                 (job_file "old")).
  { intros [Hin|(job & n & Hj & HN & Heq)].
    - unfold top_files in Hin. cbn [In] in Hin.
      destruct Hin as [H|[H|[H|[H|[]]]]]; discriminate H.
    - destruct Hj as [<-|[<-|[]]]; injection HN as <-; vm_compute in Heq;
        discriminate Heq. }
  assert (Hrun : create_terraform_files two_names_one_file stale
                 = (fst (create_terraform_files two_names_one_file stale),
                    snd (create_terraform_files two_names_one_file stale))).
  { vm_compute. reflexivity. }
  destruct (emitter_footprint two_names_one_file stale _ _ Hrun)
    as (Hf & _ & _ & Hc).
  split; [exact Hn|]. split; [exact (Hf _ Hn) | exact Hc].
Defined.

(** X9. The publisher, whatever its outcome, changes no local file and
    calls nothing but S3, for the bucket named in its argument before the
    first ["/"]: it checks objects of that bucket, and uploads to it no
    key whose check did not say not-found, so an object already in the
    bucket is never overwritten.  An argument without ["/"] makes it call
    nothing at all. *)
Theorem publisher_footprint env bucket_uri w r w' :
  upload_to_s3 env bucket_uri w = (r, w') ->
  files w' = files w /\
  exists cs, calls w' = calls w ++ cs /\
    match str_partition "/" (without_scheme bucket_uri) with
    | Some (bucket_name, _) => Forall (is_publish_call env bucket_name) cs
    | None => cs = []
    end.
Proof.
  intros H.
  destruct (str_partition "/" (without_scheme bucket_uri)) as [[b p]|] eqn:E.
  - assert (Hfp : footprint (fun _ => False) (fun _ => True)
                    (is_publish_call env b) (upload_to_s3 env bucket_uri)).
    { apply footprint_upload_to_s3; auto.
      intros bucket prefix c Hparse Hc. rewrite E in Hparse.
      injection Hparse as <- _. exact Hc. }
    destruct (Hfp _ _ _ H) as (Hf & _ & Hc).
    split; [|exact Hc]. apply map_eq. intros q. apply Hf. tauto.
  - unfold upload_to_s3 in H. rewrite bind_run, parse_bucket_uri_run, E in H.
    injection H as _ <-. split; [reflexivity|]. exists [].
    rewrite app_nil_r. auto.
Qed.

Lemma publisher_footprint_witness :
  let run := upload_to_s3 half_published "s3://bucket/prefix"
               (snd (create_terraform_files half_published fresh)) in
  files (snd run) = files (snd (create_terraform_files half_published fresh)) /\
  str_partition "/" (without_scheme "s3://bucket/prefix") = Some ("bucket", "prefix") /\
  ~ In (S3UploadFile main_tf "bucket" "prefix/main.tf") (calls (snd run)) /\
  In (S3UploadFile variables_tf "bucket" "prefix/variables.tf") (calls (snd run)).
Proof.
  cbv zeta.
  assert (Hrun : upload_to_s3 half_published "s3://bucket/prefix"
                   (snd (create_terraform_files half_published fresh))
                 = (fst (upload_to_s3 half_published "s3://bucket/prefix"
                           (snd (create_terraform_files half_published fresh))),
                    snd (upload_to_s3 half_published "s3://bucket/prefix"
                           (snd (create_terraform_files half_published fresh))))).
  { vm_compute. reflexivity. }
  split; [|split; [|split]].
  - exact (proj1 (publisher_footprint half_published "s3://bucket/prefix" _ _ _
                    Hrun)).
  - vm_compute. reflexivity.
  - vm_compute. intros H.
    repeat (destruct H as [H|H]; [discriminate H|]). exact H.
  - vm_compute. repeat (first [left; reflexivity | right]).
Defined.

(** ** The publisher over the whole tree *)

Lemma for_files_through env bucket prefix local_paths :
  forall w,
  forallb (goes_through env bucket prefix) local_paths = true ->
  for_files env bucket prefix local_paths w
  = (Return tt,
     World (files w)
       (stdout w ++ map (publish_line env bucket prefix) local_paths)
       (calls w ++ flat_map (publish_calls env bucket prefix) local_paths)).
Proof.
  induction local_paths as [|local rest IH]; intros w Hall.
  - cbn [for_files map flat_map]. rewrite !app_nil_r. destruct w. reflexivity.
  - cbn [forallb] in Hall. apply andb_true_iff in Hall as [Hgo Hrest].
    cbn [for_files map flat_map]. rewrite bind_run. cbn [call_api].
    rewrite bind_run.
    unfold goes_through, publish_line, publish_calls, s3_key_of in *.
    cbv zeta in *.
    destruct (s3_head_object env bucket _) as [e|].
    + destruct (client_error_code (exn_cls e)) as [code|]; [|discriminate Hgo].
      destruct (String.eqb code "404").
      * rewrite bind_run. cbn [call_api].
        destruct (s3_upload_file env local bucket _); [discriminate Hgo|].
        cbn [print]. rewrite (IH _ Hrest). cbn [files stdout calls].
        rewrite <- !app_assoc. reflexivity.
      * cbn [print]. rewrite (IH _ Hrest). cbn [files stdout calls].
        rewrite <- !app_assoc. reflexivity.
    + cbn [print]. rewrite (IH _ Hrest). cbn [files stdout calls].
      rewrite <- !app_assoc. reflexivity.
Qed.

(** X10. When every file goes through (each check returns or raises a
    [ClientError], each upload returns), the loop completes: it checks
    every file once, in order, uploads exactly those whose check said
    not-found, prints one line per file, and changes no local file. *)
Theorem publisher_goes_through_every_file env bucket prefix local_paths w :
  forallb (goes_through env bucket prefix) local_paths = true ->
  for_files env bucket prefix local_paths w
  = (Return tt,
     World (files w)
       (stdout w ++ map (publish_line env bucket prefix) local_paths)
       (calls w ++ flat_map (publish_calls env bucket prefix) local_paths)).
Proof. apply for_files_through. Qed.

Lemma publisher_goes_through_every_file_witness :
  forallb (goes_through half_published "bucket" "prefix") [main_tf; variables_tf]
  = true /\
  for_files half_published "bucket" "prefix" [main_tf; variables_tf] fresh
  = (Return tt,
     World ∅
       [skipping_message "prefix/main.tf" "bucket";
        uploaded_message "prefix/variables.tf" "bucket"]
       [S3HeadObject "bucket" "prefix/main.tf";
        S3HeadObject "bucket" "prefix/variables.tf";
        S3UploadFile variables_tf "bucket" "prefix/variables.tf"]).
Proof.
  split; [reflexivity|].
  exact (publisher_goes_through_every_file half_published "bucket" "prefix"
           [main_tf; variables_tf] fresh eq_refl).
Defined.

(** ** The whole run *)

Lemma success_is_no_other_line :
  (forall n e, skip_message n e <> success_message) /\
  (forall key bucket, skipping_message key bucket <> success_message) /\
  (forall key bucket, uploaded_message key bucket <> success_message) /\
  (forall key e, check_failed_message key e <> success_message).
Proof. repeat split; intros; discriminate. Qed.

Lemma Forall_neq_not_In {A : Type} (x : A) l :
  Forall (fun y => y <> x) l -> ~ In x l.
Proof.
  induction 1 as [|y l Hy _ IH]; intros Hin; [destruct Hin|].
  destruct Hin as [->|Hin]; [exact (Hy eq_refl) | exact (IH Hin)].
Qed.

(** X11. In every run of [main], all calls to Glue come before all calls to
    S3 (emission ends before publishing starts), and the success message
    is printed exactly when the run completes: then it is the last line
    and appears once; in a run that fails it does not appear. *)
Theorem main_phases_and_success_message env bucket_uri w r w' :
  main env bucket_uri w = (r, w') ->
  (exists glue s3,
      calls w' = calls w ++ glue ++ s3 /\
      Forall is_glue_call glue /\
      Forall (fun c => exists bucket, is_publish_call env bucket c) s3) /\
  (exists lines,
      stdout w' = stdout w ++ lines /\
      (r = Return tt ->
       exists before, lines = before ++ [success_message] /\
                      ~ In success_message before) /\
      (forall e, r = Raise e -> ~ In success_message lines)).
Proof.
  destruct success_is_no_other_line as (Hskip & Hskipping & Huploaded & Hfailed).
  pose (C2 := fun c => exists bucket, is_publish_call env bucket c).
  pose (L := fun line => line <> success_message).
  assert (H1 : footprint (fun _ => True) L is_glue_call (create_terraform_files env)).
  { apply footprint_create_terraform_files; auto. }
  assert (H2 : footprint (fun _ => True) L C2 (upload_to_s3 env bucket_uri)).
  { apply footprint_upload_to_s3; auto.
    intros bucket prefix c _ Hc. exists bucket. exact Hc. }
  unfold main. rewrite bind_run.
  destruct (create_terraform_files env w) as [[[]|e1] w1] eqn:E1;
    destruct (H1 _ _ _ E1) as (_ & (l1 & Hs1 & Hl1) & (c1 & Hc1 & HC1)).
  2:{ intros [= <- <-]. split.
      - exists c1, []. rewrite app_nil_r. repeat split; auto.
      - exists l1. split; [exact Hs1|]. split; [discriminate|].
        intros _ _. exact (Forall_neq_not_In _ _ Hl1). }
  rewrite bind_run.
  destruct (upload_to_s3 env bucket_uri w1) as [[[]|e2] w2] eqn:E2;
    destruct (H2 _ _ _ E2) as (_ & (l2 & Hs2 & Hl2) & (c2 & Hc2 & HC2));
    intros [= <- <-]; cbn [calls stdout].
  - split.
    + exists c1, c2. rewrite Hc2, Hc1, app_assoc. repeat split; auto.
    + exists ((l1 ++ l2) ++ [success_message]).
      rewrite Hs2, Hs1, !app_assoc. split; [reflexivity|]. split; [|discriminate].
      intros _. exists (l1 ++ l2). split; [reflexivity|].
      apply Forall_neq_not_In, Forall_app. auto.
  - split.
    + exists c1, c2. rewrite Hc2, Hc1, app_assoc. repeat split; auto.
    + exists (l1 ++ l2). rewrite Hs2, Hs1, app_assoc. split; [reflexivity|].
      split; [discriminate|]. intros _ _.
      apply Forall_neq_not_In, Forall_app. auto.
Qed.

Lemma main_phases_and_success_message_witness :
  let run := main five_jobs_one_faulty "s3://bucket/prefix" fresh in
  exists lines,
    stdout (snd run) = stdout fresh ++ lines /\
    (fst run = Return tt ->
     exists before, lines = before ++ [success_message] /\
                    ~ In success_message before).
Proof.
  cbv zeta.
  assert (Hrun : main five_jobs_one_faulty "s3://bucket/prefix" fresh
                 = (fst (main five_jobs_one_faulty "s3://bucket/prefix" fresh),
                    snd (main five_jobs_one_faulty "s3://bucket/prefix" fresh))).
  { vm_compute. reflexivity. }
  destruct (main_phases_and_success_message five_jobs_one_faulty
              "s3://bucket/prefix" fresh _ _ Hrun) as (_ & lines & Hs & Hok & _).
  exists lines. split; [exact Hs | exact Hok].
Defined.

(** ** The entries of a run and their files *)

Lemma create_terraform_files_inv env w w' :
  create_terraform_files env w = (Return tt, w') ->
  exists w1 w2 triggers w3 glue_jobs w4,
    write_skeleton env w = (Return tt, w1) /\
    get_glue_jobs env w1 = (Return (all_items (glue_get_jobs env)), w2) /\
    get_triggers env w2 = (Return triggers, w3) /\
    for_jobs env (all_items (glue_get_jobs env)) [] w3 = (Return glue_jobs, w4) /\
    write_glue_jobs (dict_keys glue_jobs) w4 = (Return tt, w').
Proof.
  intros H. rewrite create_terraform_files_phases in H.
  apply bind_inv in H as ([] & w1 & Hsk & H). unfold emit_jobs in H.
  apply bind_inv in H as (jobs & w2 & Hjobs & H).
  apply bind_inv in H as (triggers & w3 & Htr & H).
  apply bind_inv in H as (glue_jobs & w4 & Hloop & H).
  assert (Hall : jobs = all_items (glue_get_jobs env)).
  { unfold get_glue_jobs in Hjobs. rewrite paginate_run in Hjobs.
    destruct (listing_fault (glue_get_jobs env)); [discriminate Hjobs|].
    injection Hjobs as <- _. reflexivity. }
  subst jobs. exists w1, w2, triggers, w3, glue_jobs, w4. auto.
Qed.

Lemma emitted_name_at env job w n d w1 :
  process_job_details env job w = (Return (Some n, Some d), w1) ->
  emitted_name env job = if String.eqb n "" then None else Some n.
Proof.
  intros H. unfold emitted_name.
  rewrite (process_job_details_pure env job _ w), H. reflexivity.
Qed.

Lemma emitted_name_none env job w w1 :
  process_job_details env job w = (Return (None, None), w1) ->
  emitted_name env job = None.
Proof.
  intros H. unfold emitted_name.
  rewrite (process_job_details_pure env job _ w), H. reflexivity.
Qed.

Lemma emitted_name_normalizes env job n :
  emitted_name env job = Some n ->
  n <> "" /\ exists d, normalizes env job n d.
Proof.
  unfold emitted_name, normalizes.
  destruct (fst (process_job_details env job (World ∅ [] [])))
    as [[[n0|] [d|]]|]; try discriminate.
  destruct (String.eqb_spec n0 ""); [discriminate|].
  intros [= <-]. split; [assumption|]. exists d. reflexivity.
Qed.

Lemma dict_keys_set_order {A : Type} (d : list (string * A)) k v :
  dict_keys (dict_set d k v) = keys_add (dict_keys d) k.
Proof.
  unfold keys_add, dict_keys. induction d as [|[k' v'] d IH]; [reflexivity|].
  cbn [dict_set map fst existsb]. rewrite (String.eqb_sym k k').
  destruct (String.eqb_spec k' k) as [->|Hne]; [reflexivity|].
  cbn [map fst orb]. rewrite IH.
  destruct (existsb (String.eqb k) (map fst d)); reflexivity.
Qed.

Lemma existsb_eqb_In n names : existsb (String.eqb n) names = true <-> In n names.
Proof.
  rewrite existsb_exists. split.
  - intros (x & Hx & Heq). apply String.eqb_eq in Heq. subst x. exact Hx.
  - intros H. exists n. split; [exact H | apply String.eqb_refl].
Qed.

Lemma keys_add_In names n x : In x (keys_add names n) <-> x = n \/ In x names.
Proof.
  unfold keys_add. destruct (existsb (String.eqb n) names) eqn:E.
  - apply existsb_eqb_In in E. split; [auto|]. intros [->|H]; assumption.
  - rewrite in_app_iff. cbn [In]. intuition.
Qed.

Lemma keys_add_NoDup names n : NoDup names -> NoDup (keys_add names n).
Proof.
  intros H. unfold keys_add. destruct (existsb (String.eqb n) names) eqn:E;
    [exact H|].
  assert (Hn : ~ In n names).
  { intros Hin. apply existsb_eqb_In in Hin. congruence. }
  apply NoDup_app. split; [exact H|]. split; [|apply NoDup_singleton].
  intros x Hx Hxn. apply list_elem_of_singleton in Hxn. subst x.
  apply list_elem_of_In in Hx. contradiction.
Qed.

(** The keys of [glue_jobs] after the loop, in order. *)
Lemma for_jobs_keys env jobs : forall glue_jobs w glue_jobs' w',
  for_jobs env jobs glue_jobs w = (Return glue_jobs', w') ->
  dict_keys glue_jobs'
  = fold_left (fun names job =>
                 match emitted_name env job with
                 | Some n => keys_add names n
                 | None => names
                 end) jobs (dict_keys glue_jobs).
Proof.
  induction jobs as [|job rest IH]; intros g w g' w' H.
  - injection H as <- _. reflexivity.
  - rewrite for_jobs_cons in H. cbn [fold_left].
    destruct (process_job_details env job w) as [[r|e] w1] eqn:Hp;
      [|discriminate H].
    destruct (process_job_details_shape _ _ _ _ _ Hp)
      as [->|(n & d & -> & _ & _)].
    + rewrite (emitted_name_none _ _ _ _ Hp). exact (IH _ _ _ _ H).
    + rewrite (emitted_name_at _ _ _ _ _ _ Hp).
      destruct (String.eqb n ""); cbn [negb] in H; [exact (IH _ _ _ _ H)|].
      destruct (os_refuses env (OpenW (job_file n))); [discriminate H|].
      cbv zeta in H. destruct (snd (iterencode (VDict d) 0)); [discriminate H|].
      rewrite (IH _ _ _ _ H), dict_keys_set_order. reflexivity.
Qed.

Lemma fold_names_spec env jobs : forall names,
  let result :=
    fold_left (fun names job =>
                 match emitted_name env job with
                 | Some n => keys_add names n
                 | None => names
                 end) jobs names in
  (NoDup names -> NoDup result) /\
  (forall n, In n result <->
             In n names \/ In (Some n) (map (emitted_name env) jobs)).
Proof.
  induction jobs as [|job rest IH]; intros names; cbn [fold_left map].
  - split; [auto|]. intros n. cbn [In]. tauto.
  - destruct (emitted_name env job) as [n0|].
    + destruct (IH (keys_add names n0)) as [IH1 IH2]. split.
      * intros H. apply IH1, keys_add_NoDup, H.
      * intros n. rewrite IH2, keys_add_In. cbn [In].
        split; [intros [[->|H]|H]; auto | intros [H|[[= ->]|H]]; auto].
    + destruct (IH names) as [IH1 IH2]. split; [exact IH1|].
      intros n. rewrite IH2. cbn [In].
      split; [intros [H|H]; auto | intros [H|[[=]|H]]; auto].
Qed.

(** The job files after a loop that completes: each file the loop wrote
    holds the details of the last job whose name led to it. *)
Lemma written_spec env jobs p :
  In p (written env jobs) <->
  exists job n, In job jobs /\ emitted_name env job = Some n /\
                p = resolve (job_file n).
Proof.
  unfold written. rewrite in_flat_map. split.
  - intros (job & Hj & Hp).
    destruct (emitted_name env job) as [n|] eqn:E; [|destruct Hp].
    destruct Hp as [<-|[]]. exists job, n. auto.
  - intros (job & n & Hj & Hn & ->). exists job. split; [exact Hj|].
    rewrite Hn. left. reflexivity.
Qed.

Lemma for_jobs_contents env jobs : forall glue_jobs w glue_jobs' w',
  for_jobs env jobs glue_jobs w = (Return glue_jobs', w') ->
  forall p,
    (In p (written env jobs) ->
     exists job n d,
       In job jobs /\ emitted_name env job = Some n /\ normalizes env job n d /\
       p = resolve (job_file n) /\
       iterencode (VDict d) 0 = (default "" (files w' !! p), None) /\
       is_Some (files w' !! p)) /\
    (~ In p (written env jobs) -> files w' !! p = files w !! p).
Proof.
  induction jobs as [|job rest IH]; intros g w g' w' H p.
  - injection H as <- <-. split; [intros [] | auto].
  - rewrite for_jobs_cons in H.
    change (written env (job :: rest))
      with (match emitted_name env job with
            | Some n => [resolve (job_file n)]
            | None => []
            end ++ written env rest).
    pose proof (process_job_details_files env job w) as Hf.
    destruct (process_job_details env job w) as [[r|e] w1] eqn:Hp;
      [|discriminate H]. cbn [snd] in Hf.
    assert (Hlater : forall w2,
               for_jobs env rest g w2 = (Return g', w') \/
               (exists g2, for_jobs env rest g2 w2 = (Return g', w')) ->
               In p (written env rest) ->
               exists job0 n d,
                 In job0 (job :: rest) /\ emitted_name env job0 = Some n /\
                 normalizes env job0 n d /\ p = resolve (job_file n) /\
                 iterencode (VDict d) 0 = (default "" (files w' !! p), None) /\
                 is_Some (files w' !! p)).
    { intros w2 H' Hin.
      assert (H2 : exists g2, for_jobs env rest g2 w2 = (Return g', w')).
      { destruct H' as [H'|H']; [exists g; exact H' | exact H']. }
      destruct H2 as (g2 & H2).
      destruct (proj1 (IH _ _ _ _ H2 p) Hin) as (j & n & d & Hj & Hrest).
      exists j, n, d. split; [right; exact Hj | exact Hrest]. }
    assert (Hskip : for_jobs env rest g w1 = (Return g', w') ->
                    (In p ([] ++ written env rest) ->
                     exists job0 n d,
                       In job0 (job :: rest) /\ emitted_name env job0 = Some n /\
                       normalizes env job0 n d /\ p = resolve (job_file n) /\
                       iterencode (VDict d) 0 = (default "" (files w' !! p), None) /\
                       is_Some (files w' !! p)) /\
                    (~ In p ([] ++ written env rest) ->
                     files w' !! p = files w !! p)).
    { intros H'. split; [apply (Hlater w1); left; exact H'|].
      rewrite <- Hf. apply (IH _ _ _ _ H' p). }
    destruct (process_job_details_shape _ _ _ _ _ Hp)
      as [->|(n0 & d0 & -> & _ & _)].
    { rewrite (emitted_name_none _ _ _ _ Hp). exact (Hskip H). }
    pose proof (emitted_name_at _ _ _ _ _ _ Hp) as Hname.
    destruct (String.eqb_spec n0 "") as [->|Hn0]; cbn [negb] in H;
      [rewrite Hname; exact (Hskip H)|].
    destruct (os_refuses env (OpenW (job_file n0))); [discriminate H|].
    cbv zeta in H.
    destruct (snd (iterencode (VDict d0) 0)) eqn:Henc; [discriminate H|].
    rewrite Hname.
    destruct (in_dec String.string_dec p (written env rest)) as [Hin|Hnin].
    { split; [intros _; apply (Hlater _ (or_intror (ex_intro _ _ H)) Hin)|].
      intros Hn. destruct Hn. apply in_or_app. right. exact Hin. }
    pose proof (proj2 (IH _ _ _ _ H p) Hnin) as Hfile.
    split.
    + intros Hin. apply in_app_or in Hin as [[<-|[]]|Hin]; [|contradiction].
      exists job, n0, d0. split; [left; reflexivity|].
      split; [exact Hname|]. split; [exact (normalizes_at _ _ _ _ _ _ Hp)|].
      split; [reflexivity|]. rewrite Hfile. cbn [files dumped].
      rewrite lookup_insert_eq. cbn [default from_option id].
      split; [|eexists; reflexivity].
      rewrite <- Henc. apply surjective_pairing.
    + intros Hn. rewrite Hfile. cbn [files dumped].
      rewrite lookup_insert_ne, Hf; [reflexivity|].
      intros Heq. apply Hn. left. exact Heq.
Qed.

(** X12. A run that completes, in any directory: [terraform.tfvars] lists the
    names emitted for the listing, each once, in the order in which they
    first occur (not sorted).  The path of each of them names a file that
    holds the whole JSON text of the details of a listed job, normalised
    under a name of the list whose path names the same file: the last
    such job of the listing, which is a job of that very name when
    neither name holds a ["/"].  Every other file, but for the four
    top-level ones, is left as it was, neither removed nor rewritten. *)
Theorem entries_and_their_files env w w' :
  create_terraform_files env w = (Return tt, w') ->
  let jobs := all_items (glue_get_jobs env) in
  let job_names := names_in_order env jobs in
  files w' !! terraform_tfvars = Some (tfvars_text job_names) /\
  NoDup job_names /\
  (forall n, In n job_names ->
     exists job n' d text,
       In job jobs /\ normalizes env job n' d /\ In n' job_names /\
       resolve (job_file n') = resolve (job_file n) /\
       (plain n -> plain n' -> n' = n) /\
       files w' !! resolve (job_file n) = Some text /\
       iterencode (VDict d) 0 = (text, None)) /\
  (forall p, ~ In p top_files ->
     (forall n, In n job_names -> p <> resolve (job_file n)) ->
     files w' !! p = files w !! p).
Proof.
  intros H. cbv zeta.
  destruct (create_terraform_files_inv _ _ _ H)
    as (w1 & w2 & triggers & w3 & g & w4 & Hsk & Hjobs & Htr & Hloop & Htail).
  destruct (write_skeleton_return _ _ _ Hsk) as (_ & _ & _ & Htf).
  destruct (write_skeleton_frame _ _ _ _ Hsk) as (Hfr & _ & _).
  destruct (paginate_frame _ _ _ _ _ Hjobs) as (Hf2 & _ & _).
  destruct (paginate_frame _ _ _ _ _ Htr) as (Hf3 & _ & _).
  destruct (write_glue_jobs_files _ _ _ Htail) as (Htf' & Hother).
  pose proof (for_jobs_keys _ _ _ _ _ _ Hloop) as Hkeys.
  change (dict_keys g = names_in_order env (all_items (glue_get_jobs env))) in Hkeys.
  destruct (fold_names_spec env (all_items (glue_get_jobs env)) []) as [Hnd Hin].
  fold (names_in_order env (all_items (glue_get_jobs env))) in Hnd, Hin.
  assert (Hnot : forall p, ~ In p top_files -> p <> terraform_tfvars).
  { intros p Hp ->. apply Hp. unfold top_files. cbn [In]. tauto. }
  assert (Hemitted : forall job n, In job (all_items (glue_get_jobs env)) ->
                       emitted_name env job = Some n ->
                       In n (names_in_order env (all_items (glue_get_jobs env)))).
  { intros job n Hj Hn. apply Hin. right. rewrite <- Hn. apply in_map. exact Hj. }
  split; [|split; [|split]].
  - rewrite Htf', <- Hkeys.
    rewrite (for_jobs_keeps_top _ _ _ _ _ _ terraform_tfvars Hloop), Hf3, Hf2, Htf;
      [reflexivity|].
    unfold top_files. cbn [In]. tauto.
  - apply Hnd. constructor.
  - intros n Hn. apply Hin in Hn as [[]|Hn].
    apply in_map_iff in Hn as (job0 & Hn0 & Hj0).
    destruct (for_jobs_contents _ _ _ _ _ _ Hloop (resolve (job_file n))) as [Hyes _].
    destruct Hyes as (job & n' & d & Hj & Hn' & Hnorm & Heq & Henc & [text Htext]).
    { apply written_spec. exists job0, n. auto. }
    exists job, n', d, text.
    rewrite Hother by apply Hnot, resolve_job_file_not_top.
    rewrite Htext in Henc. repeat split; auto.
    + exact (Hemitted job n' Hj Hn').
    + intros Hp Hp'. exact (resolve_job_file_inj _ _ Hp' Hp (eq_sym Heq)).
  - intros p Hp Hn. rewrite (Hother p (Hnot p Hp)).
    destruct (for_jobs_contents _ _ _ _ _ _ Hloop p) as [_ Hno].
    rewrite Hno, Hf3, Hf2; [exact (Hfr p Hp)|].
    intros Hw. apply written_spec in Hw as (job & n & Hj & Hname & ->).
    exact (Hn n (Hemitted job n Hj Hname) eq_refl).
Qed.

Lemma entries_and_their_files_witness :
  let w' := snd (create_terraform_files repeated_name stale) in
  create_terraform_files repeated_name stale = (Return tt, w') /\
  names_in_order repeated_name (all_items (glue_get_jobs repeated_name)) = ["a"; "b"] /\
  files w' !! terraform_tfvars = Some (tfvars_text ["a"; "b"]) /\
  files w' !! job_file "old" = files stale !! job_file "old".
Proof.
  cbv zeta.
  assert (Hrun : create_terraform_files repeated_name stale
                 = (Return tt, snd (create_terraform_files repeated_name stale))).
  { vm_compute. reflexivity. }
  assert (Hnames : names_in_order repeated_name
                     (all_items (glue_get_jobs repeated_name)) = ["a"; "b"]).
  { vm_compute. reflexivity. }
  destruct (entries_and_their_files repeated_name stale _ Hrun)
    as (Htf & _ & _ & Hstale).
  split; [exact Hrun|]. split; [exact Hnames|]. split.
  - rewrite <- Hnames. exact Htf.
  - apply Hstale.
    + unfold top_files. cbn [In]. intros [H|[H|[H|[H|[]]]]]; discriminate H.
    + rewrite Hnames. intros n [<-|[<-|[]]]; vm_compute; discriminate.
Defined.

(** ** The triggers *)

Lemma calls_framed_ret {A : Type} (a : A) : calls_framed (mret a).
Proof. intros cs w. reflexivity. Qed.

Lemma calls_framed_bind {A B : Type} (m : M A) (f : A -> M B) :
  calls_framed m -> (forall a, calls_framed (f a)) -> calls_framed (m ≫= f).
Proof.
  intros Hm Hf cs w. rewrite !bind_run, Hm.
  destruct (m w) as [[a|e] w1]; cbn [fst snd]; [apply Hf | reflexivity].
Qed.

Lemma calls_framed_write path text : calls_framed (write path text).
Proof. intros cs w. reflexivity. Qed.

Lemma calls_framed_process_job_details env job :
  calls_framed (process_job_details env job).
Proof.
  intros cs w. rewrite !process_job_details_run.
  destruct (Name job); [|reflexivity].
  destruct (job_get job "Connections" (VDict [])); try reflexivity.
  cbv zeta. destruct (truthy _); [|reflexivity].
  rewrite !get_security_configuration_run. cbv zeta.
  unfold rebase, called, printed. cbn [files stdout calls].
  rewrite <- app_assoc.
  destruct (glue_get_security_configuration env _) as [e|resp].
  - destruct e as [[] m]; reflexivity.
  - destruct (dict_get resp "SecurityConfiguration"); reflexivity.
Qed.

Lemma calls_framed_for_jobs env jobs : forall glue_jobs,
  calls_framed (for_jobs env jobs glue_jobs).
Proof.
  induction jobs as [|job rest IH]; intros g cs w; [reflexivity|].
  rewrite !for_jobs_cons, calls_framed_process_job_details.
  destruct (process_job_details env job w) as [[[[n|] [d|]]|e] w1];
    cbn [fst snd]; try apply IH; try reflexivity.
  destruct (negb (String.eqb n "")); [|apply IH].
  destruct (os_refuses env (OpenW (job_file n))); [reflexivity|].
  cbv zeta. destruct (snd (iterencode (VDict d) 0)); [reflexivity|].
  apply (IH _ cs (dumped (job_file n) (fst (iterencode (VDict d) 0)) w1)).
Qed.

Lemma calls_framed_write_glue_jobs job_names :
  calls_framed (write_glue_jobs job_names).
Proof. intros cs w. rewrite !write_glue_jobs_run. reflexivity. Qed.

(** X13. The triggers are listed and then never looked at: with any two
    listings of triggers that can be read to the end, the emitter ends
    the same way, leaves the same files and prints the same lines. *)
Theorem triggers_do_not_reach_the_output env t w :
  listing_fault (glue_get_triggers env) = None ->
  listing_fault t = None ->
  let run := create_terraform_files env w in
  let run' := create_terraform_files (with_triggers env t) w in
  fst run' = fst run /\
  files (snd run') = files (snd run) /\
  stdout (snd run') = stdout (snd run).
Proof.
  intros Ht Ht'. cbv zeta. rewrite !create_terraform_files_phases.
  change (write_skeleton (with_triggers env t)) with (write_skeleton env).
  rewrite !bind_run.
  destruct (write_skeleton env w) as [[[]|e] w1]; [|auto].
  unfold emit_jobs.
  change (get_glue_jobs (with_triggers env t)) with (get_glue_jobs env).
  change (for_jobs (with_triggers env t)) with (for_jobs env).
  rewrite !bind_run.
  destruct (get_glue_jobs env w1) as [[jobs|e] w2]; [|auto].
  rewrite !bind_run. unfold get_triggers. rewrite !paginate_run.
  change (glue_get_triggers (with_triggers env t)) with t.
  rewrite Ht, Ht'.
  set (k := for_jobs env jobs [] ≫= fun g => write_glue_jobs (dict_keys g)).
  assert (Hk : calls_framed k).
  { apply calls_framed_bind; [apply calls_framed_for_jobs|].
    intros g. apply calls_framed_write_glue_jobs. }
  set (base := World (files w2) (stdout w2) []).
  assert (Hbase : forall cs,
             World (files w2) (stdout w2) cs = rebase cs base).
  { intros cs. unfold rebase, base. cbn [files stdout calls].
    rewrite app_nil_r. reflexivity. }
  change (for_jobs env jobs [] ≫= (fun g => write_glue_jobs (dict_keys g)))
    with k.
  rewrite !Hbase, !Hk. cbn [fst snd rebase files stdout]. auto.
Qed.

Lemma triggers_do_not_reach_the_output_witness :
  let env := quiet [bare_job "a"] in
  let t := NextPage [VStr "nightly"] (LastPage [VStr "hourly"]) in
  listing_fault (glue_get_triggers env) = None /\
  listing_fault t = None /\
  files (snd (create_terraform_files (with_triggers env t) fresh))
  = files (snd (create_terraform_files env fresh)).
Proof.
  cbv zeta. split; [reflexivity|]. split; [reflexivity|].
  exact (proj1 (proj2 (triggers_do_not_reach_the_output (quiet [bare_job "a"])
                         (NextPage [VStr "nightly"] (LastPage [VStr "hourly"]))
                         fresh eq_refl eq_refl))).
Defined.

(** X14. Though they are not used, the triggers must be listable: when their
    listing fails, the run does not complete and no file but the four
    top-level ones is touched, so no job file is created or rewritten,
    wherever the names of the jobs lead and however many jobs were
    listed; once the skeleton is written and the jobs are listed, the run
    fails with the exception of the triggers listing. *)
Theorem triggers_fault_aborts_before_any_job env w r w' e :
  listing_fault (glue_get_triggers env) = Some e ->
  create_terraform_files env w = (r, w') ->
  r <> Return tt /\
  (forall p, ~ In p top_files -> files w' !! p = files w !! p) /\
  (forall n, files w' !! resolve (job_file n) = files w !! resolve (job_file n)) /\
  (forall w1, write_skeleton env w = (Return tt, w1) ->
              listing_fault (glue_get_jobs env) = None ->
              r = Raise e).
Proof.
  intros Ht H.
  assert (Hgoal : r <> Return tt /\
                  (forall p, ~ In p top_files -> files w' !! p = files w !! p) /\
                  (forall w1, write_skeleton env w = (Return tt, w1) ->
                              listing_fault (glue_get_jobs env) = None ->
                              r = Raise e)).
  { revert H. rewrite create_terraform_files_phases, bind_run.
    destruct (write_skeleton env w) as [[[]|e1] w1] eqn:Hsk;
      destruct (write_skeleton_frame _ _ _ _ Hsk) as (Hfr & _ & _).
    2:{ intros [= <- <-]. split; [discriminate|]. split; [exact Hfr | discriminate]. }
    unfold emit_jobs. rewrite bind_run. unfold get_glue_jobs, get_triggers.
    rewrite paginate_run.
    destruct (listing_fault (glue_get_jobs env)) as [e2|].
    { intros [= <- <-]. split; [discriminate|]. split; [exact Hfr | discriminate]. }
    rewrite bind_run, paginate_run, Ht. intros [= <- <-].
    split; [discriminate|]. split; [exact Hfr | reflexivity]. }
  destruct Hgoal as (Hr & Hfiles & Hraise).
  split; [exact Hr|]. split; [exact Hfiles|]. split; [|exact Hraise].
  intros n. apply Hfiles, resolve_job_file_not_top.
Qed.

Lemma triggers_fault_aborts_before_any_job_witness :
  let run := create_terraform_files triggers_throttled fresh in
  listing_fault (glue_get_triggers triggers_throttled)
  = Some (Exn (ClientError "ThrottlingException") "Rate exceeded") /\
  fst run = Raise (Exn (ClientError "ThrottlingException") "Rate exceeded") /\
  files (snd run) !! job_file "a" = files fresh !! job_file "a".
Proof.
  cbv zeta.
  assert (Hrun : create_terraform_files triggers_throttled fresh
                 = (fst (create_terraform_files triggers_throttled fresh),
                    snd (create_terraform_files triggers_throttled fresh))).
  { vm_compute. reflexivity. }
  destruct (triggers_fault_aborts_before_any_job triggers_throttled fresh _ _ _
              eq_refl Hrun) as (_ & Hfiles & _).
  split; [reflexivity|]. split; [vm_compute; reflexivity|].
  apply Hfiles. unfold top_files. cbn [In].
  intros [H|[H|[H|[H|[]]]]]; discriminate H.
Defined.

(** ** What a run that completes has gone through *)

Lemma returns_only_when_bind {A B : Type} (m : M A) (f : A -> M B) b1 b2 :
  returns_only_when m b1 -> (forall a, returns_only_when (f a) b2) ->
  returns_only_when (m ≫= f) (b1 && b2).
Proof.
  intros Hm Hf w b w2 H. apply bind_inv in H as (a & w1 & Ha & Hb).
  rewrite (Hm _ _ _ Ha), (Hf a _ _ _ Hb). reflexivity.
Qed.

Lemma returns_only_when_write path text :
  returns_only_when (write path text) true.
Proof. intros w a w1 _. reflexivity. Qed.

Lemma returns_only_when_open_w env path :
  returns_only_when (open_w env path) (allowed env (OpenW path)).
Proof.
  intros w a w1. unfold open_w, allowed.
  destruct (os_refuses env (OpenW path)); [discriminate | reflexivity].
Qed.

Lemma returns_only_when_makedirs env path :
  returns_only_when (makedirs env path) (allowed env (Makedirs path)).
Proof.
  intros w a w1. unfold makedirs, allowed.
  destruct (os_refuses env (Makedirs path)); [discriminate | reflexivity].
Qed.

Lemma write_skeleton_returns env :
  returns_only_when (write_skeleton env) (forallb (allowed env) skeleton_calls).
Proof.
  assert (H : exists b, returns_only_when (write_skeleton env) b /\
                        b = forallb (allowed env) skeleton_calls).
  { eexists. split.
    - unfold write_skeleton.
      repeat (eapply returns_only_when_bind; [|intros _]);
        first [ apply returns_only_when_makedirs | apply returns_only_when_open_w
              | apply returns_only_when_write ].
    - cbn [forallb skeleton_calls]. rewrite !andb_true_r. reflexivity. }
  destruct H as (b & Hb & ->). exact Hb.
Qed.

(** A loop that completes has got past every job: each has a name, and
    each that was emitted had its file opened and its details encoded. *)
Lemma for_jobs_passes env jobs : forall glue_jobs w glue_jobs' w',
  for_jobs env jobs glue_jobs w = (Return glue_jobs', w') ->
  forall job, In job jobs ->
    exists n, Name job = Some n /\
      forall d, normalizes env job n d -> n <> "" ->
        os_refuses env (OpenW (job_file n)) = None /\
        json_serializable (VDict d) = true.
Proof.
  induction jobs as [|job rest IH]; intros g w g' w' H j Hj; [destruct Hj|].
  rewrite for_jobs_cons in H.
  destruct (process_job_details env job w) as [[r|e] w1] eqn:Hp; [|discriminate H].
  assert (HN : exists n, Name job = Some n).
  { rewrite process_job_details_run in Hp.
    destruct (Name job) as [n|]; [eauto | discriminate Hp]. }
  destruct HN as (n & HN).
  assert (Hnorm : forall d, normalizes env job n d -> r = (Some n, Some d)).
  { intros d Hd. apply (normalizes_run env job w) in Hd. rewrite Hp in Hd.
    cbn [fst] in Hd. congruence. }
  assert (Hrest : forall g2 w2, for_jobs env rest g2 w2 = (Return g', w') ->
                    In j rest ->
                    exists n, Name j = Some n /\
                      forall d, normalizes env j n d -> n <> "" ->
                        os_refuses env (OpenW (job_file n)) = None /\
                        json_serializable (VDict d) = true).
  { intros g2 w2 H2 Hin. exact (IH _ _ _ _ H2 j Hin). }
  destruct (process_job_details_shape _ _ _ _ _ Hp)
    as [->|(n0 & d0 & -> & HN0 & _)].
  { destruct Hj as [<-|Hj]; [|exact (Hrest _ _ H Hj)].
    exists n. split; [exact HN|]. intros d Hd. discriminate (Hnorm d Hd). }
  rewrite HN in HN0. injection HN0 as <-.
  destruct (String.eqb_spec n "") as [->|Hn]; cbn [negb] in H.
  { destruct Hj as [<-|Hj]; [|exact (Hrest _ _ H Hj)].
    exists "". split; [exact HN|]. intros d _ Hne. destruct (Hne eq_refl). }
  destruct (os_refuses env (OpenW (job_file n))) eqn:Hopen; [discriminate H|].
  cbv zeta in H.
  destruct (snd (iterencode (VDict d0) 0)) eqn:Henc; [discriminate H|].
  destruct Hj as [<-|Hj]; [|exact (Hrest _ _ H Hj)].
  exists n. split; [exact HN|]. intros d Hd _.
  specialize (Hnorm d Hd). injection Hnorm as <-. split; [exact Hopen|].
  rewrite iterencode_outcome in Henc.
  destruct (json_serializable (VDict d0)); [reflexivity | discriminate Henc].
Qed.

(** A loop of the publisher that completes has got every file through. *)
Lemma for_files_returns env bucket prefix local_paths : forall w w',
  for_files env bucket prefix local_paths w = (Return tt, w') ->
  forallb (goes_through env bucket prefix) local_paths = true.
Proof.
  induction local_paths as [|local rest IH]; intros w w'; [reflexivity|].
  cbn [for_files forallb]. rewrite bind_run. cbn [call_api]. rewrite bind_run.
  unfold goes_through, s3_key_of. cbv zeta.
  destruct (s3_head_object env bucket _) as [e|].
  - destruct (client_error_code (exn_cls e)) as [code|]; [|discriminate].
    destruct (String.eqb code "404").
    + rewrite bind_run. cbn [call_api].
      destruct (s3_upload_file env local bucket _); [discriminate|].
      cbn [print]. apply IH.
    + cbn [print]. apply IH.
  - cbn [print]. apply IH.
Qed.

(** X15. No failure of the emitter goes unnoticed: when it completes, the
    operating system has refused none of the two directories and four
    files of the skeleton, both listings were read to the end, every
    listed job record has a name, and every job that is normalised under
    a name that is not empty had its file opened and holds no value that
    [json.dump] cannot encode. *)
Theorem emitter_completes_only_when env w w' :
  create_terraform_files env w = (Return tt, w') ->
  Forall (fun c => os_refuses env c = None) skeleton_calls /\
  listing_fault (glue_get_jobs env) = None /\
  listing_fault (glue_get_triggers env) = None /\
  forall job, In job (all_items (glue_get_jobs env)) ->
    exists n, Name job = Some n /\
      forall d, normalizes env job n d -> n <> "" ->
        os_refuses env (OpenW (job_file n)) = None /\
        json_serializable (VDict d) = true.
Proof.
  intros H.
  destruct (create_terraform_files_inv _ _ _ H)
    as (w1 & w2 & triggers & w3 & g & w4 & Hsk & Hjobs & Htr & Hloop & _).
  split; [|split; [|split]].
  - pose proof (write_skeleton_returns env _ _ _ Hsk) as Hr.
    apply Forall_forall. intros c Hc. apply list_elem_of_In in Hc.
    rewrite forallb_forall in Hr. specialize (Hr c Hc). unfold allowed in Hr.
    destruct (os_refuses env c); [discriminate Hr | reflexivity].
  - unfold get_glue_jobs in Hjobs. rewrite paginate_run in Hjobs.
    destruct (listing_fault (glue_get_jobs env)); [discriminate Hjobs | reflexivity].
  - unfold get_triggers in Htr. rewrite paginate_run in Htr.
    destruct (listing_fault (glue_get_triggers env));
      [discriminate Htr | reflexivity].
  - exact (for_jobs_passes _ _ _ _ _ _ Hloop).
Qed.

Lemma emitter_completes_only_when_witness :
  let env := quiet [bare_job "a"; bare_job ""; faulty_job] in
  create_terraform_files env fresh
  = (Return tt, snd (create_terraform_files env fresh)) /\
  os_refuses env (OpenW (job_file "a")) = None /\
  json_serializable (VDict (job_details_literal (bare_job "a") (VList []))) = true.
Proof.
  cbv zeta.
  assert (Hrun : create_terraform_files (quiet [bare_job "a"; bare_job ""; faulty_job])
                   fresh
                 = (Return tt,
                    snd (create_terraform_files
                           (quiet [bare_job "a"; bare_job ""; faulty_job]) fresh))).
  { vm_compute. reflexivity. }
  split; [exact Hrun|].
  destruct (emitter_completes_only_when _ fresh _ Hrun) as (_ & _ & _ & Hjobs).
  destruct (Hjobs (bare_job "a") (or_introl eq_refl)) as (n & [= <-] & Hok).
  apply Hok; [reflexivity | discriminate].
Defined.

(** X16. A run of [main] that completes: the emitter has completed; the
    argument, once every ["s3://"] is removed, had a ["/"]; and every
    file the walk found in the world the emitter left went through the
    publisher (its check returned or raised a [ClientError], and its
    upload, if it was not found, returned).  The run then leaves the
    local files as the emitter wrote them, has checked every file in the
    order of the walk and uploaded those that were not found, and has
    printed one line for each file and the message of success. *)
Theorem main_completes_only_when env bucket_uri w w' :
  main env bucket_uri w = (Return tt, w') ->
  exists w1 bucket_name prefix,
    create_terraform_files env w = (Return tt, w1) /\
    str_partition "/" (without_scheme bucket_uri) = Some (bucket_name, prefix) /\
    forallb (goes_through env bucket_name prefix) (walked env w1) = true /\
    w' = World (files w1)
           ((stdout w1 ++ map (publish_line env bucket_name prefix) (walked env w1))
            ++ [success_message])
           (calls w1
            ++ flat_map (publish_calls env bucket_name prefix) (walked env w1)).
Proof.
  intros H. unfold main in H.
  apply bind_inv in H as ([] & w1 & Hemit & H).
  apply bind_inv in H as ([] & w2 & Hup & H).
  unfold upload_to_s3 in Hup. rewrite bind_run, parse_bucket_uri_run in Hup.
  destruct (str_partition "/" (without_scheme bucket_uri)) as [[b p]|] eqn:E;
    [|discriminate Hup].
  rewrite bind_run in Hup.
  change (os_walk env "terraform" w1) with (Return (walked env w1), w1) in Hup.
  cbv beta iota zeta in Hup.
  pose proof (for_files_returns _ _ _ _ _ _ Hup) as Hall.
  rewrite (for_files_through _ _ _ _ _ Hall) in Hup. injection Hup as <-.
  injection H as <-.
  exists w1, b, p. auto.
Qed.

Lemma main_completes_only_when_witness :
  let run := main half_published "s3://bucket/prefix" fresh in
  main half_published "s3://bucket/prefix" fresh = (Return tt, snd run) /\
  exists w1 bucket_name prefix,
    create_terraform_files half_published fresh = (Return tt, w1) /\
    str_partition "/" (without_scheme "s3://bucket/prefix")
    = Some (bucket_name, prefix) /\
    forallb (goes_through half_published bucket_name prefix)
      (walked half_published w1) = true.
Proof.
  cbv zeta.
  assert (Hrun : main half_published "s3://bucket/prefix" fresh
                 = (Return tt, snd (main half_published "s3://bucket/prefix" fresh))).
  { vm_compute. reflexivity. }
  split; [exact Hrun|].
  destruct (main_completes_only_when _ _ _ _ Hrun)
    as (w1 & b & p & Hemit & Hparse & Hall & _).
  exists w1, b, p. auto.
Defined.
